(** * A shallow embedding of the zoom widget (VanillaScope 1.0.0)

    The development follows the TypeScript module of the repository: the
    geometry helper [getOffset], the transition helper [fadeTo], the
    zoom-state factory [createZoom] with its two operations [init] and
    [move], and the binder [zoomImage] with the listeners it installs.

    Two copies of the module are in the repository.  The typed one
    (src/unnamed/part_000) is the one embedded here; src/zoom.ts is an
    earlier draft of the same module, whose [createZoom] reads an undeclared
    [$target] and whose [init] calls the local [offset] it is about to
    assign, so that no binding of the draft gets past the load of its
    overlay.  The geometry and [fadeTo] are the same in both copies.

    Conventions of the embedding:
    - a JavaScript number is a rational extended by +Infinity, -Infinity and
      NaN ([num]); binary64 rounding and the sign of zero are abstracted;
    - numbers handed out by the DOM are finite: layout sizes are naturals
      (IDL [long], never negative), coordinates are rationals;
    - DOM objects live in a store indexed by element identity, so that
      aliasing ([source === target]) is the equality of identities; the
      shape of the document is a tree of identities;
    - a handler runs in a state monad with exceptions in which the state
      survives a throw, as the heap of a JavaScript program does. *)

From Stdlib Require Import ZArith NArith QArith Qcanon List String Bool Lia.
Import ListNotations.

Set Warnings "-register-all".

Set Implicit Arguments.

(** ** JavaScript numbers *)

Module JsNumber.

Inductive num : Type :=
| Fin (q : Qc)
| PInf
| NInf
| NaN.

Definition ofZ (z : Z) : Qc := Q2Qc (inject_Z z).
Definition ofN (n : N) : Qc := ofZ (Z.of_N n).

Definition zero : Qc := Q2Qc 0.

Definition isFinite (n : num) : bool :=
  match n with Fin _ => true | _ => false end.

Definition isNaN (n : num) : bool :=
  match n with NaN => true | _ => false end.

(** Unary minus. *)
Definition neg (a : num) : num :=
  match a with
  | Fin q => Fin (- q)
  | PInf => NInf
  | NInf => PInf
  | NaN => NaN
  end.

(** [a + b]. *)
Definition add (a b : num) : num :=
  match a, b with
  | NaN, _ | _, NaN => NaN
  | Fin x, Fin y => Fin (x + y)
  | PInf, NInf | NInf, PInf => NaN
  | PInf, _ | _, PInf => PInf
  | NInf, _ | _, NInf => NInf
  end.

(** [a - b]. *)
Definition sub (a b : num) : num := add a (neg b).

(** An infinity of the sign of [c] ([Eq] stands for a zero factor). *)
Definition signed_inf (c : comparison) : num :=
  match c with
  | Gt => PInf
  | Lt => NInf
  | Eq => NaN
  end.

Definition sign (a : num) : comparison :=
  match a with
  | Fin q => (q ?= zero)
  | PInf => Gt
  | NInf => Lt
  | NaN => Eq
  end.

Definition sign_mul (c d : comparison) : comparison :=
  match c, d with
  | Eq, _ | _, Eq => Eq
  | Gt, Gt | Lt, Lt => Gt
  | _, _ => Lt
  end.

(** [a * b]: zero times an infinity is NaN. *)
Definition mul (a b : num) : num :=
  match a, b with
  | NaN, _ | _, NaN => NaN
  | Fin x, Fin y => Fin (x * y)
  | _, _ => signed_inf (sign_mul (sign a) (sign b))
  end.

(** [a / b]: a finite non-zero number over zero is an infinity of its
    sign, zero over zero is NaN, a finite number over an infinity is zero.
    The zero divisors of this program are layout sizes, which are +0. *)
Definition div (a b : num) : num :=
  match a, b with
  | NaN, _ | _, NaN => NaN
  | Fin x, Fin y =>
      if Qc_eq_dec y zero then signed_inf (x ?= zero) else Fin (x / y)
  | Fin _, _ => Fin zero
  | _, Fin y =>
      match (y ?= zero) with
      | Lt => neg a
      | _ => a
      end
  | _, _ => NaN
  end.

(** The order of the non-NaN numbers. *)
Definition leb (a b : num) : bool :=
  match a, b with
  | NaN, _ | _, NaN => false
  | NInf, _ => true
  | _, PInf => true
  | Fin x, Fin y => if Qclt_le_dec y x then false else true
  | _, _ => false
  end.

(** [Math.min(a, b)] and [Math.max(a, b)]: NaN as soon as one argument is. *)
Definition min (a b : num) : num :=
  match a, b with
  | NaN, _ | _, NaN => NaN
  | _, _ => if leb a b then a else b
  end.

Definition max (a b : num) : num :=
  match a, b with
  | NaN, _ | _, NaN => NaN
  | _, _ => if leb a b then b else a
  end.

(** ToNumber of a variable that may still be [undefined]. *)
Definition to_num (o : option num) : num :=
  match o with
  | Some n => n
  | None => NaN
  end.

(** The mathematical clamp the specification speaks of, on finite numbers. *)
Definition clamp (x lo hi : Qc) : Qc :=
  if Qclt_le_dec x lo then lo
  else if Qclt_le_dec hi x then hi
  else x.

End JsNumber.
Import JsNumber.

Local Open Scope string_scope.

(** ** The document *)

(** Element identity.  [a === b] on elements is [Nat.eqb]. *)
Definition elem : Type := nat.

(** The inline style properties this module reads or writes. *)
Inductive prop : Type :=
| position | overflow | display | top | left | opacity | width | height
| border | maxWidth | maxHeight | transform.

Definition prop_eq_dec (p q : prop) : {p = q} + {p <> q}.
Proof. decide equality. Defined.

(** The value a script assigned to a style property: a string, a number, or
    the string made of a number followed by [px].  The inline style is the
    bag of the values last assigned; the browser's parsing of them is not
    part of the embedding. *)
Inductive sval : Type :=
| Str (s : string)
| Num (n : num)
| Px (n : num).

Definition Style : Type := prop -> sval.

Definition style_set (p : prop) (v : sval) (s : Style) : Style :=
  fun q => if prop_eq_dec q p then v else s q.

(** [Object.assign(style, {p1: v1, ...})]: the assignments in order. *)
Definition style_assign (kvs : list (prop * sval)) (s : Style) : Style :=
  fold_left (fun acc kv => style_set (fst kv) (snd kv) acc) kvs s.

(** What layout gives for an element.  [width]/[height] are the IDL
    attributes of an image (its rendered size). *)
Record Layout : Type := mkLayout {
  offsetWidth : N;
  offsetHeight : N;
  img_width : N;
  img_height : N;
  box_top : Qc;
  box_left : Qc
}.

Record Element : Type := mkElement {
  localName : string;
  attributes : list (string * string);
  src : string;
  currentSrc : string;
  alt : string;
  classList : list string;
  style : Style;
  (** what the cascade gives for [position] and [display] when the inline
      style does not declare them *)
  sheet_position : string;
  sheet_display : string;
  layout : Layout;
  onload : bool
}.

Definition with_style (f : Style -> Style) (e : Element) : Element :=
  mkElement (localName e) (attributes e) (src e) (currentSrc e) (alt e)
    (classList e) (f (style e)) (sheet_position e) (sheet_display e)
    (layout e) (onload e).

Definition with_attributes (a : list (string * string)) (e : Element) : Element :=
  mkElement (localName e) a (src e) (currentSrc e) (alt e)
    (classList e) (style e) (sheet_position e) (sheet_display e)
    (layout e) (onload e).

Definition with_src (u : string) (e : Element) : Element :=
  mkElement (localName e) (attributes e) u (currentSrc e) (alt e)
    (classList e) (style e) (sheet_position e) (sheet_display e)
    (layout e) (onload e).

Definition with_alt (a : string) (e : Element) : Element :=
  mkElement (localName e) (attributes e) (src e) (currentSrc e) a
    (classList e) (style e) (sheet_position e) (sheet_display e)
    (layout e) (onload e).

Definition with_classList (c : list string) (e : Element) : Element :=
  mkElement (localName e) (attributes e) (src e) (currentSrc e) (alt e)
    c (style e) (sheet_position e) (sheet_display e)
    (layout e) (onload e).

Definition with_onload (b : bool) (e : Element) : Element :=
  mkElement (localName e) (attributes e) (src e) (currentSrc e) (alt e)
    (classList e) (style e) (sheet_position e) (sheet_display e)
    (layout e) b.

(** A string of the style, read back as a string ('' when the property
    holds no string). *)
Definition style_string (e : Element) (p : prop) : string :=
  match style e p with
  | Str s => s
  | _ => ""
  end.

(** [getComputedStyle(el)[p]] for [position] and [display]: the inline
    declaration when there is one, what the cascade gives otherwise. *)
Definition computed (e : Element) (p : prop) : string :=
  match style_string e p with
  | "" =>
      match p with
      | position => sheet_position e
      | display => sheet_display e
      | _ => ""
      end
  | s => s
  end.

(** [el.getAttribute(name)]: [null] when the attribute is absent. *)
Fixpoint getAttribute (name : string) (a : list (string * string)) : option string :=
  match a with
  | [] => None
  | (k, v) :: rest => if String.eqb k name then Some v else getAttribute name rest
  end.

(** [el.setAttribute(name, value)]. *)
Fixpoint setAttribute (name value : string) (a : list (string * string))
  : list (string * string) :=
  match a with
  | [] => [(name, value)]
  | (k, v) :: rest =>
      if String.eqb k name then (k, value) :: rest
      else (k, v) :: setAttribute name value rest
  end.

(** The document tree: the shape is a rose tree of identities, the data of
    each element is in the store. *)
Inductive tree : Type :=
| Node (id : elem) (kids : list tree).

Definition root_id (t : tree) : elem :=
  match t with Node i _ => i end.

(** Elements in document order. *)
Fixpoint preorder (t : tree) : list elem :=
  match t with
  | Node i kids => i :: flat_map preorder kids
  end.

(** The subtree rooted at [e], if [e] is in the tree. *)
Fixpoint subtree (e : elem) (t : tree) : option tree :=
  match t with
  | Node i kids =>
      if Nat.eqb i e then Some t
      else
        (fix first (l : list tree) : option tree :=
           match l with
           | [] => None
           | k :: rest =>
               match subtree e k with
               | Some s => Some s
               | None => first rest
               end
           end) kids
  end.

(** The descendants of [e] in document order ([e] itself excluded). *)
Definition descendants (e : elem) (t : tree) : list elem :=
  match subtree e t with
  | Some (Node _ kids) => flat_map preorder kids
  | None => []
  end.

(** [node.remove()]: the tree without the subtree rooted at [e]. *)
Fixpoint remove_node (e : elem) (t : tree) : tree :=
  match t with
  | Node i kids =>
      Node i
        ((fix go (l : list tree) : list tree :=
            match l with
            | [] => []
            | k :: rest =>
                if Nat.eqb (root_id k) e then go rest
                else remove_node e k :: go rest
            end) kids)
  end.

(** [parent.append(child)] for a childless [child]: [child] becomes the
    last child of [parent], leaving the place it had. *)
Fixpoint insert_last (parent child : elem) (t : tree) : tree :=
  match t with
  | Node i kids =>
      let kids' := map (insert_last parent child) kids in
      if Nat.eqb i parent then Node i (kids' ++ [Node child []])
      else Node i kids'
  end.

Definition append (parent child : elem) (t : tree) : tree :=
  insert_last parent child (remove_node child t).

Definition attached (e : elem) (t : tree) : bool :=
  existsb (Nat.eqb e) (preorder t).

(** ** Events, listeners, animations *)

Inductive evtype : Type :=
| mousedown | mouseup | mousemove | click | mouseover | mouseleave
| touchstart | touchmove | touchend | load.

Definition evtype_eq_dec (a b : evtype) : {a = b} + {a <> b}.
Proof. decide equality. Defined.

(** Where a listener is registered. *)
Inductive node : Type :=
| El (e : elem)
| Document.

Definition node_eqb (a b : node) : bool :=
  match a, b with
  | El x, El y => Nat.eqb x y
  | Document, Document => true
  | _, _ => false
  end.

(** What [move] reads of a [Touch] or a [MouseEvent]. *)
Record Point : Type := mkPoint {
  pageX : Qc;
  pageY : Qc
}.

Record Event : Type := mkEvent {
  ev_type : evtype;
  ev_point : Point;
  button : Z;
  touches : list Point;
  changedTouches : list Point
}.

(** The functions of the module that are registered as listeners.  The first
    group are the arrow functions written at the call of addEventListener;
    [h_start], [h_stop] and [h_move] are [start], [stop] and [zoom.move]
    passed by name. *)
Inductive handler : Type :=
| on_load
| grab_mousedown | grab_mouseup
| click_source | click_document
| toggle_click
| toggle_drag_click
| touch_start | touch_move | touch_end
| h_start | h_stop | h_move.

Definition handler_eq_dec (a b : handler) : {a = b} + {a <> b}.
Proof. decide equality. Defined.

(** A function passed by name is the same object at every registration;
    an arrow function written at the call is a new object each time. *)
Definition by_name (h : handler) : bool :=
  match h with
  | h_start | h_stop | h_move => true
  | _ => false
  end.

Record Listener : Type := mkListener {
  l_id : nat;
  l_node : node;
  l_type : evtype;
  l_handler : handler;
  l_once : bool
}.

(** The completion callbacks handed to [fadeTo]: the two arrow functions of
    [start] and [stop], and a callback of another caller, seen through the
    log only. *)
Inductive cb : Type :=
| zoomIn_cb
| zoomOut_cb
| other_cb (k : nat).

(** An animation made by [element.animate] in [fadeTo], with the variables
    its [onfinish] closes over. *)
Record Animation : Type := mkAnimation {
  a_elem : elem;
  a_opacity : num;
  a_duration : num;
  a_easing : string;
  a_iterations : nat;
  a_fill : string;
  a_callback : option cb;
  a_finished : bool
}.

(** User functions called, in order. *)
Inductive call : Type :=
| Callback (img : elem)
| OnZoomIn (img : elem)
| OnZoomOut (img : elem)
| Other (k : nat).

Inductive exn : Type :=
| TypeError (msg : string)
| ReferenceError (msg : string)
| SyntaxError (msg : string).

(** ** The state of a page with one binding

    [jquery] says whether the page has loaded jQuery, which defines the
    global [$] the 'toggle-drag' branch of the load listener names; the
    module itself neither declares nor imports it. *)

Record World : Type := mkWorld {
  elements : elem -> Element;
  doc : tree;
  next_elem : elem;
  scrollX : Qc;
  scrollY : Qc;
  clientTop : Z;
  clientLeft : Z;
  listeners : list Listener;
  next_listener : nat;
  animations : list Animation;
  calls : list call;
  reported : list exn;
  defaultPrevented : bool;
  propagationStopped : bool;
  jquery : bool
}.

Definition set_elements (f : elem -> Element) (w : World) : World :=
  mkWorld f (doc w) (next_elem w) (scrollX w) (scrollY w) (clientTop w)
    (clientLeft w) (listeners w) (next_listener w) (animations w) (calls w)
    (reported w) (defaultPrevented w) (propagationStopped w)
    (jquery w).

Definition set_doc (t : tree) (w : World) : World :=
  mkWorld (elements w) t (next_elem w) (scrollX w) (scrollY w) (clientTop w)
    (clientLeft w) (listeners w) (next_listener w) (animations w) (calls w)
    (reported w) (defaultPrevented w) (propagationStopped w)
    (jquery w).

Definition set_next_elem (n : elem) (w : World) : World :=
  mkWorld (elements w) (doc w) n (scrollX w) (scrollY w) (clientTop w)
    (clientLeft w) (listeners w) (next_listener w) (animations w) (calls w)
    (reported w) (defaultPrevented w) (propagationStopped w)
    (jquery w).

Definition set_listeners (l : list Listener) (n : nat) (w : World) : World :=
  mkWorld (elements w) (doc w) (next_elem w) (scrollX w) (scrollY w)
    (clientTop w) (clientLeft w) l n (animations w) (calls w)
    (reported w) (defaultPrevented w) (propagationStopped w)
    (jquery w).

Definition set_animations (a : list Animation) (w : World) : World :=
  mkWorld (elements w) (doc w) (next_elem w) (scrollX w) (scrollY w)
    (clientTop w) (clientLeft w) (listeners w) (next_listener w) a (calls w)
    (reported w) (defaultPrevented w) (propagationStopped w)
    (jquery w).

Definition set_calls (c : list call) (w : World) : World :=
  mkWorld (elements w) (doc w) (next_elem w) (scrollX w) (scrollY w)
    (clientTop w) (clientLeft w) (listeners w) (next_listener w)
    (animations w) c (reported w) (defaultPrevented w) (propagationStopped w)
    (jquery w).

Definition set_reported (r : list exn) (w : World) : World :=
  mkWorld (elements w) (doc w) (next_elem w) (scrollX w) (scrollY w)
    (clientTop w) (clientLeft w) (listeners w) (next_listener w)
    (animations w) (calls w) r (defaultPrevented w) (propagationStopped w)
    (jquery w).

Definition set_flags (d p : bool) (w : World) : World :=
  mkWorld (elements w) (doc w) (next_elem w) (scrollX w) (scrollY w)
    (clientTop w) (clientLeft w) (listeners w) (next_listener w)
    (animations w) (calls w) (reported w) d p (jquery w).

(** Store update at one identity. *)
Definition upd (e : elem) (f : Element -> Element) (m : elem -> Element)
  : elem -> Element :=
  fun x => if Nat.eqb x e then f (m x) else m x.

(** [Partial<ZoomOptions>]: [None] is an absent key.  The three callbacks
    are seen through the log: the flag says whether a function was given. *)
Record Options : Type := mkOptions {
  o_url : option string;
  o_target : option elem;
  o_duration : option num;
  o_on : option string;
  o_touch : option bool;
  o_magnify : option num;
  o_callback : bool;
  o_onZoomIn : bool;
  o_onZoomOut : bool
}.

Record Settings : Type := mkSettings {
  url : option string;
  s_target : option elem;
  duration : num;
  on : string;
  touch : bool;
  magnify : num;
  callback : bool;
  onZoomIn : bool;
  onZoomOut : bool
}.

Definition set_url (u : option string) (s : Settings) : Settings :=
  mkSettings u (s_target s) (duration s) (on s) (touch s) (magnify s)
    (callback s) (onZoomIn s) (onZoomOut s).

Definition ZOOM_IMAGE_CLASS : string := "zoomImg".

Definition ZOOM_DEFAULT_OPTIONS : Settings :=
  mkSettings None None (Fin (ofZ 120)) "mouseover" true (Fin (ofZ 1))
    false false false.

Definition or_default {A} (o : option A) (d : A) : A :=
  match o with Some a => a | None => d end.

(** [Object.assign({}, ZOOM_DEFAULT_OPTIONS, options)]. *)
Definition assign_options (o : Options) : Settings :=
  let d := ZOOM_DEFAULT_OPTIONS in
  mkSettings (o_url o) (o_target o)
    (or_default (o_duration o) (duration d))
    (or_default (o_on o) (on d))
    (or_default (o_touch o) (touch d))
    (or_default (o_magnify o) (magnify d))
    (o_callback o) (o_onZoomIn o) (o_onZoomOut o).

Record Offset : Type := mkOffset {
  off_top : num;
  off_left : num
}.

(** The [let] variables of [createZoom]; [None] is [undefined], their value
    until [init] runs. *)
Record ZoomVars : Type := mkZoomVars {
  targetHeight : option num;
  targetWidth : option num;
  sourceHeight : option num;
  sourceWidth : option num;
  xRatio : option num;
  yRatio : option num;
  offset : option Offset
}.

Definition undefined_vars : ZoomVars :=
  mkZoomVars None None None None None None None.

(** The variables of one call of [zoomImage]; [zoom] is [None] until the
    load listener has made the zoom object, and [dragging] is the variable
    the load listener declares in its 'toggle-drag' branch. *)
Record Binding : Type := mkBinding {
  settings : Settings;
  source : elem;
  target : elem;
  img : elem;
  clicked : bool;
  touched : bool;
  zoom : option ZoomVars;
  dragging : bool
}.

Definition set_settings (s : Settings) (b : Binding) : Binding :=
  mkBinding s (source b) (target b) (img b) (clicked b) (touched b) (zoom b)
    (dragging b).

Definition set_clicked (c : bool) (b : Binding) : Binding :=
  mkBinding (settings b) (source b) (target b) (img b) c (touched b) (zoom b)
    (dragging b).

Definition set_touched (t : bool) (b : Binding) : Binding :=
  mkBinding (settings b) (source b) (target b) (img b) (clicked b) t (zoom b)
    (dragging b).

Definition set_zoom (z : option ZoomVars) (b : Binding) : Binding :=
  mkBinding (settings b) (source b) (target b) (img b) (clicked b)
    (touched b) z (dragging b).

Definition set_dragging (d : bool) (b : Binding) : Binding :=
  mkBinding (settings b) (source b) (target b) (img b) (clicked b)
    (touched b) (zoom b) d.

Record State : Type := mkState {
  world : World;
  bind : Binding
}.

Definition on_world (f : World -> World) (s : State) : State :=
  mkState (f (world s)) (bind s).

Definition on_bind (f : Binding -> Binding) (s : State) : State :=
  mkState (world s) (f (bind s)).

(** ** Statements that may throw

    [M A] is a computation over the state that ends with a value or with a
    thrown exception; in both cases the state reached is kept. *)

Inductive outcome (A : Type) : Type :=
| Ok (a : A)
| Throw (e : exn).

Arguments Ok {A} a.
Arguments Throw {A} e.

Definition M (A : Type) : Type := State -> State * outcome A.

Definition ret {A} (a : A) : M A := fun s => (s, Ok a).

Definition throw {A} (e : exn) : M A := fun s => (s, Throw e).

Definition bindM {A B} (c : M A) (k : A -> M B) : M B :=
  fun s =>
    match c s with
    | (s', Ok a) => k a s'
    | (s', Throw e) => (s', Throw e)
    end.

Definition get : M State := fun s => (s, Ok s).

Definition modify (f : State -> State) : M unit := fun s => (f s, Ok tt).

Declare Scope js_scope.
Delimit Scope js_scope with js.
Notation "x <- c ;; k" := (bindM c (fun x => k))
  (at level 61, c at next level, right associativity) : js_scope.
Notation "c ;; k" := (bindM c (fun _ => k))
  (at level 61, right associativity) : js_scope.
Local Open Scope js_scope.

Definition when (b : bool) (c : M unit) : M unit :=
  if b then c else ret tt.

(** The state a computation leaves, whatever its outcome. *)
Definition exec {A} (c : M A) (s : State) : State := fst (c s).

Definition threw {A} (c : M A) (s : State) : bool :=
  match snd (c s) with
  | Throw _ => true
  | Ok _ => false
  end.

(** ** The module *)

Definition set_style (e : elem) (p : prop) (v : sval) : M unit :=
  modify (on_world (fun w => set_elements (upd e (with_style (style_set p v)) (elements w)) w)).

(** [getOffset(el)]. *)
Definition getOffset (w : World) (el : elem) : Offset :=
  let box := layout (elements w el) in
  mkOffset
    (sub (add (Fin (box_top box)) (Fin (scrollY w))) (Fin (ofZ (clientTop w))))
    (sub (add (Fin (box_left box)) (Fin (scrollX w))) (Fin (ofZ (clientLeft w)))).

Definition num_eqb (a b : num) : bool :=
  match a, b with
  | Fin x, Fin y => if Qc_eq_dec x y then true else false
  | PInf, PInf | NInf, NInf => true
  | _, _ => false
  end.

(** The two arrow functions [start] and [stop] hand to [fadeTo], and a
    callback of another caller. *)
Definition run_cb (c : cb) : M unit :=
  fun s =>
    let b := bind s in
    match c with
    | zoomIn_cb =>
        if onZoomIn (settings b)
        then (on_world (fun w => set_calls (calls w ++ [OnZoomIn (img b)]) w) s, Ok tt)
        else (s, Ok tt)
    | zoomOut_cb =>
        if onZoomOut (settings b)
        then (on_world (fun w => set_calls (calls w ++ [OnZoomOut (img b)]) w) s, Ok tt)
        else (s, Ok tt)
    | other_cb k =>
        (on_world (fun w => set_calls (calls w ++ [Other k]) w) s, Ok tt)
    end.

(** The durations [element.animate] takes: a number that is neither
    negative nor NaN. *)
Definition valid_duration (d : num) : bool := leb (Fin zero) d.

(** What [element.animate] throws for any other duration. *)
Definition animate_error : exn :=
  TypeError "Failed to execute 'animate' on 'Element': duration must be non-negative".

(** [fadeTo(element, duration, opacity, callback)], up to its return: the
    display is reset when the computed display is 'none'; then
    [element.animate] either throws on the duration, or starts an animation
    to [opacity], whose [onfinish] is set. *)
Definition fadeTo (element : elem) (d : num) (op : num) (callback : option cb)
  : M unit :=
  s <- get ;;
  when (String.eqb (computed (elements (world s) element) display) "none")
       (set_style element display (Str "")) ;;
  if valid_duration d then
    modify (on_world (fun w =>
      set_animations
        (animations w ++ [mkAnimation element op d "linear" 1 "both" callback false]) w))
  else throw animate_error.

(** The [onfinish] function of an animation made by [fadeTo]. *)
Definition onfinish (a : Animation) : M unit :=
  when (num_eqb (a_opacity a) (Fin zero))
       (set_style (a_elem a) display (Str "none")) ;;
  match a_callback a with
  | Some c => run_cb c
  | None => ret tt
  end.

Definition mark_finished (a : Animation) : Animation :=
  mkAnimation (a_elem a) (a_opacity a) (a_duration a) (a_easing a)
    (a_iterations a) (a_fill a) (a_callback a) true.

Fixpoint mark_nth (i : nat) (l : list Animation) : list Animation :=
  match l, i with
  | [], _ => []
  | a :: rest, O => mark_finished a :: rest
  | a :: rest, S j => a :: mark_nth j rest
  end.

(** The [i]-th animation started reaches its end: its finish event fires
    once. *)
Definition finish (i : nat) : M unit :=
  s <- get ;;
  match nth_error (animations (world s)) i with
  | Some a =>
      if a_finished a then ret tt
      else
        modify (on_world (fun w => set_animations (mark_nth i (animations w)) w)) ;;
        onfinish a
  | None => ret tt
  end.

(** The opacity the animations give an element: with [fill: "both"] each
    animation holds its end value, and the one started last wins. *)
Definition animated_opacity (w : World) (e : elem) : option num :=
  match filter (fun a => Nat.eqb (a_elem a) e) (animations w) with
  | [] => None
  | l => Some (a_opacity (last l (mkAnimation e NaN NaN "" 0 "" None false)))
  end.

Definition all_finished (w : World) : bool :=
  forallb a_finished (animations w).

(** The set-up part of [createZoom(target, source, img, magnify)], with the
    arguments the load listener gives it: the writes the function makes.
    What the browser lays out anew afterwards (the overlay in its new
    place, the clipped target) is no part of it: the sizes and boxes of
    [Layout] change by steps of the page, as [relayout] below. *)
Definition createZoom : M unit :=
  s <- get ;;
  let b := bind s in
  let pos := computed (elements (world s) (target b)) position in
  set_style (target b) position
    (Str (if existsb (String.eqb pos) ["absolute"; "fixed"] then pos else "relative")) ;;
  set_style (target b) overflow (Str "hidden") ;;
  set_style (img b) width (Str "") ;;
  set_style (img b) height (Str "") ;;
  modify (on_world (fun w => set_elements
    (upd (img b) (fun e =>
       if existsb (String.eqb ZOOM_IMAGE_CLASS) (classList e) then e
       else with_classList (classList e ++ [ZOOM_IMAGE_CLASS]) e) (elements w)) w)) ;;
  s1 <- get ;;
  let lay := layout (elements (world s1) (img b)) in
  modify (on_world (fun w => set_elements
    (upd (img b) (with_style (style_assign
       [ (position, Str "absolute");
         (top, Num (Fin zero));
         (left, Num (Fin zero));
         (opacity, Num (Fin zero));
         (width, Num (mul (Fin (ofN (img_width lay))) (magnify (settings b))));
         (height, Num (mul (Fin (ofN (img_height lay))) (magnify (settings b))));
         (border, Str "none");
         (maxWidth, Str "none");
         (maxHeight, Str "none");
         (transform, Str "translate3d(0,0,0)") ])) (elements w)) w)) ;;
  modify (on_world (fun w => set_doc (append (target b) (img b) (doc w)) w)) ;;
  modify (on_bind (set_zoom (Some undefined_vars))).

(** The assignments of [init()], in order. *)
Definition init_vars (w : World) (b : Binding) : ZoomVars :=
  let tw := Fin (ofN (offsetWidth (layout (elements w (target b))))) in
  let th := Fin (ofN (offsetHeight (layout (elements w (target b))))) in
  let sw :=
    if Nat.eqb (source b) (target b) then tw
    else Fin (ofN (offsetWidth (layout (elements w (source b))))) in
  let sh :=
    if Nat.eqb (source b) (target b) then th
    else Fin (ofN (offsetHeight (layout (elements w (source b))))) in
  let xr := div (sub (Fin (ofN (img_width (layout (elements w (img b)))))) tw) sw in
  let yr := div (sub (Fin (ofN (img_height (layout (elements w (img b)))))) th) sh in
  mkZoomVars (Some th) (Some tw) (Some sh) (Some sw) (Some xr) (Some yr)
    (Some (getOffset w (source b))).

Definition init : M unit :=
  modify (fun s => on_bind (set_zoom (Some (init_vars (world s) (bind s)))) s).

(** [move(touch)]; [None] is a call with [undefined]. *)
Definition move (touch : option Point) : M unit :=
  s <- get ;;
  match touch, zoom (bind s) with
  | None, _ => throw (TypeError "Cannot read properties of undefined (reading 'pageX')")
  | _, None => throw (TypeError "zoom is undefined")
  | Some t, Some z =>
      match offset z with
      | None => throw (TypeError "Cannot read properties of undefined (reading 'left')")
      | Some off =>
          let left0 := sub (Fin (pageX t)) (off_left off) in
          let top0 := sub (Fin (pageY t)) (off_top off) in
          let left1 := max (min left0 (to_num (sourceWidth z))) (Fin zero) in
          let top1 := max (min top0 (to_num (sourceHeight z))) (Fin zero) in
          set_style (img (bind s)) left (Px (mul left1 (neg (to_num (xRatio z))))) ;;
          set_style (img (bind s)) top (Px (mul top1 (neg (to_num (yRatio z)))))
      end
  end.

(** ** Geometry: what the specification calls the snapshot *)

(** The page offset of an element, as finite numbers. *)
Definition page_top (w : World) (el : elem) : Qc :=
  (box_top (layout (elements w el)) + scrollY w - ofZ (clientTop w))%Qc.

Definition page_left (w : World) (el : elem) : Qc :=
  (box_left (layout (elements w el)) + scrollX w - ofZ (clientLeft w))%Qc.

(** The size taken for the source: the target's when source and target are
    the same element, the source's own otherwise. *)
Definition source_width (w : World) (b : Binding) : N :=
  if Nat.eqb (source b) (target b)
  then offsetWidth (layout (elements w (target b)))
  else offsetWidth (layout (elements w (source b))).

Definition source_height (w : World) (b : Binding) : N :=
  if Nat.eqb (source b) (target b)
  then offsetHeight (layout (elements w (target b)))
  else offsetHeight (layout (elements w (source b))).

(** [(overlay - target) / source] on layout sizes. *)
Definition ratio (overlay tgt src : N) : num :=
  div (Fin (ofN overlay - ofN tgt)) (Fin (ofN src)).

(** [v] lies between [a] and [b], whichever is the smaller. *)
Definition between (a b v : Qc) : Prop :=
  (a <= v /\ v <= b)%Qc \/ (b <= v /\ v <= a)%Qc.

Definition style_of (s : State) (e : elem) (p : prop) : sval :=
  style (elements (world s) e) p.

(** ** Listeners *)

Definition same_registration (n : node) (t : evtype) (h : handler) (l : Listener)
  : bool :=
  node_eqb (l_node l) n
  && (if evtype_eq_dec (l_type l) t then true else false)
  && (if handler_eq_dec (l_handler l) h then true else false).

(** [node.addEventListener(type, h, {once})].  Registering again a function
    that is already registered for the type on the node does nothing. *)
Definition addEventListener (n : node) (t : evtype) (h : handler) (once : bool)
  : M unit :=
  modify (on_world (fun w =>
    if by_name h && existsb (same_registration n t h) (listeners w) then w
    else set_listeners
           (listeners w ++ [mkListener (next_listener w) n t h once])
           (S (next_listener w)) w)).

(** [node.removeEventListener(type, h)]. *)
Definition removeEventListener (n : node) (t : evtype) (h : handler) : M unit :=
  modify (on_world (fun w =>
    set_listeners
      (filter (fun l => negb (same_registration n t h l)) (listeners w))
      (next_listener w) w)).

Definition registered (n : node) (t : evtype) (h : handler) (s : State) : bool :=
  existsb (same_registration n t h) (listeners (world s)).

Definition preventDefault : M unit :=
  modify (on_world (fun w => set_flags true (propagationStopped w) w)).

Definition stopPropagation : M unit :=
  modify (on_world (fun w => set_flags (defaultPrevented w) true w)).

(** ** The functions of the load listener *)

(** [start(event)]. *)
Definition start (event : option Point) : M unit :=
  init ;;
  move event ;;
  s <- get ;;
  fadeTo (img (bind s)) (duration (settings (bind s))) (Fin (ofZ 1)) (Some zoomIn_cb).

(** [stop()]. *)
Definition stop : M unit :=
  s <- get ;;
  fadeTo (img (bind s)) (duration (settings (bind s))) (Fin zero) (Some zoomOut_cb).

(** [event.touches[0] || event.changedTouches[0]]. *)
Definition first_touch (e : Event) : option Point :=
  match touches e with
  | p :: _ => Some p
  | [] => hd_error (changedTouches e)
  end.

(** The part of the load listener under [// Mouse events]. *)
Definition mouse_events (b : Binding) : M unit :=
  let mode := on (settings b) in
  if String.eqb mode "grab" then
    addEventListener (El (source b)) mousedown grab_mousedown false
  else if String.eqb mode "click" then
    addEventListener (El (source b)) click click_source false
  else if String.eqb mode "toggle" then
    addEventListener (El (source b)) click toggle_click false
  else if String.eqb mode "toggle-drag" then
    (* [var dragging = false; $(source).on('click.zoom', function (e) ...)]:
       [$] is the page's.  Without jQuery the name is not defined; with
       it the function is bound to the source, which is seen as one more
       listener of the source *)
    modify (on_bind (set_dragging false)) ;;
    s <- get ;;
    if jquery (world s) then
      addEventListener (El (source b)) click toggle_drag_click false
    else throw (ReferenceError "$ is not defined")
  else if String.eqb mode "mouseover" then
    addEventListener (El (source b)) mouseover h_start false ;;
    addEventListener (El (source b)) mouseleave h_stop false ;;
    addEventListener (El (source b)) mousemove h_move false
  else ret tt.

(** The part of the load listener under [// Touch fallback]. *)
Definition touch_fallback (b : Binding) : M unit :=
  when (touch (settings b))
    (addEventListener (El (source b)) touchstart touch_start false ;;
     addEventListener (El (source b)) touchmove touch_move false ;;
     addEventListener (El (source b)) touchend touch_end false).

(** The body of the load listener. *)
Definition load_listener : M unit :=
  createZoom ;;
  s <- get ;;
  let b := bind s in
  mouse_events b ;;
  touch_fallback b ;;
  when (callback (settings b))
    (modify (on_world (fun w => set_calls (calls w ++ [Callback (img b)]) w))).

(** The body of each listener, at an event. *)
Definition run_handler (h : handler) (e : Event) : M unit :=
  match h with
  | on_load => load_listener
  | grab_mousedown =>
      when (Z.eqb (button e) 0)
        (addEventListener Document mouseup grab_mouseup true ;;
         start (Some (ev_point e)) ;;
         addEventListener Document mousemove h_move false ;;
         preventDefault)
  | grab_mouseup =>
      stop ;;
      removeEventListener Document mousemove h_move
  | click_source =>
      s <- get ;;
      if clicked (bind s) then
        (* bubble the event up to the document to trigger the unbind *)
        ret tt
      else
        modify (on_bind (set_clicked true)) ;;
        start (Some (ev_point e)) ;;
        addEventListener Document mousemove h_move false ;;
        addEventListener Document click click_document true ;;
        preventDefault ;;
        stopPropagation
  | click_document =>
      stop ;;
      modify (on_bind (set_clicked false)) ;;
      removeEventListener Document mousemove h_move
  | toggle_click =>
      s <- get ;;
      (if clicked (bind s) then
         stop ;;
         removeEventListener Document mousemove h_move
       else
         start (Some (ev_point e)) ;;
         addEventListener Document mousemove h_move false) ;;
      modify (on_bind (fun b => set_clicked (negb (clicked b)) b))
  | toggle_drag_click =>
      (* bound through jQuery: what [$(document).on] and [.off] bind and
         unbind is seen as the listeners of the document *)
      s <- get ;;
      if dragging (bind s) then
        modify (on_bind (set_dragging false)) ;;
        removeEventListener Document mousemove h_move
      else if clicked (bind s) then
        stop ;;
        modify (on_bind (set_clicked false))
      else
        start (Some (ev_point e)) ;;
        modify (on_bind (set_dragging true)) ;;
        modify (on_bind (set_clicked true)) ;;
        addEventListener Document mousemove h_move false
  | touch_start =>
      s <- get ;;
      let mode := on (settings (bind s)) in
      if String.eqb mode "click" || String.eqb mode "toggle" then ret tt
      else
        preventDefault ;;
        if touched (bind s) then
          modify (on_bind (set_touched false)) ;;
          stop
        else
          modify (on_bind (set_touched true)) ;;
          start (first_touch e)
  | touch_move =>
      s <- get ;;
      if negb (touched (bind s)) && negb (clicked (bind s)) then ret tt
      else
        preventDefault ;;
        move (first_touch e)
  | touch_end =>
      preventDefault ;;
      s <- get ;;
      when (touched (bind s))
        (modify (on_bind (set_touched false)) ;;
         stop)
  | h_start => start (Some (ev_point e))
  | h_stop => stop
  | h_move => move (Some (ev_point e))
  end.

(** ** Dispatch *)

Definition has_id (i : nat) (s : State) : bool :=
  existsb (fun l => Nat.eqb (l_id l) i) (listeners (world s)).

Definition unregister (i : nat) (s : State) : State :=
  on_world (fun w =>
    set_listeners (filter (fun l => negb (Nat.eqb (l_id l) i)) (listeners w))
      (next_listener w) w) s.

Definition report (x : exn) (s : State) : State :=
  on_world (fun w => set_reported (reported w ++ [x]) w) s.

(** One listener of the snapshot is invoked: skipped when it has been
    removed meanwhile; a once-listener is removed before it runs; what it
    throws is reported and the dispatch goes on. *)
Definition invoke (e : Event) (s : State) (l : Listener) : State :=
  if has_id (l_id l) s then
    let s1 := if l_once l then unregister (l_id l) s else s in
    match run_handler (l_handler l) e s1 with
    | (s2, Ok _) => s2
    | (s2, Throw x) => report x s2
    end
  else s.

Definition listens (n : node) (t : evtype) (l : Listener) : bool :=
  node_eqb (l_node l) n && (if evtype_eq_dec (l_type l) t then true else false).

(** The listeners of one node for the event, as registered when the event
    reaches the node, in registration order. *)
Definition dispatch_at (n : node) (e : Event) (s : State) : State :=
  fold_left (invoke e) (filter (listens n (ev_type e)) (listeners (world s))) s.

Definition bubbles (t : evtype) : bool :=
  match t with
  | mouseleave | load => false
  | _ => true
  end.

(** An event whose path goes through the node [n]: the listeners of [n],
    then those of the document when the event bubbles and its propagation
    was not stopped.  Only a binding's own nodes carry listeners here. *)
Definition dispatch (n : node) (e : Event) (s : State) : State :=
  let s0 := on_world (set_flags false false) s in
  match n with
  | Document => dispatch_at Document e s0
  | El _ =>
      let s1 := dispatch_at n e s0 in
      if bubbles (ev_type e) && negb (propagationStopped (world s1))
      then dispatch_at Document e s1
      else s1
  end.

(** A mouse event of type [t] at a page position. *)
Definition mouse (t : evtype) (p : Point) : Event := mkEvent t p 0 [] [].

(** A touch event with one touch point. *)
Definition touch_at (t : evtype) (p : Point) : Event :=
  mkEvent t (mkPoint zero zero) 0 [p] [p].

(** ** The binder *)

Definition lower_ascii (c : Ascii.ascii) : Ascii.ascii :=
  let n := Ascii.nat_of_ascii c in
  if (65 <=? n)%nat && (n <=? 90)%nat then Ascii.ascii_of_nat (n + 32) else c.

Fixpoint lower (s : string) : string :=
  match s with
  | EmptyString => EmptyString
  | String c rest => String (lower_ascii c) (lower rest)
  end.

(** [root.querySelector(sel)] for a type selector: the first descendant in
    document order whose local name is [sel], compared without case. *)
Definition querySelector (w : World) (root : elem) (sel : string) : option elem :=
  find (fun e => String.eqb (localName (elements w e)) (lower sel))
       (descendants root (doc w)).

Definition blank_style : Style := fun _ => Str "".

Definition blank_element (name : string) : Element :=
  mkElement name [] "" "" "" [] blank_style "static" "inline"
    (mkLayout 0 0 0 0 zero zero) false.

(** [document.createElement(name)]: a new element, in no tree. *)
Definition createElement (name : string) (w : World) : elem * World :=
  (next_elem w,
   set_next_elem (S (next_elem w))
     (set_elements (fun x => if Nat.eqb x (next_elem w)
                             then blank_element (lower name)
                             else elements w x) w)).

(** Truth of [string | null | undefined]. *)
Definition truthy (o : option string) : bool :=
  match o with
  | Some s => negb (String.eqb s "")
  | None => false
  end.

(** [srcElement.getAttribute('data-src') || srcElement.currentSrc || srcElement.src]. *)
Definition image_url (e : Element) : string :=
  match getAttribute "data-src" (attributes e) with
  | Some s =>
      if negb (String.eqb s "") then s
      else if negb (String.eqb (currentSrc e) "") then currentSrc e
      else src e
  | None =>
      if negb (String.eqb (currentSrc e) "") then currentSrc e
      else src e
  end.

(** What a call returns. *)
Inductive jsval : Type :=
| undefined.

(** [source.querySelector(ZOOM_IMAGE_CLASS) || document.createElement('img')]. *)
Definition overlay_image (w : World) (src_el : elem) : elem * World :=
  match querySelector w src_el ZOOM_IMAGE_CLASS with
  | Some e => (e, w)
  | None => createElement "img" w
  end.

(** [zoomImage(source, options)] on a page, up to its return.  The state it
    leaves holds the variables of the call. *)
Definition zoomImage (src_el : elem) (options : Options) (w : World)
  : State * jsval :=
  let settings0 := assign_options options in
  let tgt := or_default (s_target settings0) src_el in
  let '(im, w1) := overlay_image w src_el in
  let settings1 :=
    if negb (truthy (url settings0)) then
      match querySelector w1 src_el "img" with
      | Some se => set_url (Some (image_url (elements w1 se))) settings0
      | None => settings0
      end
    else settings0 in
  let s1 := mkState w1 (mkBinding settings1 src_el tgt im false false None false) in
  if negb (truthy (url settings0)) && negb (truthy (url settings1)) then
    (s1, undefined)
  else
    let s2 := exec (addEventListener (El im) load on_load false) s1 in
    let s3 :=
      on_world (fun w => set_elements
        (upd im (fun e =>
           with_src (or_default (url settings1) "")
             (with_alt ""
                (with_attributes
                   (setAttribute "role" "presentation" (attributes e)) e)))
           (elements w)) w) s2 in
    (s3, undefined).

(** The image finishes loading: the load event at the overlay image. *)
Definition image_loaded (s : State) : State :=
  dispatch (El (img (bind s))) (mkEvent load (mkPoint zero zero) 0 [] []) s.

(** ** Teardown *)

(** The two free identifiers of [destroy]: [event], which is the page's
    [window.event] (the target of the event being dispatched, if any), and
    [$source], which the module neither declares nor imports. *)
Record Globals : Type := mkGlobals {
  window_event : option elem;
  dollar_source : bool
}.

(** [destroy()].  When the page has a [$source], its [off(".zoom")] removes
    what was bound through it in that name space; the listeners of this
    module are registered with [addEventListener] and are none of those. *)
Definition destroy (g : Globals) : M unit :=
  s <- get ;;
  match window_event g with
  | None => throw (TypeError "Cannot read properties of undefined (reading 'target')")
  | Some t =>
      let pos := style (elements (world s) t) position in
      let ovf := style (elements (world s) t) overflow in
      (if dollar_source g then ret tt
       else throw (ReferenceError "$source is not defined")) ;;
      set_style (target (bind s)) position pos ;;
      set_style (target (bind s)) overflow ovf ;;
      modify (on_world (fun w =>
        set_elements (upd (img (bind s)) (with_onload false) (elements w)) w)) ;;
      modify (on_world (fun w => set_doc (remove_node (img (bind s)) (doc w)) w))
  end.

(** ** Layout steps of the page *)

Definition with_layout (l : Layout) (e : Element) : Element :=
  mkElement (localName e) (attributes e) (src e) (currentSrc e) (alt e)
    (classList e) (style e) (sheet_position e) (sheet_display e)
    l (onload e).

Definition relayout (e : elem) (l : Layout) (s : State) : State :=
  on_world (fun w => set_elements (upd e (with_layout l) (elements w)) w) s.

(** Two pages with the same layout: sizes, boxes, scroll position and the
    root's client edge. *)
Definition same_layout (w1 w2 : World) : Prop :=
  (forall e, layout (elements w1 e) = layout (elements w2 e))
  /\ scrollX w1 = scrollX w2 /\ scrollY w1 = scrollY w2
  /\ clientTop w1 = clientTop w2 /\ clientLeft w1 = clientLeft w2.

(** Two bindings on the same three elements. *)
Definition same_elements (b1 b2 : Binding) : Prop :=
  source b1 = source b2 /\ target b1 = target b2 /\ img b1 = img b2.

(** The identities below [root] have been handed out: a new element gets
    none of them. *)
Definition fresh_for (w : World) (root : elem) : Prop :=
  Forall (fun x => x < next_elem w)%nat (descendants root (doc w)).

(** Two pages with the same listeners, document tree, log of calls, reported
    exceptions and event flags. *)
Definition same_wiring (w1 w2 : World) : Prop :=
  listeners w1 = listeners w2
  /\ next_listener w1 = next_listener w2
  /\ doc w1 = doc w2
  /\ calls w1 = calls w2
  /\ reported w1 = reported w2
  /\ defaultPrevented w1 = defaultPrevented w2
  /\ propagationStopped w1 = propagationStopped w2.

(** Two bindings with the same settings, the same elements and the same
    [clicked] and [touched]. *)
Definition same_closure (b1 b2 : Binding) : Prop :=
  settings b1 = settings b2 /\ source b1 = source b2 /\ target b1 = target b2
  /\ img b1 = img b2 /\ clicked b1 = clicked b2 /\ touched b1 = touched b2.

(** The opacities the animations started so far go to, in order. *)
Definition fades (s : State) : list num :=
  map a_opacity (animations (world s)).

(** Clicks on the source, one after the other. *)
Definition clicks_on_source (ps : list Point) (s : State) : State :=
  fold_left (fun acc p => dispatch (El (source (bind acc))) (mouse click p) acc)
    ps s.

(** The listeners of a node for a type of event. *)
Definition listeners_for (n : node) (t : evtype) (s : State) : list Listener :=
  filter (listens n t) (listeners (world s)).

(** The wiring of the toggle mode: one click listener on the source, none
    on the document, and the document-wide move tracker registered exactly
    while [clicked] holds. *)
Definition toggle_wired (s : State) : Prop :=
  on (settings (bind s)) = "toggle"
  /\ (exists i, listeners_for (El (source (bind s))) click s
                = [mkListener i (El (source (bind s))) click toggle_click false])
  /\ listeners_for Document click s = []
  /\ registered Document mousemove h_move s = clicked (bind s).

(** The opacities the fades of [n] successive toggles go to. *)
Fixpoint toggle_fades (active : bool) (n : nat) : list num :=
  match n with
  | O => []
  | S k => (if active then Fin zero else Fin (ofZ 1))
           :: toggle_fades (negb active) k
  end.

(** A page on which a source is bound with a url given in the options and
    the trigger mode [mode], the overlay image loaded. *)
Definition bound_and_loaded (src_el : elem) (o : Options) (w : World) : State :=
  image_loaded (fst (zoomImage src_el o w)).

(** The listeners each trigger mode registers, with identities from [n];
    the one of 'toggle-drag' on a page with jQuery. *)
Definition mode_listeners (mode : string) (src_el : elem) (n : nat)
  : list Listener :=
  if String.eqb mode "grab" then
    [mkListener n (El src_el) mousedown grab_mousedown false]
  else if String.eqb mode "click" then
    [mkListener n (El src_el) click click_source false]
  else if String.eqb mode "toggle" then
    [mkListener n (El src_el) click toggle_click false]
  else if String.eqb mode "toggle-drag" then
    [mkListener n (El src_el) click toggle_drag_click false]
  else if String.eqb mode "mouseover" then
    [mkListener n (El src_el) mouseover h_start false;
     mkListener (S n) (El src_el) mouseleave h_stop false;
     mkListener (S (S n)) (El src_el) mousemove h_move false]
  else [].

(** The listeners of the touch fallback. *)
Definition touch_listeners (src_el : elem) (n : nat) : list Listener :=
  [mkListener n (El src_el) touchstart touch_start false;
   mkListener (S n) (El src_el) touchmove touch_move false;
   mkListener (S (S n)) (El src_el) touchend touch_end false].

(** [s'] is [s] with the listeners [added] registered after those of [s],
    under the next identities, and nothing else changed. *)
Definition registers (added : list Listener) (s s' : State) : Prop :=
  s' = mkState
         (set_listeners (listeners (world s) ++ added)
            (next_listener (world s) + List.length added) (world s))
         (bind s).

(** The wiring of the click mode: one click listener on the source; while
    [clicked] holds, and only then, a one-shot click listener on the
    document and the document-wide move tracker. *)
Definition click_wired (s : State) : Prop :=
  on (settings (bind s)) = "click"
  /\ (exists i,
        listeners_for (El (source (bind s))) click s
        = [mkListener i (El (source (bind s))) click click_source false]
        /\ (i < next_listener (world s))%nat
        /\ (clicked (bind s) = false -> listeners_for Document click s = [])
        /\ (clicked (bind s) = true ->
            exists j, j <> i
                      /\ listeners_for Document click s
                         = [mkListener j Document click click_document true]))
  /\ registered Document mousemove h_move s = clicked (bind s).

(** The wiring of the touch fallback: one listener on the source for each
    of the three touch events, none on the document. *)
Definition touch_wired (s : State) : Prop :=
  (exists i, listeners_for (El (source (bind s))) touchstart s
             = [mkListener i (El (source (bind s))) touchstart touch_start false])
  /\ (exists i, listeners_for (El (source (bind s))) touchmove s
                = [mkListener i (El (source (bind s))) touchmove touch_move false])
  /\ (exists i, listeners_for (El (source (bind s))) touchend s
                = [mkListener i (El (source (bind s))) touchend touch_end false])
  /\ listeners_for Document touchstart s = []
  /\ listeners_for Document touchmove s = []
  /\ listeners_for Document touchend s = [].

(** The modes in which a touch-start is ignored. *)
Definition touch_suppressed (s : State) : bool :=
  String.eqb (on (settings (bind s))) "click"
  || String.eqb (on (settings (bind s))) "toggle".

(** The state a listener body leaves behind: what it throws is reported. *)
Definition settle (c : M unit) (s : State) : State :=
  match c s with
  | (s', Ok _) => s'
  | (s', Throw x) => report x s'
  end.

(** The duration of the binding is one [element.animate] takes. *)
Definition fades_run (s : State) : Prop :=
  valid_duration (duration (settings (bind s))) = true.

(** ** A sample page

    A document whose root (0) holds a thumbnail container (1) of 100 by 100
    at page offset (10, 10), with its thumbnail image (2) inside, and a
    separate container (3) of the same size. *)

Definition sample_elements (e : elem) : Element :=
  match e with
  | 1%nat => with_layout (mkLayout 100 100 0 0 (ofZ 10) (ofZ 10)) (blank_element "div")
  | 2%nat => with_src "thumb.jpg"
           (with_layout (mkLayout 100 100 100 100 (ofZ 10) (ofZ 10))
              (blank_element "img"))
  | 3%nat => with_layout (mkLayout 100 100 0 0 (ofZ 200) (ofZ 10)) (blank_element "div")
  | _ => blank_element "html"
  end.

Definition sample_page : World :=
  mkWorld sample_elements (Node 0%nat [Node 1%nat [Node 2%nat []]; Node 3%nat []]) 4%nat
    zero zero 0%Z 0%Z [] 0%nat [] [] [] false false false.

Definition no_options : Options :=
  mkOptions None None None None None None false false false.

Definition with_on (mode : string) (o : Options) : Options :=
  mkOptions (o_url o) (o_target o) (o_duration o) (Some mode) (o_touch o)
    (o_magnify o) (o_callback o) (o_onZoomIn o) (o_onZoomOut o).

Definition with_url (u : string) (o : Options) : Options :=
  mkOptions (Some u) (o_target o) (o_duration o) (o_on o) (o_touch o)
    (o_magnify o) (o_callback o) (o_onZoomIn o) (o_onZoomOut o).

Definition with_target (t : elem) (o : Options) : Options :=
  mkOptions (o_url o) (Some t) (o_duration o) (o_on o) (o_touch o)
    (o_magnify o) (o_callback o) (o_onZoomIn o) (o_onZoomOut o).

(** The overlay once its image of 400 by 400 has loaded. *)
Definition overlay_400 : Layout := mkLayout 400 400 400 400 (ofZ 10) (ofZ 10).

(** The sample page bound with the given options, the overlay image
    loaded. *)
Definition bound (o : Options) : State := fst (zoomImage 1%nat o sample_page).

Definition loaded (o : Options) : State :=
  let s := bound o in
  image_loaded (relayout (img (bind s)) overlay_400 s).

Definition at_60_60 : Point := mkPoint (ofZ 60) (ofZ 60).

(** ** Runs of [fadeTo] *)

(** The element is not rendered: its computed display is 'none'. *)
Definition hidden (s : State) (e : elem) : bool :=
  String.eqb (computed (elements (world s) e) display) "none".

(** The number of animations started so far: the index of the next one. *)
Definition started (s : State) : nat := List.length (animations (world s)).

(** Two fades of one element, the first finished before the second is
    asked for. *)
Definition fades_in_turn (e : elem) (d o1 o2 : num) (c1 c2 : option cb)
  : M unit :=
  s <- get ;;
  fadeTo e d o1 c1 ;;
  finish (started s) ;;
  fadeTo e d o2 c2 ;;
  finish (S (started s)).

(** Two fades of one element, the second asked for while the first is
    running; both then finish, in the order they were started. *)
Definition fades_overlapping (e : elem) (d o1 o2 : num) (c1 c2 : option cb)
  : M unit :=
  s <- get ;;
  fadeTo e d o1 c1 ;;
  fadeTo e d o2 c2 ;;
  finish (started s) ;;
  finish (S (started s)).

(** What a completion callback adds to the log of calls. *)
Definition cb_calls (c : option cb) (b : Binding) : list call :=
  match c with
  | None => []
  | Some zoomIn_cb => if onZoomIn (settings b) then [OnZoomIn (img b)] else []
  | Some zoomOut_cb => if onZoomOut (settings b) then [OnZoomOut (img b)] else []
  | Some (other_cb k) => [Other k]
  end.

(** An element that a style sheet hides. *)
Definition sheet_hidden_page : State :=
  mkState
    (set_elements
       (upd 1%nat (fun e =>
          mkElement (localName e) (attributes e) (src e) (currentSrc e) (alt e)
            (classList e) (style e) (sheet_position e) "none" (layout e)
            (onload e))
          sample_elements) sample_page)
    (mkBinding ZOOM_DEFAULT_OPTIONS 1%nat 1%nat 2%nat false false None false).

(** The sample page with a binding and nothing else. *)
Definition plain_page : State :=
  mkState sample_page
    (mkBinding ZOOM_DEFAULT_OPTIONS 1%nat 1%nat 2%nat false false None false).

(** The animation [fadeTo] starts. *)
Definition fade_animation (e : elem) (d op : num) (c : option cb) : Animation :=
  mkAnimation e op d "linear" 1 "both" c false.

(** Whether a display value hides the element, given what the style sheets
    say. *)
Definition hides (v : sval) (sheet : string) : bool :=
  match v with
  | Str "" => String.eqb sheet "none"
  | Str s => String.eqb s "none"
  | _ => String.eqb sheet "none"
  end.

Definition is_display (p : prop) : bool :=
  if prop_eq_dec p display then true else false.

(** ** Scrolling *)

Definition shift_box (dx dy : Qc) (l : Layout) : Layout :=
  mkLayout (offsetWidth l) (offsetHeight l) (img_width l) (img_height l)
    (box_top l - dy) (box_left l - dx).

(** The page scrolled by [(dx, dy)]: the scroll position grows by it, and
    the box of every element that is not [fixed] moves the other way in the
    viewport. *)
Definition scroll_by (fixed : elem -> bool) (dx dy : Qc) (w : World) : World :=
  mkWorld
    (fun e => if fixed e then elements w e
              else with_layout (shift_box dx dy (layout (elements w e)))
                     (elements w e))
    (doc w) (next_elem w) (scrollX w + dx) (scrollY w + dy) (clientTop w)
    (clientLeft w) (listeners w) (next_listener w) (animations w) (calls w)
    (reported w) (defaultPrevented w) (propagationStopped w) (jquery w).

(** ** The exported function *)

(** [document.querySelectorAll] is the browser's: for a page and a
    selector, the elements the selector matches, in document order, or the
    SyntaxError of a selector it cannot parse. *)
Definition SelectorEngine : Type := World -> string -> outcome (list elem).


Module Exported.

(** [zoom(selector, options)], up to its return or to what it throws: the
    page it leaves, the variables of each call of [zoomImage] in order, and
    the array returned. *)
Definition zoom (querySelectorAll : SelectorEngine) (selector : string)
  (options : Options) (w : World)
  : World * list Binding * outcome (list jsval) :=
  match querySelectorAll w selector with
  | Throw x => (w, [], Throw x)
  | Ok images =>
      let '(w1, bs, rs) :=
        fold_left
          (fun acc image =>
             let '(w0, bs, rs) := acc in
             let '(s, r) := zoomImage image options w0 in
             (world s, (bs ++ [bind s])%list, (rs ++ [r])%list))
          images (w, [], []) in
      (w1, bs, Ok rs)
  end.

End Exported.

(** ** The wiring of the mouse modes *)

(** The mouseover mode: one listener on the source for each of mouseover,
    mouseleave and mousemove, none on the document for the two that
    bubble. *)
Definition mouseover_wired (s : State) : Prop :=
  let src_el := source (bind s) in
  (exists i, listeners_for (El src_el) mouseover s
             = [mkListener i (El src_el) mouseover h_start false])
  /\ (exists i, listeners_for (El src_el) mouseleave s
                = [mkListener i (El src_el) mouseleave h_stop false])
  /\ (exists i, listeners_for (El src_el) mousemove s
                = [mkListener i (El src_el) mousemove h_move false])
  /\ listeners_for Document mouseover s = []
  /\ listeners_for Document mousemove s = [].

(** The grab mode: one mousedown listener on the source, registered under
    an identity already handed out, none on the document, and no mouseup
    listener on the source. *)
Definition grab_wired (s : State) : Prop :=
  (exists i, listeners_for (El (source (bind s))) mousedown s
             = [mkListener i (El (source (bind s))) mousedown grab_mousedown false]
             /\ (i < next_listener (world s))%nat)
  /\ listeners_for Document mousedown s = []
  /\ listeners_for (El (source (bind s))) mouseup s = [].

(** The button is up: the document has no mouseup listener and no move
    tracker. *)
Definition grab_released (s : State) : Prop :=
  listeners_for Document mouseup s = []
  /\ registered Document mousemove h_move s = false.

(** The button is down: the document has the one-shot mouseup listener,
    which is another registration than the source's mousedown listener, and
    the move tracker. *)
Definition grab_held (s : State) : Prop :=
  (exists j, listeners_for Document mouseup s
             = [mkListener j Document mouseup grab_mouseup true]
             /\ Forall (fun l => l_id l <> j)
                  (listeners_for (El (source (bind s))) mousedown s))
  /\ registered Document mousemove h_move s = true.

(** A mouse event with the given button. *)
Definition mouse_button (t : evtype) (p : Point) (b : Z) : Event :=
  mkEvent t p b [] [].

(** A touch event whose lists of touch points are empty. *)
Definition touch_without_point (t : evtype) : Event :=
  mkEvent t (mkPoint zero zero) 0 [] [].

(** * Properties *)

Local Open Scope list_scope.
Section NumFacts.

Lemma Qcopp_lt_compat (p q : Qc) : (p < q -> - q < - p)%Qc.
Proof.
  intros H. apply Qclt_minus_iff. apply Qclt_minus_iff in H.
  replace (- p + - - q)%Qc with (q + - p)%Qc by ring. exact H.
Qed.

Lemma Qccompare_opp (q : Qc) : (- q ?= zero)%Qc = CompOpp (q ?= zero)%Qc.
Proof.
  destruct (q ?= zero)%Qc eqn:E; cbn [CompOpp].
  - apply Qceq_alt in E. subst q. reflexivity.
  - apply Qclt_alt in E. apply Qcgt_alt.
    apply Qcopp_lt_compat in E. exact E.
  - apply Qcgt_alt in E. apply Qclt_alt.
    apply Qcopp_lt_compat in E. exact E.
Qed.

Lemma mul_neg_comm (a b : num) : mul a (neg b) = mul (neg a) b.
Proof.
  destruct a as [x| | |], b as [y| | |]; cbn [mul neg sign signed_inf];
    try reflexivity; try (f_equal; ring);
    rewrite ?Qccompare_opp;
    try (destruct (x ?= zero)%Qc; reflexivity);
    try (destruct (y ?= zero)%Qc; reflexivity).
Qed.

Lemma ofN_nonneg (n : N) : (zero <= ofN n)%Qc.
Proof.
  unfold Qcle, ofN, ofZ, Q2Qc, zero. cbn [this].
  rewrite !Qred_correct. unfold Qle, inject_Z. cbn. lia.
Qed.

Lemma ofN_pos (n : N) : (0 < n)%N -> (zero < ofN n)%Qc.
Proof.
  intros H. unfold Qclt, ofN, ofZ, Q2Qc, zero. cbn [this].
  rewrite !Qred_correct. unfold Qlt, inject_Z. cbn. lia.
Qed.

Lemma ofN_zero_iff (n : N) : ofN n = zero <-> n = 0%N.
Proof.
  split.
  - intros H. destruct (N.eq_dec n 0) as [E|E]; [exact E|].
    assert (P : (zero < ofN n)%Qc) by (apply ofN_pos; lia).
    rewrite H in P. exfalso. revert P. apply Qcle_not_lt, Qcle_refl.
  - intros ->. reflexivity.
Qed.

(** The code's [Math.max(Math.min(x, hi), 0)] is the clamp to [[0, hi]]. *)
Lemma max_min_clamp (x hi : Qc) :
  (zero <= hi)%Qc ->
  max (min (Fin x) (Fin hi)) (Fin zero) = Fin (clamp x zero hi).
Proof.
  intros Hhi. unfold clamp, min, max, leb.
  destruct (Qclt_le_dec hi x) as [A|A].
  - destruct (Qclt_le_dec x zero) as [B|B].
    + exfalso. apply (Qclt_not_le _ _ (Qclt_trans _ _ _ A B)). exact Hhi.
    + destruct (Qclt_le_dec zero hi) as [C|C]; [reflexivity|].
      f_equal. apply Qcle_antisym; assumption.
  - destruct (Qclt_le_dec zero x) as [B|B];
      destruct (Qclt_le_dec x zero) as [C|C]; try reflexivity.
    + exfalso. apply (Qclt_not_le _ _ B). apply Qclt_le_weak, C.
    + f_equal. apply Qcle_antisym; assumption.
Qed.

Lemma clamp_bounds (x hi : Qc) :
  (zero <= hi)%Qc -> (zero <= clamp x zero hi /\ clamp x zero hi <= hi)%Qc.
Proof.
  intros Hhi. unfold clamp.
  destruct (Qclt_le_dec x zero) as [A|A].
  - split; [apply Qcle_refl | exact Hhi].
  - destruct (Qclt_le_dec hi x) as [B|B].
    + split; [exact Hhi | apply Qcle_refl].
    + split; assumption.
Qed.

Lemma clamp_below (x hi : Qc) :
  (zero <= hi)%Qc -> (x <= zero)%Qc -> clamp x zero hi = zero.
Proof.
  intros Hhi H. unfold clamp.
  destruct (Qclt_le_dec x zero) as [A|A]; [reflexivity|].
  assert (E : x = zero) by (apply Qcle_antisym; assumption). subst x.
  destruct (Qclt_le_dec hi zero) as [B|B]; [|reflexivity].
  exfalso. apply (Qclt_not_le _ _ B Hhi).
Qed.

Lemma clamp_above (x hi : Qc) :
  (zero <= hi)%Qc -> (hi <= x)%Qc -> clamp x zero hi = hi.
Proof.
  intros Hhi H. unfold clamp.
  destruct (Qclt_le_dec x zero) as [A|A].
  - apply Qcle_antisym; [exact Hhi|].
    apply Qcle_trans with x; [exact H | apply Qclt_le_weak, A].
  - destruct (Qclt_le_dec hi x) as [B|B]; [reflexivity|].
    apply Qcle_antisym; assumption.
Qed.

Lemma clamp_inside (x hi : Qc) :
  (zero <= x)%Qc -> (x <= hi)%Qc -> clamp x zero hi = x.
Proof.
  intros H0 H1. unfold clamp.
  destruct (Qclt_le_dec x zero) as [A|A].
  - exfalso. apply (Qclt_not_le _ _ A H0).
  - destruct (Qclt_le_dec hi x) as [B|B]; [|reflexivity].
    exfalso. apply (Qclt_not_le _ _ B H1).
Qed.

(** Scaling the clamped position by the negated ratio stays between 0 and
    the value at the far edge. *)
Lemma scaled_between (c hi r : Qc) :
  (zero <= c)%Qc -> (c <= hi)%Qc ->
  between zero (- (hi * r)) (- (c * r)).
Proof.
  intros H0 H1. unfold between.
  destruct (Qclt_le_dec r zero) as [R|R]; unfold zero in *.
  - left. 
    assert (Rn : (0 <= - r)%Qc).
    { replace (Q2Qc 0) with (- Q2Qc 0)%Qc by reflexivity.
      apply Qcopp_le_compat, Qclt_le_weak, R. }
    replace (- (c * r))%Qc with (c * - r)%Qc by ring.
    replace (- (hi * r))%Qc with (hi * - r)%Qc by ring.
    split.
    + replace (Q2Qc 0) with (Q2Qc 0 * - r)%Qc by ring.
      apply Qcmult_le_compat_r; assumption.
    + apply Qcmult_le_compat_r; assumption.
  - right. split.
    + apply Qcopp_le_compat. apply Qcmult_le_compat_r; assumption.
    + replace (Q2Qc 0) with (- (Q2Qc 0 * r))%Qc by ring.
      apply Qcopp_le_compat. apply Qcmult_le_compat_r; assumption.
Qed.

End NumFacts.

(** ** Reading the store after a write *)

Section StoreFacts.

Lemma exec_set_style_same (s : State) (e : elem) (p : prop) (v : sval) :
  style_of (exec (set_style e p v) s) e p = v.
Proof.
  unfold style_of, exec, set_style, modify, on_world, set_elements, upd,
    with_style, style_set.
  cbn. rewrite Nat.eqb_refl. cbn.
  destruct (prop_eq_dec p p) as [_|N]; [reflexivity | contradiction].
Qed.

Lemma exec_set_style_other (s : State) (e e' : elem) (p p' : prop) (v : sval) :
  e' <> e \/ p' <> p ->
  style_of (exec (set_style e p v) s) e' p' = style_of s e' p'.
Proof.
  intros H.
  unfold style_of, exec, set_style, modify, on_world, set_elements, upd,
    with_style, style_set.
  cbn. destruct (Nat.eqb_spec e' e) as [E|E]; [|reflexivity].
  cbn. destruct (prop_eq_dec p' p) as [P|P]; [|subst; reflexivity].
  destruct H; contradiction.
Qed.

Lemma set_style_bind (s : State) (e : elem) (p : prop) (v : sval) :
  bind (exec (set_style e p v) s) = bind s.
Proof. reflexivity. Qed.

Lemma getOffset_finite (w : World) (el : elem) :
  getOffset w el = mkOffset (Fin (page_top w el)) (Fin (page_left w el)).
Proof. reflexivity. Qed.

End StoreFacts.

Section Geometry.

Variables (w0 : World) (b0 : Binding).

Lemma init_vars_offset :
  offset (init_vars w0 b0)
  = Some (mkOffset (Fin (page_top w0 (source b0))) (Fin (page_left w0 (source b0)))).
Proof. reflexivity. Qed.

Lemma init_vars_sourceWidth :
  sourceWidth (init_vars w0 b0) = Some (Fin (ofN (source_width w0 b0))).
Proof.
  unfold init_vars, source_width. cbn [sourceWidth].
  destruct (Nat.eqb (source b0) (target b0)); reflexivity.
Qed.

Lemma init_vars_sourceHeight :
  sourceHeight (init_vars w0 b0) = Some (Fin (ofN (source_height w0 b0))).
Proof.
  unfold init_vars, source_height. cbn [sourceHeight].
  destruct (Nat.eqb (source b0) (target b0)); reflexivity.
Qed.

Lemma init_vars_xRatio :
  xRatio (init_vars w0 b0)
  = Some (ratio (img_width (layout (elements w0 (img b0))))
                (offsetWidth (layout (elements w0 (target b0))))
                (source_width w0 b0)).
Proof.
  unfold init_vars, source_width, ratio. cbn [xRatio].
  destruct (Nat.eqb (source b0) (target b0)); reflexivity.
Qed.

Lemma init_vars_yRatio :
  yRatio (init_vars w0 b0)
  = Some (ratio (img_height (layout (elements w0 (img b0))))
                (offsetHeight (layout (elements w0 (target b0))))
                (source_height w0 b0)).
Proof.
  unfold init_vars, source_height, ratio. cbn [yRatio].
  destruct (Nat.eqb (source b0) (target b0)); reflexivity.
Qed.

(** What [move] does on a snapshot made by [init]. *)
Lemma move_on_snapshot (s : State) (p : Point) :
  zoom (bind s) = Some (init_vars w0 b0) ->
  move (Some p) s
  = (exec (set_style (img (bind s)) top
             (Px (mul (Fin (clamp (pageY p - page_top w0 (source b0)) zero
                                  (ofN (source_height w0 b0))))
                      (neg (to_num (yRatio (init_vars w0 b0)))))))
       (exec (set_style (img (bind s)) left
             (Px (mul (Fin (clamp (pageX p - page_left w0 (source b0)) zero
                                  (ofN (source_width w0 b0))))
                      (neg (to_num (xRatio (init_vars w0 b0))))))) s),
     Ok tt).
Proof.
  intros Hz. unfold move, bindM, get. rewrite Hz.
  rewrite init_vars_offset, init_vars_sourceWidth, init_vars_sourceHeight.
  cbn [off_left off_top to_num].
  change (sub (Fin (pageX p)) (Fin (page_left w0 (source b0))))
    with (Fin (pageX p - page_left w0 (source b0))).
  change (sub (Fin (pageY p)) (Fin (page_top w0 (source b0))))
    with (Fin (pageY p - page_top w0 (source b0))).
  rewrite !max_min_clamp by apply ofN_nonneg.
  reflexivity.
Qed.

(** The two offsets [move] writes, with the sign moved to the position. *)
Lemma move_writes (s : State) (p : Point) :
  zoom (bind s) = Some (init_vars w0 b0) ->
  let z := init_vars w0 b0 in
  let cx := clamp (pageX p - page_left w0 (source b0)) zero
                  (ofN (source_width w0 b0)) in
  let cy := clamp (pageY p - page_top w0 (source b0)) zero
                  (ofN (source_height w0 b0)) in
  let s' := exec (move (Some p)) s in
  threw (move (Some p)) s = false
  /\ style_of s' (img (bind s)) left = Px (mul (neg (Fin cx)) (to_num (xRatio z)))
  /\ style_of s' (img (bind s)) top = Px (mul (neg (Fin cy)) (to_num (yRatio z))).
Proof.
  intros Hz z cx cy s'.
  pose proof (move_on_snapshot s p Hz) as Hm.
  split; [unfold threw; rewrite Hm; reflexivity|].
  split.
  - unfold s', exec. rewrite Hm. cbn [fst].
    rewrite exec_set_style_other by (right; discriminate).
    rewrite exec_set_style_same. rewrite mul_neg_comm. reflexivity.
  - unfold s', exec. rewrite Hm. cbn [fst].
    rewrite exec_set_style_same. rewrite mul_neg_comm. reflexivity.
Qed.

End Geometry.

Lemma mul_neg_finite (c r : Qc) : mul (neg (Fin c)) (Fin r) = Fin (- (c * r)).
Proof. cbn [neg mul]. apply f_equal. ring. Qed.
Lemma clamp_zero_width (x : Qc) : clamp x zero (ofN 0) = zero.
Proof.
  unfold clamp.
  destruct (Qclt_le_dec x zero) as [A|A]; [reflexivity|].
  destruct (Qclt_le_dec (ofN 0) x) as [B|B]; [reflexivity|].
  apply Qcle_antisym; assumption.
Qed.

Section Finite.

Lemma ratio_finite_iff (overlay tgt srcdim : N) :
  isFinite (ratio overlay tgt srcdim) = true <-> (0 < srcdim)%N.
Proof.
  unfold ratio, div.
  destruct (Qc_eq_dec (ofN srcdim) zero) as [E|E].
  - apply ofN_zero_iff in E. subst srcdim. split.
    + destruct (ofN overlay - ofN tgt ?= zero)%Qc; discriminate.
    + intros H. exfalso. revert H. apply N.lt_irrefl.
  - split; [|reflexivity]. intros _.
    destruct (N.eq_dec srcdim 0) as [Z|Z]; [|lia].
    exfalso. apply E. apply ofN_zero_iff. exact Z.
Qed.

Lemma ratio_positive (overlay tgt srcdim : N) :
  (0 < srcdim)%N ->
  ratio overlay tgt srcdim = Fin ((ofN overlay - ofN tgt) / ofN srcdim).
Proof.
  intros H. unfold ratio, div.
  destruct (Qc_eq_dec (ofN srcdim) zero) as [E|E]; [|reflexivity].
  apply ofN_zero_iff in E. subst srcdim. exfalso. revert H. apply N.lt_irrefl.
Qed.

Lemma ratio_zero_source (overlay tgt : N) (x : Qc) :
  mul (neg (Fin (clamp x zero (ofN 0)))) (ratio overlay tgt 0) = NaN.
Proof.
  rewrite clamp_zero_width.
  unfold ratio, div.
  destruct (Qc_eq_dec (ofN 0) zero) as [_|E]; [|exfalso; apply E; reflexivity].
  destruct (ofN overlay - ofN tgt ?= zero)%Qc; reflexivity.
Qed.

End Finite.


(** C1, for a source of positive size.  On any snapshot made by [init],
    [move] at any pointer sets the overlay's left to
    [-clamp(pageX - offset.left, 0, sourceWidth) * xRatio] and its top to
    [-clamp(pageY - offset.top, 0, sourceHeight) * yRatio] and does not
    throw.  The clamped position is within the source, it is the near edge
    for a pointer before the source and the far edge for a pointer past it.
    When the width (height) of the source is strictly positive, the ratio
    is a finite number and the left (top) written lies between 0 and the
    offset of the far edge, [-(sourceDimension * ratio)]. *)
Theorem move_sets_clamped_offsets
  (s : State) (w0 : World) (b0 : Binding) (p : Point) :
  zoom (bind s) = Some (init_vars w0 b0) ->
  let z := init_vars w0 b0 in
  let sw := ofN (source_width w0 b0) in
  let sh := ofN (source_height w0 b0) in
  let cx := clamp (pageX p - page_left w0 (source b0)) zero sw in
  let cy := clamp (pageY p - page_top w0 (source b0)) zero sh in
  let s' := exec (move (Some p)) s in
  threw (move (Some p)) s = false
  /\ style_of s' (img (bind s)) left = Px (mul (neg (Fin cx)) (to_num (xRatio z)))
  /\ style_of s' (img (bind s)) top = Px (mul (neg (Fin cy)) (to_num (yRatio z)))
  /\ (zero <= cx /\ cx <= sw)%Qc
  /\ (zero <= cy /\ cy <= sh)%Qc
  /\ ((pageX p - page_left w0 (source b0) <= zero)%Qc -> cx = zero)
  /\ ((sw <= pageX p - page_left w0 (source b0))%Qc -> cx = sw)
  /\ ((pageY p - page_top w0 (source b0) <= zero)%Qc -> cy = zero)
  /\ ((sh <= pageY p - page_top w0 (source b0))%Qc -> cy = sh)
  /\ ((0 < source_width w0 b0)%N ->
      exists r, xRatio z = Some (Fin r)
                /\ style_of s' (img (bind s)) left = Px (Fin (- (cx * r)))
                /\ between zero (- (sw * r)) (- (cx * r)))
  /\ ((0 < source_height w0 b0)%N ->
      exists r, yRatio z = Some (Fin r)
                /\ style_of s' (img (bind s)) top = Px (Fin (- (cy * r)))
                /\ between zero (- (sh * r)) (- (cy * r))).
Proof.
  intros Hz z sw sh cx cy s'.
  destruct (@move_writes w0 b0 s p Hz) as (Hthrew & Hl & Ht).
  fold z sw sh cx cy s' in Hl, Ht.
  pose proof (ofN_nonneg (source_width w0 b0)) as Hsw.
  pose proof (ofN_nonneg (source_height w0 b0)) as Hsh.
  pose proof (clamp_bounds (pageX p - page_left w0 (source b0)) Hsw) as [Hx0 Hx1].
  pose proof (clamp_bounds (pageY p - page_top w0 (source b0)) Hsh) as [Hy0 Hy1].
  split; [exact Hthrew|]. split; [exact Hl|]. split; [exact Ht|].
  split; [split; assumption|]. split; [split; assumption|].
  split; [apply clamp_below, Hsw|]. split; [apply clamp_above, Hsw|].
  split; [apply clamp_below, Hsh|]. split; [apply clamp_above, Hsh|].
  split.
  - intros Hpos.
    pose proof (init_vars_xRatio w0 b0) as Hr.
    rewrite (ratio_positive _ _ Hpos) in Hr. fold z in Hr.
    eexists. split; [exact Hr|]. split.
    + rewrite Hl, Hr. cbn [to_num]. rewrite mul_neg_finite. reflexivity.
    + apply scaled_between; assumption.
  - intros Hpos.
    pose proof (init_vars_yRatio w0 b0) as Hr.
    rewrite (ratio_positive _ _ Hpos) in Hr. fold z in Hr.
    eexists. split; [exact Hr|]. split.
    + rewrite Ht, Hr. cbn [to_num]. rewrite mul_neg_finite. reflexivity.
    + apply scaled_between; assumption.
Qed.

Section Init.

Lemma init_vars_same_layout (w1 w2 : World) (b1 b2 : Binding) :
  same_layout w1 w2 -> same_elements b1 b2 ->
  init_vars w1 b1 = init_vars w2 b2.
Proof.
  intros (Hl & Hsx & Hsy & Hct & Hcl) (Hs & Ht & Hi).
  unfold init_vars, getOffset.
  rewrite Hs, Ht, Hi, !Hl, Hsx, Hsy, Hct, Hcl. reflexivity.
Qed.

Lemma init_exec (s : State) :
  exec init s = on_bind (set_zoom (Some (init_vars (world s) (bind s)))) s.
Proof. reflexivity. Qed.

Lemma init_vars_set_zoom (w : World) (b : Binding) (z : option ZoomVars) :
  init_vars w (set_zoom z b) = init_vars w b.
Proof. reflexivity. Qed.

End Init.

(** C2. A call of [init] never throws, leaves the page as it is and
    replaces the snapshot: [xRatio] is (overlay width - target width) /
    source width and [yRatio] likewise, the source size being the target's
    when source and target are the same element and the source's own layout
    size otherwise, and the offset is [getOffset(source)].  A second call
    changes nothing, and any later call on a page with the same layout
    gives the same snapshot. *)
Theorem init_recomputes_ratios (s : State) :
  let w := world s in
  let b := bind s in
  let s' := exec init s in
  let tw := offsetWidth (layout (elements w (target b))) in
  let th := offsetHeight (layout (elements w (target b))) in
  let sw := if Nat.eqb (source b) (target b) then tw
            else offsetWidth (layout (elements w (source b))) in
  let sh := if Nat.eqb (source b) (target b) then th
            else offsetHeight (layout (elements w (source b))) in
  threw init s = false
  /\ world s' = w
  /\ zoom (bind s')
     = Some (mkZoomVars
               (Some (Fin (ofN th))) (Some (Fin (ofN tw)))
               (Some (Fin (ofN sh))) (Some (Fin (ofN sw)))
               (Some (div (Fin (ofN (img_width (layout (elements w (img b)))) - ofN tw))
                          (Fin (ofN sw))))
               (Some (div (Fin (ofN (img_height (layout (elements w (img b)))) - ofN th))
                          (Fin (ofN sh))))
               (Some (getOffset w (source b))))
  /\ exec init s' = s'
  /\ (forall s2, same_layout (world s2) w -> same_elements (bind s2) b ->
        zoom (bind (exec init s2)) = zoom (bind s')).
Proof.
  intros w b s' tw th sw sh.
  split; [reflexivity|]. split; [reflexivity|]. split.
  - unfold s'. rewrite init_exec. cbn [bind on_bind set_zoom zoom].
    unfold init_vars. fold w b tw th.
    unfold sw, sh.
    destruct (Nat.eqb (source b) (target b)); reflexivity.
  - split.
    + unfold s'. rewrite !init_exec. reflexivity.
    + intros s2 Hl He. unfold s'. rewrite !init_exec.
      cbn [bind on_bind set_zoom zoom]. f_equal.
      apply init_vars_same_layout; assumption.
Qed.

Ltac qc_compute := apply Qc_is_canon; vm_compute; reflexivity.

Lemma Fin_inj (a b : Qc) : Fin a = Fin b -> a = b.
Proof.
  intros H.
  exact (f_equal (fun n => match n with Fin q => q | _ => a end) H).
Qed.

(** C3. With a source of 100 by 100 at page offset (10, 10), a target of
    100 by 100 and an overlay of 400 by 400, [init] stores the ratios 3 and
    3, and [move] at page (60, 60) then takes the local position (50, 50)
    and writes left = -150px and top = -150px. *)
Theorem scenario_ratio_3_offset_150 (s : State) :
  let w := world s in
  let b := bind s in
  offsetWidth (layout (elements w (source b))) = 100%N ->
  offsetHeight (layout (elements w (source b))) = 100%N ->
  offsetWidth (layout (elements w (target b))) = 100%N ->
  offsetHeight (layout (elements w (target b))) = 100%N ->
  img_width (layout (elements w (img b))) = 400%N ->
  img_height (layout (elements w (img b))) = 400%N ->
  getOffset w (source b) = mkOffset (Fin (ofZ 10)) (Fin (ofZ 10)) ->
  let s1 := exec init s in
  let s2 := exec (move (Some (mkPoint (ofZ 60) (ofZ 60)))) s1 in
  (exists z, zoom (bind s1) = Some z
             /\ xRatio z = Some (Fin (ofZ 3))
             /\ yRatio z = Some (Fin (ofZ 3))
             /\ offset z = Some (mkOffset (Fin (ofZ 10)) (Fin (ofZ 10)))
             /\ sourceWidth z = Some (Fin (ofZ 100))
             /\ sourceHeight z = Some (Fin (ofZ 100)))
  /\ clamp (ofZ 60 - page_left w (source b)) zero (ofN (source_width w b)) = ofZ 50
  /\ clamp (ofZ 60 - page_top w (source b)) zero (ofN (source_height w b)) = ofZ 50
  /\ threw (move (Some (mkPoint (ofZ 60) (ofZ 60)))) s1 = false
  /\ style_of s2 (img b) left = Px (Fin (ofZ (-150)))
  /\ style_of s2 (img b) top = Px (Fin (ofZ (-150))).
Proof.
  intros w b Hsw Hsh Htw Hth Hiw Hih Hoff s1 s2.
  assert (Hw : source_width w b = 100%N).
  { unfold source_width. destruct (Nat.eqb (source b) (target b)); assumption. }
  assert (Hh : source_height w b = 100%N).
  { unfold source_height. destruct (Nat.eqb (source b) (target b)); assumption. }
  rewrite getOffset_finite in Hoff.
  pose proof (Fin_inj (f_equal off_top Hoff)) as Htop.
  pose proof (Fin_inj (f_equal off_left Hoff)) as Hleft.
  cbn [off_top off_left] in Htop, Hleft.
  assert (Hz : zoom (bind s1) = Some (init_vars w b)) by reflexivity.
  assert (Hxr : xRatio (init_vars w b) = Some (Fin (ofZ 3))).
  { rewrite init_vars_xRatio. fold w b. rewrite Hiw, Htw, Hw.
    unfold ratio, div. destruct (Qc_eq_dec (ofN 100) zero) as [E|_].
    - exfalso. apply ofN_zero_iff in E. discriminate E.
    - apply f_equal, f_equal. qc_compute. }
  assert (Hyr : yRatio (init_vars w b) = Some (Fin (ofZ 3))).
  { rewrite init_vars_yRatio. fold w b. rewrite Hih, Hth, Hh.
    unfold ratio, div. destruct (Qc_eq_dec (ofN 100) zero) as [E|_].
    - exfalso. apply ofN_zero_iff in E. discriminate E.
    - apply f_equal, f_equal. qc_compute. }
  assert (Hcx : clamp (ofZ 60 - page_left w (source b)) zero
                      (ofN (source_width w b)) = ofZ 50).
  { rewrite Hleft, Hw. qc_compute. }
  assert (Hcy : clamp (ofZ 60 - page_top w (source b)) zero
                      (ofN (source_height w b)) = ofZ 50).
  { rewrite Htop, Hh. qc_compute. }
  pose proof (@move_writes w b s1 (mkPoint (ofZ 60) (ofZ 60)) Hz)
    as (Hthrew & Hl & Ht).
  cbn [pageX pageY] in Hl, Ht.
  change (img (bind s1)) with (img b) in Hl, Ht.
  rewrite Hcx, Hxr in Hl. rewrite Hcy, Hyr in Ht.
  split.
  - exists (init_vars w b).
    split; [exact Hz|]. split; [exact Hxr|]. split; [exact Hyr|].
    split; [|split].
    + rewrite init_vars_offset. fold w b. rewrite Htop, Hleft. reflexivity.
    + rewrite init_vars_sourceWidth. fold w b. rewrite Hw. reflexivity.
    + rewrite init_vars_sourceHeight. fold w b. rewrite Hh. reflexivity.
  - split; [exact Hcx|]. split; [exact Hcy|]. split; [exact Hthrew|].
    split.
    + unfold s2. rewrite Hl. cbn [to_num neg mul]. apply f_equal, f_equal. qc_compute.
    + unfold s2. rewrite Ht. cbn [to_num neg mul]. apply f_equal, f_equal. qc_compute.
Qed.
(** C10. [init] divides by the source's width and height as they are.  The
    ratio it stores is a finite number exactly when that size is strictly
    positive; with a source of width (height) zero the left (top) that
    [move] writes is NaN.  When both sizes are strictly positive, every
    variable of the snapshot is finite, neither [init] nor [move] throws,
    and the offsets written are finite numbers. *)
Theorem finite_offsets_iff_positive_source (s : State) (p : Point) :
  let w := world s in
  let b := bind s in
  let z := init_vars w b in
  let s1 := exec init s in
  let s2 := exec (move (Some p)) s1 in
  let cx := clamp (pageX p - page_left w (source b)) zero (ofN (source_width w b)) in
  let cy := clamp (pageY p - page_top w (source b)) zero (ofN (source_height w b)) in
  zoom (bind s1) = Some z
  /\ (isFinite (to_num (xRatio z)) = true <-> (0 < source_width w b)%N)
  /\ (isFinite (to_num (yRatio z)) = true <-> (0 < source_height w b)%N)
  /\ (source_width w b = 0%N -> style_of s2 (img b) left = Px NaN)
  /\ (source_height w b = 0%N -> style_of s2 (img b) top = Px NaN)
  /\ ((0 < source_width w b)%N -> (0 < source_height w b)%N ->
      threw init s = false
      /\ threw (move (Some p)) s1 = false
      /\ (exists tw th sw sh rx ry ot ol,
            z = mkZoomVars (Some (Fin th)) (Some (Fin tw)) (Some (Fin sh))
                  (Some (Fin sw)) (Some (Fin rx)) (Some (Fin ry))
                  (Some (mkOffset (Fin ot) (Fin ol)))
            /\ sw <> zero /\ sh <> zero
            /\ rx = ((ofN (img_width (layout (elements w (img b)))) - tw) / sw)%Qc
            /\ ry = ((ofN (img_height (layout (elements w (img b)))) - th) / sh)%Qc
            /\ style_of s2 (img b) left = Px (Fin (- (cx * rx)))
            /\ style_of s2 (img b) top = Px (Fin (- (cy * ry))))).
Proof.
  intros w b z s1 s2 cx cy.
  assert (Hz : zoom (bind s1) = Some z) by reflexivity.
  pose proof (@move_writes w b s1 p Hz) as (Hthrew & Hl & Ht).
  change (img (bind s1)) with (img b) in Hl, Ht.
  fold z s2 cx cy in Hl, Ht.
  split; [exact Hz|].
  split; [unfold z; rewrite init_vars_xRatio; apply ratio_finite_iff|].
  split; [unfold z; rewrite init_vars_yRatio; apply ratio_finite_iff|].
  split; [|split].
  - intros H0. rewrite Hl. unfold cx, z. rewrite init_vars_xRatio.
    fold w b. rewrite H0. cbn [to_num]. rewrite ratio_zero_source. reflexivity.
  - intros H0. rewrite Ht. unfold cy, z. rewrite init_vars_yRatio.
    fold w b. rewrite H0. cbn [to_num]. rewrite ratio_zero_source. reflexivity.
  - intros Hw Hh.
    split; [reflexivity|]. split; [exact Hthrew|].
    pose proof (init_vars_xRatio w b) as Hx. rewrite (ratio_positive _ _ Hw) in Hx.
    pose proof (init_vars_yRatio w b) as Hy. rewrite (ratio_positive _ _ Hh) in Hy.
    exists (ofN (offsetWidth (layout (elements w (target b))))),
           (ofN (offsetHeight (layout (elements w (target b))))),
           (ofN (source_width w b)), (ofN (source_height w b)).
    eexists. eexists.
    exists (page_top w (source b)), (page_left w (source b)).
    split.
    + unfold z, init_vars at 1. fold w b.
      rewrite <- Hx, <- Hy.
      unfold init_vars, source_width, source_height. fold w b.
      destruct (Nat.eqb (source b) (target b)); reflexivity.
    + split; [intros E; apply ofN_zero_iff in E; lia|].
      split; [intros E; apply ofN_zero_iff in E; lia|].
      split; [reflexivity|]. split; [reflexivity|].
      split.
      * rewrite Hl. unfold z. rewrite Hx. cbn [to_num].
        rewrite mul_neg_finite. reflexivity.
      * rewrite Ht. unfold z. rewrite Hy. cbn [to_num].
        rewrite mul_neg_finite. reflexivity.
Qed.

(** ** What [set_style] and [move] leave alone *)

Section Frames.

Lemma set_style_same_layout (s : State) (e : elem) (p : prop) (v : sval) :
  same_layout (world (exec (set_style e p v) s)) (world s).
Proof.
  split; [|repeat split].
  intros x. unfold exec, set_style, modify, on_world, set_elements, upd.
  cbn. destruct (Nat.eqb x e); reflexivity.
Qed.

Lemma same_layout_trans (w1 w2 w3 : World) :
  same_layout w1 w2 -> same_layout w2 w3 -> same_layout w1 w3.
Proof.
  intros (A & B & C & D & E) (A' & B' & C' & D' & E').
  split; [intros x; rewrite A; apply A'|].
  repeat split; congruence.
Qed.

Lemma same_layout_refl (w : World) : same_layout w w.
Proof. repeat split. Qed.

(** [move] either throws before writing or writes the two offsets. *)
Lemma move_cases (t : option Point) (s : State) :
  move t s = (s, Throw (TypeError "Cannot read properties of undefined (reading 'pageX')"))
  \/ move t s = (s, Throw (TypeError "zoom is undefined"))
  \/ move t s = (s, Throw (TypeError "Cannot read properties of undefined (reading 'left')"))
  \/ exists vl vt,
       move t s = (exec (set_style (img (bind s)) top vt)
                     (exec (set_style (img (bind s)) left vl) s), Ok tt).
Proof.
  unfold move, bindM, get.
  destruct t as [t|]; [|left; reflexivity].
  destruct (zoom (bind s)) as [z|]; [|right; left; reflexivity].
  destruct (offset z) as [off|]; [|right; right; left; reflexivity].
  right; right; right. eexists. eexists. reflexivity.
Qed.

Lemma move_same_layout (t : option Point) (s : State) :
  same_layout (world (exec (move t) s)) (world s).
Proof.
  unfold exec.
  destruct (move_cases t s) as [H|[H|[H|(vl & vt & H)]]]; rewrite H; cbn [fst];
    try apply same_layout_refl.
  eapply same_layout_trans; apply set_style_same_layout.
Qed.

Lemma move_bind (t : option Point) (s : State) :
  bind (exec (move t) s) = bind s.
Proof.
  unfold exec.
  destruct (move_cases t s) as [H|[H|[H|(vl & vt & H)]]]; rewrite H; reflexivity.
Qed.

End Frames.

(** ** The geometry theorems at the sample page *)

Lemma move_sets_clamped_offsets_witness :
  let s := loaded (with_url "large.jpg" no_options) in
  zoom (bind (exec init s)) = Some (init_vars (world s) (bind s))
  /\ style_of (exec (move (Some at_60_60)) (exec init s)) (img (bind s)) left
     = Px (mul (neg (Fin (clamp (pageX at_60_60 - page_left (world s) (source (bind s)))
                                zero (ofN (source_width (world s) (bind s))))))
               (to_num (xRatio (init_vars (world s) (bind s))))).
Proof.
  intros s. clearbody s.
  assert (Hz : zoom (bind (exec init s)) = Some (init_vars (world s) (bind s)))
    by reflexivity.
  split; [exact Hz|].
  destruct (@move_sets_clamped_offsets (exec init s) (world s) (bind s) at_60_60 Hz)
    as (_ & Hl & _).
  exact Hl.
Defined.

(** C1 as the claim states it fails on a source of size zero: [init]
    stores an infinite ratio, and the left and top [move] writes are NaN,
    which is within no range. *)
Lemma move_on_zero_size_source_writes_NaN :
  let s := relayout 1%nat (mkLayout 0 0 0 0 (ofZ 10) (ofZ 10))
             (loaded (with_url "large.jpg" no_options)) in
  let s1 := exec init s in
  let s2 := exec (move (Some at_60_60)) s1 in
  zoom (bind s1) = Some (init_vars (world s) (bind s))
  /\ source_width (world s) (bind s) = 0%N
  /\ xRatio (init_vars (world s) (bind s)) = Some PInf
  /\ yRatio (init_vars (world s) (bind s)) = Some PInf
  /\ threw (move (Some at_60_60)) s1 = false
  /\ style_of s2 (img (bind s)) left = Px NaN
  /\ style_of s2 (img (bind s)) top = Px NaN
  /\ (forall v, style_of s2 (img (bind s)) left <> Px (Fin v))
  /\ (forall v, style_of s2 (img (bind s)) top <> Px (Fin v)).
Proof.
  cbv zeta.
  assert (L : style_of
                (exec (move (Some at_60_60))
                   (exec init
                      (relayout 1%nat (mkLayout 0 0 0 0 (ofZ 10) (ofZ 10))
                         (loaded (with_url "large.jpg" no_options)))))
                (img (bind (relayout 1%nat (mkLayout 0 0 0 0 (ofZ 10) (ofZ 10))
                              (loaded (with_url "large.jpg" no_options))))) left
              = Px NaN) by (vm_compute; reflexivity).
  assert (T : style_of
                (exec (move (Some at_60_60))
                   (exec init
                      (relayout 1%nat (mkLayout 0 0 0 0 (ofZ 10) (ofZ 10))
                         (loaded (with_url "large.jpg" no_options)))))
                (img (bind (relayout 1%nat (mkLayout 0 0 0 0 (ofZ 10) (ofZ 10))
                              (loaded (with_url "large.jpg" no_options))))) top
              = Px NaN) by (vm_compute; reflexivity).
  split; [vm_compute; reflexivity|].
  split; [vm_compute; reflexivity|].
  split; [vm_compute; reflexivity|].
  split; [vm_compute; reflexivity|].
  split; [vm_compute; reflexivity|].
  split; [exact L|]. split; [exact T|].
  split; intros v; [rewrite L | rewrite T]; discriminate.
Qed.

Lemma init_recomputes_ratios_witness :
  let s := loaded (with_url "large.jpg" no_options) in
  let s2 := exec (move (Some at_60_60)) (exec init s) in
  same_layout (world s2) (world s)
  /\ same_elements (bind s2) (bind s)
  /\ zoom (bind (exec init s2)) = zoom (bind (exec init s)).
Proof.
  intros s s2. clearbody s.
  assert (Hl : same_layout (world s2) (world s)).
  { unfold s2. apply (same_layout_trans (move_same_layout _ _)).
    apply same_layout_refl. }
  assert (He : same_elements (bind s2) (bind s)).
  { unfold s2. rewrite move_bind. repeat split. }
  split; [exact Hl|]. split; [exact He|].
  destruct (init_recomputes_ratios s) as (_ & _ & _ & _ & H).
  exact (H s2 Hl He).
Defined.

Lemma scenario_ratio_3_offset_150_witness :
  let s := loaded (with_url "large.jpg" no_options) in
  (offsetWidth (layout (elements (world s) (source (bind s)))) = 100%N
   /\ offsetHeight (layout (elements (world s) (source (bind s)))) = 100%N
   /\ offsetWidth (layout (elements (world s) (target (bind s)))) = 100%N
   /\ offsetHeight (layout (elements (world s) (target (bind s)))) = 100%N
   /\ img_width (layout (elements (world s) (img (bind s)))) = 400%N
   /\ img_height (layout (elements (world s) (img (bind s)))) = 400%N
   /\ getOffset (world s) (source (bind s)) = mkOffset (Fin (ofZ 10)) (Fin (ofZ 10)))
  /\ style_of (exec (move (Some at_60_60)) (exec init s)) (img (bind s)) left
     = Px (Fin (ofZ (-150)))
  /\ style_of (exec (move (Some at_60_60)) (exec init s)) (img (bind s)) top
     = Px (Fin (ofZ (-150))).
Proof.
  intros s.
  assert (H : offsetWidth (layout (elements (world s) (source (bind s)))) = 100%N
              /\ offsetHeight (layout (elements (world s) (source (bind s)))) = 100%N
              /\ offsetWidth (layout (elements (world s) (target (bind s)))) = 100%N
              /\ offsetHeight (layout (elements (world s) (target (bind s)))) = 100%N
              /\ img_width (layout (elements (world s) (img (bind s)))) = 400%N
              /\ img_height (layout (elements (world s) (img (bind s)))) = 400%N
              /\ getOffset (world s) (source (bind s))
                 = mkOffset (Fin (ofZ 10)) (Fin (ofZ 10))).
  { repeat split; vm_compute; reflexivity. }
  clearbody s.
  split; [exact H|].
  destruct H as (H1 & H2 & H3 & H4 & H5 & H6 & H7).
  destruct (scenario_ratio_3_offset_150 s H1 H2 H3 H4 H5 H6 H7)
    as (_ & _ & _ & _ & Hl & Ht).
  split; [exact Hl | exact Ht].
Defined.

Lemma finite_offsets_iff_positive_source_witness :
  let s := loaded (with_url "large.jpg" no_options) in
  ((0 < source_width (world s) (bind s))%N
   /\ (0 < source_height (world s) (bind s))%N)
  /\ threw (move (Some at_60_60)) (exec init s) = false.
Proof.
  intros s.
  assert (H : (0 < source_width (world s) (bind s))%N
              /\ (0 < source_height (world s) (bind s))%N).
  { split; vm_compute; reflexivity. }
  clearbody s.
  split; [exact H|]. destruct H as [Hw Hh].
  destruct (finite_offsets_iff_positive_source s at_60_60)
    as (_ & _ & _ & _ & _ & Hpos).
  destruct (Hpos Hw Hh) as (_ & Hm & _). exact Hm.
Defined.

(** ** The transition helper *)

Section Fade.

Lemma hidden_hides (s : State) (e : elem) :
  hidden s e = hides (style_of s e display) (sheet_display (elements (world s) e)).
Proof.
  unfold hidden, hides, computed, style_string, style_of.
  destruct (style (elements (world s) e) display) as [[|c r]| |]; reflexivity.
Qed.

Lemma style_of_set_style (s : State) (e x : elem) (p q : prop) (v : sval) :
  style_of (exec (set_style e p v) s) x q
  = if Nat.eqb x e && (if prop_eq_dec q p then true else false) then v
    else style_of s x q.
Proof.
  unfold style_of, exec, set_style, modify, on_world, set_elements, upd,
    with_style, style_set.
  cbn. destruct (Nat.eqb x e); cbn; [|reflexivity].
  destruct (prop_eq_dec q p); reflexivity.
Qed.

Lemma sheet_set_style (s : State) (e x : elem) (p : prop) (v : sval) :
  sheet_display (elements (world (exec (set_style e p v) s)) x)
  = sheet_display (elements (world s) x).
Proof.
  unfold exec, set_style, modify, on_world, set_elements, upd. cbn.
  destruct (Nat.eqb x e); reflexivity.
Qed.

(** [fadeTo] with a duration [element.animate] refuses: the display has
    been reset by then, and nothing else happens. *)
Lemma fadeTo_invalid (s : State) (e : elem) (d op : num) (c : option cb) :
  valid_duration d = false ->
  fadeTo e d op c s
  = ((if hidden s e then exec (set_style e display (Str "")) s else s),
     Throw animate_error).
Proof.
  intros Hv. unfold fadeTo, bindM, get, when. fold (hidden s e). rewrite Hv.
  destruct (hidden s e); reflexivity.
Qed.

Lemma fadeTo_threw (s : State) (e : elem) (d op : num) (c : option cb) :
  threw (fadeTo e d op c) s = negb (valid_duration d).
Proof.
  unfold threw, fadeTo, bindM, get, when.
  destruct (String.eqb (computed (elements (world s) e) display) "none");
    destruct (valid_duration d); reflexivity.
Qed.

(** What one call of [fadeTo] does with a duration [element.animate]
    takes. *)
Lemma fadeTo_obs (s : State) (e : elem) (d op : num) (c : option cb) :
  valid_duration d = true ->
  let s1 := exec (fadeTo e d op c) s in
  threw (fadeTo e d op c) s = false
  /\ animations (world s1) = animations (world s) ++ [fade_animation e d op c]
  /\ calls (world s1) = calls (world s)
  /\ bind s1 = bind s
  /\ (forall x p, style_of s1 x p
                  = if Nat.eqb x e && is_display p && hidden s e then Str ""
                    else style_of s x p)
  /\ (forall x, sheet_display (elements (world s1) x)
                = sheet_display (elements (world s) x)).
Proof.
  intros Hv.
  unfold threw, exec, fadeTo, bindM, get, when. fold (hidden s e). rewrite Hv.
  destruct (hidden s e) eqn:Hh; cbn.
  - repeat split; try reflexivity.
    + intros x p.
      change (style_of (exec (set_style e display (Str "")) s) x p
              = if Nat.eqb x e && is_display p && true then Str "" else style_of s x p).
      rewrite style_of_set_style. unfold is_display.
      rewrite andb_true_r. reflexivity.
    + intros x. apply (sheet_set_style s e x display (Str "")).
  - repeat split; try reflexivity.
    intros x p. rewrite andb_false_r. reflexivity.
Qed.

Lemma run_cb_obs (c : cb) (s : State) :
  let s1 := exec (run_cb c) s in
  threw (run_cb c) s = false
  /\ animations (world s1) = animations (world s)
  /\ calls (world s1) = calls (world s) ++ cb_calls (Some c) (bind s)
  /\ bind s1 = bind s
  /\ elements (world s1) = elements (world s).
Proof.
  unfold threw, exec, run_cb, cb_calls.
  destruct c as [| |k]; cbn;
    try destruct (onZoomIn (settings (bind s)));
    try destruct (onZoomOut (settings (bind s)));
    cbn; rewrite ?app_nil_r; repeat split.
Qed.

Lemma onfinish_eq (a : Animation) (s : State) :
  onfinish a s
  = match a_callback a with
    | Some c => run_cb c
    | None => ret tt
    end (if num_eqb (a_opacity a) (Fin zero)
         then exec (set_style (a_elem a) display (Str "none")) s else s).
Proof.
  unfold onfinish, bindM, when.
  destruct (num_eqb (a_opacity a) (Fin zero)); reflexivity.
Qed.

Lemma finish_eq (s : State) (i : nat) (a : Animation) :
  nth_error (animations (world s)) i = Some a ->
  a_finished a = false ->
  finish i s
  = onfinish a (on_world (fun w => set_animations (mark_nth i (animations w)) w) s).
Proof.
  intros Hn Hf. unfold finish, bindM, get. rewrite Hn, Hf. reflexivity.
Qed.

(** What the finish of a running animation does. *)
Lemma finish_obs (s : State) (i : nat) (a : Animation) :
  nth_error (animations (world s)) i = Some a ->
  a_finished a = false ->
  let s1 := exec (finish i) s in
  threw (finish i) s = false
  /\ animations (world s1) = mark_nth i (animations (world s))
  /\ calls (world s1) = calls (world s) ++ cb_calls (a_callback a) (bind s)
  /\ bind s1 = bind s
  /\ (forall x p, style_of s1 x p
                  = if Nat.eqb x (a_elem a) && is_display p
                       && num_eqb (a_opacity a) (Fin zero)
                    then Str "none" else style_of s x p)
  /\ (forall x, sheet_display (elements (world s1) x)
                = sheet_display (elements (world s) x)).
Proof.
  intros Hn Hf. unfold threw, exec. rewrite (finish_eq s i Hn Hf), onfinish_eq.
  set (s0 := on_world (fun w => set_animations (mark_nth i (animations w)) w) s).
  set (s1 := if num_eqb (a_opacity a) (Fin zero)
             then exec (set_style (a_elem a) display (Str "none")) s0 else s0).
  assert (Hst : forall x p, style_of s1 x p
                  = if Nat.eqb x (a_elem a) && is_display p
                       && num_eqb (a_opacity a) (Fin zero)
                    then Str "none" else style_of s x p).
  { intros x p. unfold s1.
    destruct (num_eqb (a_opacity a) (Fin zero)).
    - rewrite style_of_set_style. unfold is_display.
      rewrite andb_true_r. reflexivity.
    - rewrite andb_false_r. reflexivity. }
  assert (Hsh : forall x, sheet_display (elements (world s1) x)
                          = sheet_display (elements (world s) x)).
  { intros x. unfold s1.
    destruct (num_eqb (a_opacity a) (Fin zero)); [|reflexivity].
    apply (sheet_set_style s0). }
  assert (Han : animations (world s1) = mark_nth i (animations (world s))).
  { unfold s1. destruct (num_eqb (a_opacity a) (Fin zero)); reflexivity. }
  assert (Hca : calls (world s1) = calls (world s)).
  { unfold s1. destruct (num_eqb (a_opacity a) (Fin zero)); reflexivity. }
  assert (Hbi : bind s1 = bind s).
  { unfold s1. destruct (num_eqb (a_opacity a) (Fin zero)); reflexivity. }
  clearbody s1.
  destruct (a_callback a) as [c|].
  - destruct (run_cb_obs c s1) as (T & A & C & B & E).
    unfold threw in T. unfold exec in A, C, B, E.
    split; [exact T|]. split; [rewrite A; exact Han|].
    split; [rewrite C, Hca, Hbi; reflexivity|]. split; [rewrite B; exact Hbi|].
    split.
    + intros x p. unfold style_of. rewrite E. apply Hst.
    + intros x. rewrite E. apply Hsh.
  - cbn. rewrite app_nil_r.
    split; [reflexivity|]. split; [exact Han|]. split; [exact Hca|].
    split; [exact Hbi|]. split; [exact Hst | exact Hsh].
Qed.

End Fade.

Section FadeRuns.

Lemma exec_seq (c k : M unit) (s : State) :
  threw c s = false ->
  exec (c ;; k) s = exec k (exec c s)
  /\ threw (c ;; k) s = threw k (exec c s).
Proof.
  unfold threw, exec, bindM. destruct (c s) as [s' [a|x]]; cbn.
  - intros _. split; reflexivity.
  - discriminate.
Qed.

Lemma nth_error_middle (A : Type) (l r : list A) (a : A) :
  nth_error (l ++ a :: r) (List.length l) = Some a.
Proof. induction l as [|x l IH]; [reflexivity | exact IH]. Qed.

Lemma mark_nth_middle (l r : list Animation) (a : Animation) :
  mark_nth (List.length l) (l ++ a :: r) = l ++ mark_finished a :: r.
Proof.
  induction l as [|x l IH]; [reflexivity|].
  cbn [List.length app mark_nth]. rewrite IH. reflexivity.
Qed.

Lemma animated_opacity_last (w : World) (l : list Animation) (a : Animation) :
  animations w = l ++ [a] ->
  animated_opacity w (a_elem a) = Some (a_opacity a).
Proof.
  intros H. unfold animated_opacity. rewrite H, filter_app. cbn [filter].
  rewrite Nat.eqb_refl.
  destruct (filter (fun a0 => Nat.eqb (a_elem a0) (a_elem a)) l ++ [a]) eqn:E.
  - destruct (filter (fun a0 => Nat.eqb (a_elem a0) (a_elem a)) l); discriminate E.
  - rewrite <- E. rewrite last_last. reflexivity.
Qed.

Lemma num_eqb_zero (op : num) : num_eqb op (Fin zero) = true <-> op = Fin zero.
Proof.
  destruct op as [q| | |]; cbn; try (split; discriminate).
  destruct (Qc_eq_dec q zero) as [E|E].
  - subst q. split; reflexivity.
  - split; [discriminate|]. intros H. exfalso. apply E. apply Fin_inj, H.
Qed.

Lemma one_is_not_zero : num_eqb (Fin (ofZ 1)) (Fin zero) = false.
Proof. vm_compute. reflexivity. Qed.

Lemma zero_is_zero : num_eqb (Fin zero) (Fin zero) = true.
Proof. vm_compute. reflexivity. Qed.

(** One fade followed by its completion. *)
Lemma fade_and_finish (s : State) (e : elem) (d op : num) (c : option cb) :
  valid_duration d = true ->
  let s1 := exec (fadeTo e d op c) s in
  let s2 := exec (finish (started s)) s1 in
  threw (finish (started s)) s1 = false
  /\ animations (world s2)
     = animations (world s) ++ [mark_finished (fade_animation e d op c)]
  /\ calls (world s2) = calls (world s) ++ cb_calls c (bind s)
  /\ bind s2 = bind s
  /\ (forall x p, style_of s2 x p
                  = if Nat.eqb x e && is_display p && num_eqb op (Fin zero)
                    then Str "none" else style_of s1 x p)
  /\ (forall x, sheet_display (elements (world s2) x)
                = sheet_display (elements (world s) x)).
Proof.
  intros Hv s1 s2.
  destruct (@fadeTo_obs s e d op c Hv) as (_ & A1 & C1 & B1 & S1 & H1).
  fold s1 in A1, C1, B1, S1, H1.
  assert (Hn : nth_error (animations (world s1)) (started s)
               = Some (fade_animation e d op c)).
  { rewrite A1. apply nth_error_middle. }
  destruct (finish_obs s1 (started s) Hn eq_refl) as (T2 & A2 & C2 & B2 & S2 & H2).
  fold s2 in A2, C2, B2, S2, H2.
  split; [exact T2|].
  split; [rewrite A2, A1; apply mark_nth_middle|].
  split; [rewrite C2, C1, B1; reflexivity|].
  split; [rewrite B2; exact B1|].
  split; [exact S2|].
  intros x. rewrite H2. apply H1.
Qed.

End FadeRuns.

Section TwoFades.

Variables (s : State) (e : elem) (d o1 o2 : num) (c1 c2 : option cb).

Hypothesis valid : valid_duration d = true.

Let m1 := mark_finished (fade_animation e d o1 c1).
Let m2 := mark_finished (fade_animation e d o2 c2).

(** Two fades in turn. *)
Lemma two_fades_in_turn :
  let sA := exec (finish (started s)) (exec (fadeTo e d o1 c1) s) in
  let sB := exec (fadeTo e d o2 c2) sA in
  let sC := exec (fades_in_turn e d o1 o2 c1 c2) s in
  threw (fades_in_turn e d o1 o2 c1 c2) s = false
  /\ sC = exec (finish (S (started s))) sB
  /\ animations (world sC) = (animations (world s) ++ [m1]) ++ [m2]
  /\ calls (world sC)
     = (calls (world s) ++ cb_calls c1 (bind s)) ++ cb_calls c2 (bind s)
  /\ style_of sC e display
     = (if num_eqb o2 (Fin zero) then Str "none" else style_of sB e display)
  /\ sheet_display (elements (world sC) e) = sheet_display (elements (world s) e).
Proof.
  intros sA sB sC.
  destruct (@fadeTo_obs s e d o1 c1 valid) as (T1 & _).
  destruct (@fade_and_finish s e d o1 c1 valid) as (T2 & A2 & C2 & B2 & S2 & H2).
  fold sA in T2, A2, C2, B2, S2, H2.
  assert (Hst : started sA = S (started s)).
  { unfold started. rewrite A2, length_app. cbn. lia. }
  destruct (@fadeTo_obs sA e d o2 c2 valid) as (T3 & _).
  destruct (@fade_and_finish sA e d o2 c2 valid) as (T4 & A4 & C4 & B4 & S4 & H4).
  fold sB in T4, A4, C4, B4, S4, H4. rewrite Hst in T4, A4, C4, B4, S4, H4.
  assert (Hrun : sC = exec (finish (S (started s))) sB
                 /\ threw (fades_in_turn e d o1 o2 c1 c2) s = false).
  { unfold sC, fades_in_turn.
    change (exec (s0 <- get ;; _) s)
      with (exec (fadeTo e d o1 c1 ;; finish (started s) ;;
                  fadeTo e d o2 c2 ;; finish (S (started s))) s).
    change (threw (s0 <- get ;; _) s)
      with (threw (fadeTo e d o1 c1 ;; finish (started s) ;;
                   fadeTo e d o2 c2 ;; finish (S (started s))) s).
    destruct (exec_seq (fadeTo e d o1 c1)
                (finish (started s) ;; fadeTo e d o2 c2 ;; finish (S (started s)))
                s T1) as [E1 R1].
    rewrite E1, R1.
    destruct (exec_seq (finish (started s))
                (fadeTo e d o2 c2 ;; finish (S (started s)))
                (exec (fadeTo e d o1 c1) s) T2) as [E2 R2].
    rewrite E2, R2. fold sA.
    destruct (exec_seq (fadeTo e d o2 c2) (finish (S (started s))) sA T3)
      as [E3 R3].
    rewrite E3, R3. fold sB. split; [reflexivity | exact T4]. }
  destruct Hrun as [Hrun Hthrew].
  split; [exact Hthrew|]. split; [exact Hrun|].
  rewrite Hrun.
  split; [rewrite A4, A2; reflexivity|].
  split; [rewrite C4, C2, B2; reflexivity|].
  split.
  - rewrite S4, Nat.eqb_refl. reflexivity.
  - rewrite H4. apply H2.
Qed.

(** Two fades, the second started while the first runs. *)
Lemma two_fades_overlapping :
  let s1 := exec (fadeTo e d o1 c1) s in
  let s2 := exec (fadeTo e d o2 c2) s1 in
  let s3 := exec (finish (started s)) s2 in
  let sC := exec (fades_overlapping e d o1 o2 c1 c2) s in
  threw (fades_overlapping e d o1 o2 c1 c2) s = false
  /\ sC = exec (finish (S (started s))) s3
  /\ animations (world sC) = (animations (world s) ++ [m1]) ++ [m2]
  /\ style_of sC e display
     = (if num_eqb o2 (Fin zero) then Str "none"
        else if num_eqb o1 (Fin zero) then Str "none"
        else style_of s2 e display)
  /\ sheet_display (elements (world sC) e) = sheet_display (elements (world s) e).
Proof.
  intros s1 s2 s3 sC.
  destruct (@fadeTo_obs s e d o1 c1 valid) as (T1 & A1 & C1 & B1 & S1 & H1).
  fold s1 in A1, C1, B1, S1, H1.
  destruct (@fadeTo_obs s1 e d o2 c2 valid) as (T2 & A2 & C2 & B2 & S2 & H2).
  fold s2 in A2, C2, B2, S2, H2.
  assert (Hn1 : nth_error (animations (world s2)) (started s)
                = Some (fade_animation e d o1 c1)).
  { rewrite A2, A1, <- app_assoc. apply nth_error_middle. }
  destruct (finish_obs s2 (started s) Hn1 eq_refl) as (T3 & A3 & C3 & B3 & S3 & H3).
  fold s3 in A3, C3, B3, S3, H3.
  assert (A3' : animations (world s3)
                = (animations (world s) ++ [m1]) ++ [fade_animation e d o2 c2]).
  { rewrite A3, A2, A1, <- !app_assoc. apply mark_nth_middle. }
  assert (Hn2 : nth_error (animations (world s3)) (S (started s))
                = Some (fade_animation e d o2 c2)).
  { rewrite A3'. replace (S (started s))
      with (List.length (animations (world s) ++ [m1])).
    - apply nth_error_middle.
    - rewrite length_app. unfold started. cbn. lia. }
  destruct (finish_obs s3 (S (started s)) Hn2 eq_refl)
    as (T4 & A4 & C4 & B4 & S4 & H4).
  assert (Hrun : sC = exec (finish (S (started s))) s3
                 /\ threw (fades_overlapping e d o1 o2 c1 c2) s = false).
  { unfold sC, fades_overlapping.
    change (exec (s0 <- get ;; _) s)
      with (exec (fadeTo e d o1 c1 ;; fadeTo e d o2 c2 ;;
                  finish (started s) ;; finish (S (started s))) s).
    change (threw (s0 <- get ;; _) s)
      with (threw (fadeTo e d o1 c1 ;; fadeTo e d o2 c2 ;;
                   finish (started s) ;; finish (S (started s))) s).
    destruct (exec_seq (fadeTo e d o1 c1)
                (fadeTo e d o2 c2 ;; finish (started s) ;; finish (S (started s)))
                s T1) as [E1 R1].
    rewrite E1, R1. fold s1.
    destruct (exec_seq (fadeTo e d o2 c2)
                (finish (started s) ;; finish (S (started s))) s1 T2) as [E2 R2].
    rewrite E2, R2. fold s2.
    destruct (exec_seq (finish (started s)) (finish (S (started s))) s2 T3)
      as [E3 R3].
    rewrite E3, R3. fold s3. split; [reflexivity | exact T4]. }
  destruct Hrun as [Hrun Hthrew].
  split; [exact Hthrew|]. split; [exact Hrun|]. rewrite Hrun.
  split.
  - rewrite A4, A3'.
    replace (S (started s)) with (List.length (animations (world s) ++ [m1])).
    + rewrite mark_nth_middle. reflexivity.
    + rewrite length_app. unfold started. cbn. lia.
  - split.
    + rewrite S4. cbn [a_elem a_opacity fade_animation]. rewrite Nat.eqb_refl.
      cbn [andb is_display]. 
      change (is_display display) with true. cbn [andb].
      destruct (num_eqb o2 (Fin zero)); [reflexivity|].
      rewrite S3. cbn [a_elem a_opacity fade_animation]. rewrite Nat.eqb_refl.
      change (is_display display) with true. cbn [andb]. reflexivity.
    + rewrite H4, H3, H2. apply H1.
Qed.

End TwoFades.

Lemma hides_cleared (sheet : string) :
  sheet <> "none" -> hides (Str "") sheet = false.
Proof. intros H. cbn. apply String.eqb_neq. exact H. Qed.

(** X19. [fadeTo] with a duration [element.animate] takes does not throw.
    When the computed display is 'none' it clears the inline display, which
    shows the element unless a style sheet hides it; otherwise it leaves
    the display alone.  It starts one animation of the opacity to the
    requested value, over the given duration, linear, once, filling both
    ways.  When that animation finishes, the inline display is set to
    'none' exactly when the requested opacity is 0, and then the callback,
    if given, is called.  A fade to 1 followed by a fade to 0, both
    finished, leaves the element hidden at opacity 0, whether or not the
    first had finished when the second was asked for.  A fade to 0 that has
    finished, followed by a fade to 1 that finishes, leaves the inline
    display cleared and the opacity at 1.  With any other duration [fadeTo]
    throws after the display was cleared, and starts no animation. *)
Theorem fadeTo_shows_animates_hides
  (s : State) (e : elem) (d : num) (c1 c2 : option cb) :
  (valid_duration d = false -> forall op c,
     let s1 := exec (fadeTo e d op c) s in
     threw (fadeTo e d op c) s = true
     /\ animations (world s1) = animations (world s)
     /\ calls (world s1) = calls (world s)
     /\ (hidden s e = true -> style_of s1 e display = Str "")
     /\ (hidden s e = false -> s1 = s))
  /\ (valid_duration d = true ->
  (forall op c,
     let s1 := exec (fadeTo e d op c) s in
     let s2 := exec (finish (started s)) s1 in
     threw (fadeTo e d op c) s = false
     /\ threw (finish (started s)) s1 = false
     /\ (hidden s e = true -> style_of s1 e display = Str "")
     /\ (hidden s e = true -> sheet_display (elements (world s) e) <> "none" ->
         hidden s1 e = false)
     /\ (hidden s e = false ->
         style_of s1 e display = style_of s e display /\ hidden s1 e = false)
     /\ animations (world s1)
        = animations (world s) ++ [mkAnimation e op d "linear" 1 "both" c false]
     /\ (op = Fin zero -> style_of s2 e display = Str "none" /\ hidden s2 e = true)
     /\ (op <> Fin zero ->
         style_of s2 e display = style_of s1 e display
         /\ hidden s2 e = hidden s1 e)
     /\ calls (world s2) = calls (world s) ++ cb_calls c (bind s))
  /\ (let sC := exec (fades_in_turn e d (Fin (ofZ 1)) (Fin zero) c1 c2) s in
      threw (fades_in_turn e d (Fin (ofZ 1)) (Fin zero) c1 c2) s = false
      /\ all_finished (world sC) = all_finished (world s)
      /\ hidden sC e = true
      /\ style_of sC e display = Str "none"
      /\ animated_opacity (world sC) e = Some (Fin zero))
  /\ (let sC := exec (fades_overlapping e d (Fin (ofZ 1)) (Fin zero) c1 c2) s in
      threw (fades_overlapping e d (Fin (ofZ 1)) (Fin zero) c1 c2) s = false
      /\ all_finished (world sC) = all_finished (world s)
      /\ hidden sC e = true
      /\ style_of sC e display = Str "none"
      /\ animated_opacity (world sC) e = Some (Fin zero))
  /\ (let sC := exec (fades_in_turn e d (Fin zero) (Fin (ofZ 1)) c1 c2) s in
      threw (fades_in_turn e d (Fin zero) (Fin (ofZ 1)) c1 c2) s = false
      /\ all_finished (world sC) = all_finished (world s)
      /\ style_of sC e display = Str ""
      /\ (sheet_display (elements (world s) e) <> "none" -> hidden sC e = false)
      /\ animated_opacity (world sC) e = Some (Fin (ofZ 1)))).
Proof.
  split.
  { intros Hv op c s1. unfold s1, threw, exec.
    rewrite (@fadeTo_invalid s e d op c Hv). cbn [fst snd].
    split; [reflexivity|].
    split; [destruct (hidden s e); reflexivity|].
    split; [destruct (hidden s e); reflexivity|].
    split; intros Hh; rewrite Hh; [apply exec_set_style_same | reflexivity]. }
  intros Hv.
  split; [|split; [|split]].
  - intros op c s1 s2.
    destruct (@fadeTo_obs s e d op c Hv) as (T1 & A1 & C1 & B1 & S1 & H1).
    fold s1 in A1, C1, B1, S1, H1.
    destruct (@fade_and_finish s e d op c Hv) as (T2 & A2 & C2 & B2 & S2 & H2).
    fold s1 s2 in T2, A2, C2, B2, S2, H2.
    assert (D1 : style_of s1 e display
                 = if hidden s e then Str "" else style_of s e display).
    { rewrite S1, Nat.eqb_refl. reflexivity. }
    assert (D2 : style_of s2 e display
                 = if num_eqb op (Fin zero) then Str "none"
                   else style_of s1 e display).
    { rewrite S2, Nat.eqb_refl. reflexivity. }
    split; [exact T1|]. split; [exact T2|].
    split; [intros Hh; rewrite D1, Hh; reflexivity|].
    split.
    { intros Hh Hs. rewrite hidden_hides, D1, Hh, H1. apply hides_cleared, Hs. }
    split.
    { intros Hh. rewrite D1, Hh. split; [reflexivity|].
      rewrite hidden_hides, D1, Hh, H1, <- hidden_hides. exact Hh. }
    split; [exact A1|].
    split.
    { intros Ho. apply num_eqb_zero in Ho. rewrite D2, Ho. split; [reflexivity|].
      rewrite hidden_hides, D2, Ho. reflexivity. }
    split; [|exact C2].
    intros Ho. assert (Hb : num_eqb op (Fin zero) = false).
    { destruct (num_eqb op (Fin zero)) eqn:E; [|reflexivity].
      exfalso. apply Ho. apply num_eqb_zero. exact E. }
    rewrite D2, Hb. split; [reflexivity|].
    rewrite !hidden_hides, D2, Hb, H2, H1. reflexivity.
  - intros sC.
    destruct (@two_fades_in_turn s e d (Fin (ofZ 1)) (Fin zero) c1 c2 Hv)
      as (T & _ & A & _ & S & H).
    fold sC in A, S, H. rewrite zero_is_zero in S.
    split; [exact T|].
    split; [unfold all_finished; rewrite A, !forallb_app; cbn;
            rewrite !andb_true_r; reflexivity|].
    split; [rewrite hidden_hides, S; reflexivity|].
    split; [exact S|].
    apply (animated_opacity_last _ (animations (world s)
             ++ [mark_finished (fade_animation e d (Fin (ofZ 1)) c1)])
             (mark_finished (fade_animation e d (Fin zero) c2))).
    exact A.
  - intros sC.
    destruct (@two_fades_overlapping s e d (Fin (ofZ 1)) (Fin zero) c1 c2 Hv)
      as (T & _ & A & S & H).
    fold sC in A, S, H. rewrite zero_is_zero in S.
    split; [exact T|].
    split; [unfold all_finished; rewrite A, !forallb_app; cbn;
            rewrite !andb_true_r; reflexivity|].
    split; [rewrite hidden_hides, S; reflexivity|].
    split; [exact S|].
    apply (animated_opacity_last _ (animations (world s)
             ++ [mark_finished (fade_animation e d (Fin (ofZ 1)) c1)])
             (mark_finished (fade_animation e d (Fin zero) c2))).
    exact A.
  - intros sC.
    destruct (@two_fades_in_turn s e d (Fin zero) (Fin (ofZ 1)) c1 c2 Hv)
      as (T & _ & A & _ & S & H).
    fold sC in A, S, H. rewrite one_is_not_zero in S.
    set (sA := exec (finish (started s)) (exec (fadeTo e d (Fin zero) c1) s)) in *.
    destruct (@fade_and_finish s e d (Fin zero) c1 Hv) as (_ & _ & _ & _ & SA & HA).
    fold sA in SA, HA.
    assert (DA : style_of sA e display = Str "none").
    { rewrite SA, Nat.eqb_refl, zero_is_zero. reflexivity. }
    assert (Hh : hidden sA e = true) by (rewrite hidden_hides, DA; reflexivity).
    destruct (@fadeTo_obs sA e d (Fin (ofZ 1)) c2 Hv) as (_ & _ & _ & _ & SB & _).
    rewrite SB, Nat.eqb_refl, Hh in S. cbn [andb is_display] in S.
    change (is_display display) with true in S. cbn [andb] in S.
    split; [exact T|].
    split; [unfold all_finished; rewrite A, !forallb_app; cbn;
            rewrite !andb_true_r; reflexivity|].
    split; [exact S|].
    split; [intros Hs; rewrite hidden_hides, S, H; apply hides_cleared, Hs|].
    apply (animated_opacity_last _ (animations (world s)
             ++ [mark_finished (fade_animation e d (Fin zero) c1)])
             (mark_finished (fade_animation e d (Fin (ofZ 1)) c2))).
    exact A.
Qed.

Lemma fadeTo_shows_animates_hides_witness :
  (valid_duration (Fin (ofZ 120)) = true
   /\ sheet_display (elements (world plain_page) 1%nat) <> "none")
  /\ hidden (exec (fades_in_turn 1%nat (Fin (ofZ 120)) (Fin zero) (Fin (ofZ 1))
                     None None) plain_page) 1%nat = false.
Proof.
  assert (H : sheet_display (elements (world plain_page) 1%nat) <> "none")
    by (vm_compute; discriminate).
  assert (Hv : valid_duration (Fin (ofZ 120)) = true) by (vm_compute; reflexivity).
  split; [split; [exact Hv | exact H]|].
  destruct (fadeTo_shows_animates_hides plain_page 1%nat (Fin (ofZ 120)) None None)
    as (_ & Hok).
  destruct (Hok Hv) as (_ & _ & _ & _ & _ & _ & Hvis & _).
  exact (Hvis H).
Defined.

(** C9, the reverse sequence when the two fades overlap: [stop] and then
    [start] within the duration.  A fade to 0 followed, while it runs, by
    a fade to 1: both finish, in the order they were started, and the
    finish of the first sets the inline display to 'none' after the second
    was asked for.  The element ends hidden, whatever the style sheets say
    and whatever its display was, although the opacity the animations give
    it is 1. *)
Theorem fade_out_then_in_overlapping_hides
  (s : State) (e : elem) (d : num) (c1 c2 : option cb) :
  valid_duration d = true ->
  let sC := exec (fades_overlapping e d (Fin zero) (Fin (ofZ 1)) c1 c2) s in
  threw (fades_overlapping e d (Fin zero) (Fin (ofZ 1)) c1 c2) s = false
  /\ all_finished (world sC) = all_finished (world s)
  /\ style_of sC e display = Str "none"
  /\ hidden sC e = true
  /\ animated_opacity (world sC) e = Some (Fin (ofZ 1)).
Proof.
  intros Hv sC.
  destruct (@two_fades_overlapping s e d (Fin zero) (Fin (ofZ 1)) c1 c2 Hv)
    as (T & _ & A & S & H).
  fold sC in A, S, H. rewrite one_is_not_zero, zero_is_zero in S.
  split; [exact T|].
  split; [unfold all_finished; rewrite A, !forallb_app; cbn;
          rewrite !andb_true_r; reflexivity|].
  split; [exact S|].
  split; [rewrite hidden_hides, S; reflexivity|].
  apply (animated_opacity_last _ (animations (world s)
           ++ [mark_finished (fade_animation e d (Fin zero) c1)])
           (mark_finished (fade_animation e d (Fin (ofZ 1)) c2))).
  exact A.
Qed.

Lemma fade_out_then_in_overlapping_hides_witness :
  let sC := exec (fades_overlapping 1%nat (Fin (ofZ 120)) (Fin zero) (Fin (ofZ 1))
                    None None) plain_page in
  (valid_duration (Fin (ofZ 120)) = true
   /\ hidden plain_page 1%nat = false
   /\ sheet_display (elements (world plain_page) 1%nat) = "inline")
  /\ style_of sC 1%nat display = Str "none"
  /\ hidden sC 1%nat = true
  /\ animated_opacity (world sC) 1%nat = Some (Fin (ofZ 1)).
Proof.
  assert (Hv : valid_duration (Fin (ofZ 120)) = true) by (vm_compute; reflexivity).
  assert (Hh : hidden plain_page 1%nat = false) by (vm_compute; reflexivity).
  assert (Hs : sheet_display (elements (world plain_page) 1%nat) = "inline")
    by (vm_compute; reflexivity).
  destruct (@fade_out_then_in_overlapping_hides plain_page 1%nat (Fin (ofZ 120))
              None None Hv) as (_ & _ & S & H & O).
  cbv zeta. split; [split; [exact Hv | split; [exact Hh | exact Hs]]|].
  split; [exact S|]. split; [exact H | exact O].
Defined.

(** ** The binder: resolving the url *)

Section Url.

Lemma find_ext_in (A : Type) (f g : A -> bool) (l : list A) :
  Forall (fun x => f x = g x) l -> find f l = find g l.
Proof.
  induction 1 as [|x l Hx _ IH]; [reflexivity|].
  cbn. rewrite Hx, IH. reflexivity.
Qed.

Lemma overlay_image_frame (w : World) (root : elem) :
  let w1 := snd (overlay_image w root) in
  listeners w1 = listeners w /\ doc w1 = doc w
  /\ animations w1 = animations w /\ calls w1 = calls w
  /\ (forall x, x <> next_elem w -> elements w1 x = elements w x)
  /\ (w1 = w \/ (fst (overlay_image w root) = next_elem w
                 /\ elements w1 (next_elem w) = blank_element "img")).
Proof.
  unfold overlay_image.
  destruct (querySelector w root ZOOM_IMAGE_CLASS) as [e|]; cbn.
  - repeat split. left. reflexivity.
  - repeat split.
    + intros x Hx. apply Nat.eqb_neq in Hx. rewrite Hx. reflexivity.
    + right. rewrite Nat.eqb_refl. split; reflexivity.
Qed.

Lemma querySelector_after_overlay (w : World) (root : elem) (sel : string) :
  fresh_for w root ->
  querySelector (snd (overlay_image w root)) root sel = querySelector w root sel.
Proof.
  intros Hf. destruct (overlay_image_frame w root) as (_ & Hd & _ & _ & He & _).
  unfold querySelector. rewrite Hd. apply find_ext_in.
  unfold fresh_for in Hf. revert Hf. apply Forall_impl.
  intros x Hx. rewrite He; [reflexivity|]. lia.
Qed.

Lemma image_url_precedence (e : Element) :
  (forall a, getAttribute "data-src" (attributes e) = Some a -> a <> "" ->
             image_url e = a)
  /\ (truthy (getAttribute "data-src" (attributes e)) = false ->
      currentSrc e <> "" -> image_url e = currentSrc e)
  /\ (truthy (getAttribute "data-src" (attributes e)) = false ->
      currentSrc e = "" -> image_url e = src e).
Proof.
  unfold image_url, truthy.
  destruct (getAttribute "data-src" (attributes e)) as [a|].
  - split; [|split].
    + intros a' Ha Hne. injection Ha as <-.
      apply String.eqb_neq in Hne. rewrite Hne. reflexivity.
    + intros Ha Hc. apply negb_false_iff in Ha. rewrite Ha. cbn.
      apply String.eqb_neq in Hc. rewrite Hc. reflexivity.
    + intros Ha Hc. apply negb_false_iff in Ha. rewrite Ha, Hc. reflexivity.
  - split; [|split].
    + intros a' Ha. discriminate Ha.
    + intros _ Hc. apply String.eqb_neq in Hc. rewrite Hc. reflexivity.
    + intros _ Hc. rewrite Hc. reflexivity.
Qed.

End Url.

Lemma truthy_some (u : string) : u <> "" -> truthy (Some u) = true.
Proof. intros H. cbn. apply negb_true_iff, String.eqb_neq, H. Qed.

Lemma truthy_false_some (u : string) : truthy (Some u) = false -> u = "".
Proof. cbn. intros H. apply negb_false_iff in H. apply String.eqb_eq, H. Qed.

Lemma registered_after_add (n : node) (t : evtype) (h : handler) (o : bool)
  (s : State) :
  registered n t h (exec (addEventListener n t h o) s) = true.
Proof.
  unfold registered, exec, addEventListener, modify, on_world. cbn [fst world].
  destruct (by_name h && existsb (same_registration n t h) (listeners (world s)))
    eqn:E.
  - apply andb_true_iff in E. apply E.
  - cbn [listeners set_listeners]. rewrite existsb_app. cbn [existsb].
    unfold same_registration at 2. cbn [l_node l_type l_handler].
    assert (Hn : node_eqb n n = true).
    { destruct n; cbn; [apply Nat.eqb_refl | reflexivity]. }
    rewrite Hn. destruct (evtype_eq_dec t t); [|contradiction].
    destruct (handler_eq_dec h h); [|contradiction].
    cbn. rewrite orb_true_r. reflexivity.
Qed.

(** C4. The url of the zoom image is the [url] option when one is given
    (a non-empty string); otherwise that of the first descendant image of
    the source: its [data-src] attribute, else its [currentSrc], else its
    [src].  With a url, the overlay image gets it as [src] and a load
    listener.  Without one ([url] absent or empty, and no descendant image
    or one that gives the empty string), [zoomImage] returns [undefined]
    leaving the listeners, the document tree, the animations and the calls
    as they were and every element that existed as it was: the element made
    for the overlay stays blank, out of the document, with no [src], and no
    zoom object is made. *)
Theorem url_resolution_precedence (src_el : elem) (o : Options) (w : World) :
  fresh_for w src_el ->
  let s := fst (zoomImage src_el o w) in
  let found := querySelector w src_el "img" in
  snd (zoomImage src_el o w) = undefined
  /\ (forall u, o_url o = Some u -> u <> "" ->
        url (settings (bind s)) = Some u
        /\ src (elements (world s) (img (bind s))) = u
        /\ registered (El (img (bind s))) load on_load s = true)
  /\ (truthy (o_url o) = false -> forall se, found = Some se ->
        url (settings (bind s)) = Some (image_url (elements w se))
        /\ (forall a, getAttribute "data-src" (attributes (elements w se)) = Some a ->
                      a <> "" -> image_url (elements w se) = a)
        /\ (truthy (getAttribute "data-src" (attributes (elements w se))) = false ->
            currentSrc (elements w se) <> "" ->
            image_url (elements w se) = currentSrc (elements w se))
        /\ (truthy (getAttribute "data-src" (attributes (elements w se))) = false ->
            currentSrc (elements w se) = "" ->
            image_url (elements w se) = src (elements w se))
        /\ (image_url (elements w se) <> "" ->
            src (elements (world s) (img (bind s))) = image_url (elements w se)
            /\ registered (El (img (bind s))) load on_load s = true))
  /\ (truthy (o_url o) = false ->
      (found = None
       \/ exists se, found = Some se /\ image_url (elements w se) = "") ->
        world s = snd (overlay_image w src_el)
        /\ img (bind s) = fst (overlay_image w src_el)
        /\ zoom (bind s) = None
        /\ listeners (world s) = listeners w
        /\ doc (world s) = doc w
        /\ animations (world s) = animations w
        /\ calls (world s) = calls w
        /\ (forall x, x <> next_elem w -> elements (world s) x = elements w x)
        /\ (world s = w
            \/ (img (bind s) = next_elem w
                /\ elements (world s) (next_elem w) = blank_element "img"))).
Proof.
  intros Hf s found.
  pose proof (querySelector_after_overlay "img" Hf) as Hq. fold found in Hq.
  destruct (overlay_image_frame w src_el) as (Fl & Fd & Fa & Fc & Fe & Fn).
  assert (Hse : forall se, found = Some se ->
                  elements (snd (overlay_image w src_el)) se = elements w se).
  { intros se Hs. apply Fe. unfold found, querySelector in Hs.
    apply find_some in Hs. destruct Hs as [Hin _].
    unfold fresh_for in Hf. rewrite Forall_forall in Hf.
    specialize (Hf se Hin). lia. }
  unfold s, zoomImage.
  destruct (overlay_image w src_el) as [im w1] eqn:Ho.
  cbn [fst snd] in *. rewrite Hq.
  change (url (assign_options o)) with (o_url o).
  split.
  - destruct (negb (truthy (o_url o)) && _); reflexivity.
  - split; [|split].
    + intros u Hu Hne. rewrite Hu, (truthy_some Hne). cbn [negb andb fst].
      split; [cbn; exact Hu|]. split.
      * cbn. unfold upd. rewrite Nat.eqb_refl. cbn. rewrite Hu. reflexivity.
      * apply (registered_after_add (El im) load on_load false).
    + intros Ht se Hs. rewrite Ht, Hs. cbn [negb andb].
      rewrite (Hse se Hs).
      destruct (image_url_precedence (elements w se)) as (P1 & P2 & P3).
      cbn [url set_url].
      destruct (truthy (Some (image_url (elements w se)))) eqn:Hu; cbn [negb fst].
      * split; [reflexivity|]. split; [exact P1|]. split; [exact P2|].
        split; [exact P3|]. intros _. split.
        -- cbn. unfold upd. rewrite Nat.eqb_refl. reflexivity.
        -- apply (registered_after_add (El im) load on_load false).
      * split; [reflexivity|]. split; [exact P1|]. split; [exact P2|].
        split; [exact P3|]. intros Hne. exfalso. apply Hne.
        apply truthy_false_some, Hu.
    + intros Ht Hno. rewrite Ht. cbn [negb andb].
      assert (Hu : truthy (url (match found with
                                | Some se => set_url (Some (image_url (elements w1 se)))
                                               (assign_options o)
                                | None => assign_options o
                                end)) = false).
      { destruct Hno as [Hn|(se & Hs & He)].
        - rewrite Hn. exact Ht.
        - rewrite Hs, (Hse se Hs), He. reflexivity. }
      rewrite Hu. cbn [negb fst world bind img zoom].
      repeat split; assumption.
Qed.

Lemma url_resolution_precedence_witness :
  fresh_for sample_page 3%nat
  /\ listeners (world (fst (zoomImage 3%nat no_options sample_page)))
     = listeners sample_page.
Proof.
  assert (Hf : fresh_for sample_page 3%nat) by (vm_compute; constructor).
  split; [exact Hf|].
  destruct (@url_resolution_precedence 3%nat no_options sample_page Hf)
    as (_ & _ & _ & Hno).
  destruct (Hno eq_refl (or_introl eq_refl)) as (_ & _ & _ & Hl & _).
  exact Hl.
Defined.

(** ** [start] and [stop] *)

Section StartStop.

Lemma same_wiring_refl (w : World) : same_wiring w w.
Proof. repeat split. Qed.

Lemma same_wiring_trans (w1 w2 w3 : World) :
  same_wiring w1 w2 -> same_wiring w2 w3 -> same_wiring w1 w3.
Proof.
  intros (A & B & C & D & E & F & G) (A' & B' & C' & D' & E' & F' & G').
  repeat split; congruence.
Qed.

Lemma same_closure_refl (b : Binding) : same_closure b b.
Proof. repeat split. Qed.

Lemma same_closure_trans (b1 b2 b3 : Binding) :
  same_closure b1 b2 -> same_closure b2 b3 -> same_closure b1 b3.
Proof.
  intros (A & B & C & D & E & F) (A' & B' & C' & D' & E' & F').
  repeat split; congruence.
Qed.

Lemma fadeTo_wiring (s : State) (e : elem) (d op : num) (c : option cb) :
  same_wiring (world (exec (fadeTo e d op c) s)) (world s).
Proof.
  unfold exec, fadeTo, bindM, get, when.
  destruct (String.eqb (computed (elements (world s) e) display) "none");
    destruct (valid_duration d); repeat split.
Qed.

Lemma move_wiring (t : option Point) (s : State) :
  same_wiring (world (exec (move t) s)) (world s).
Proof.
  unfold exec.
  destruct (move_cases t s) as [H|[H|[H|(vl & vt & H)]]]; rewrite H;
    repeat split.
Qed.

Lemma run_unit (c : M unit) (s : State) :
  threw c s = false -> c s = (exec c s, Ok tt).
Proof.
  unfold threw, exec. destruct (c s) as [s' [[]|x]]; cbn;
    [reflexivity | discriminate].
Qed.

Lemma bindM_ok (A B : Type) (c : M A) (k : A -> M B) (s s' : State) (a : A) :
  c s = (s', Ok a) -> bindM c k s = k a s'.
Proof. intros H. unfold bindM. rewrite H. reflexivity. Qed.

Lemma move_after_init_ok (p : Point) (s : State) :
  threw (move (Some p)) (exec init s) = false.
Proof.
  unfold threw.
  rewrite (@move_on_snapshot (world s) (bind s) (exec init s) p eq_refl).
  reflexivity.
Qed.

(** [start] at a pointer: the snapshot is made anew and the two offsets
    are written; what follows is the fade to 1. *)
Lemma start_fadeTo (p : Point) (s : State) :
  start (Some p) s
  = fadeTo (img (bind s)) (duration (settings (bind s))) (Fin (ofZ 1))
      (Some zoomIn_cb) (exec (move (Some p)) (exec init s)).
Proof.
  unfold start.
  rewrite (@bindM_ok _ _ init _ s (exec init s) tt eq_refl).
  rewrite (@bindM_ok _ _ (move (Some p)) _ _ _ tt (@run_unit _ _ (move_after_init_ok p s))).
  unfold bindM at 1, get.
  rewrite move_bind.
  change (bind (exec init s)) with (set_zoom (Some (init_vars (world s) (bind s))) (bind s)).
  cbn [img settings set_zoom]. reflexivity.
Qed.

Lemma stop_fadeTo (s : State) :
  stop s
  = fadeTo (img (bind s)) (duration (settings (bind s))) (Fin zero)
      (Some zoomOut_cb) s.
Proof. reflexivity. Qed.

Lemma start_threw (p : Point) (s : State) :
  threw (start (Some p)) s = negb (valid_duration (duration (settings (bind s)))).
Proof. unfold threw. rewrite start_fadeTo. apply fadeTo_threw. Qed.

Lemma stop_threw (s : State) :
  threw stop s = negb (valid_duration (duration (settings (bind s)))).
Proof. unfold threw. rewrite stop_fadeTo. apply fadeTo_threw. Qed.

Lemma start_run (p : Point) (s : State) :
  fades_run s ->
  start (Some p) s
  = (exec (fadeTo (img (bind s)) (duration (settings (bind s))) (Fin (ofZ 1))
             (Some zoomIn_cb))
       (exec (move (Some p)) (exec init s)), Ok tt).
Proof.
  intros Hv. rewrite start_fadeTo. apply run_unit. apply fadeTo_obs. exact Hv.
Qed.

Lemma stop_run (s : State) :
  fades_run s ->
  stop s
  = (exec (fadeTo (img (bind s)) (duration (settings (bind s))) (Fin zero)
             (Some zoomOut_cb)) s, Ok tt).
Proof.
  intros Hv. rewrite stop_fadeTo. apply run_unit. apply fadeTo_obs. exact Hv.
Qed.

(** What [start] leaves whatever the duration: the listeners, the
    document, the log and the flags, and the variables of the binding but
    for the snapshot, which is the one of the layout at the call. *)
Lemma start_frame (p : Point) (s : State) :
  let s' := exec (start (Some p)) s in
  same_wiring (world s') (world s)
  /\ same_closure (bind s') (bind s)
  /\ zoom (bind s') = Some (init_vars (world s) (bind s)).
Proof.
  intros s'.
  set (s1 := exec (move (Some p)) (exec init s)).
  assert (Hs : s' = exec (fadeTo (img (bind s)) (duration (settings (bind s)))
                            (Fin (ofZ 1)) (Some zoomIn_cb)) s1).
  { unfold s', exec at 1. rewrite start_fadeTo. reflexivity. }
  assert (B : bind s' = bind s1).
  { rewrite Hs. unfold exec, fadeTo, bindM, get, when.
    destruct (String.eqb (computed (elements (world s1) (img (bind s))) display) "none");
      destruct (valid_duration (duration (settings (bind s)))); reflexivity. }
  split.
  { rewrite Hs. eapply same_wiring_trans; [apply fadeTo_wiring|].
    unfold s1. eapply same_wiring_trans; [apply move_wiring|].
    repeat split. }
  rewrite B. unfold s1. rewrite !move_bind.
  split; [repeat split | reflexivity].
Qed.

Lemma stop_frame (s : State) :
  let s' := exec stop s in
  same_wiring (world s') (world s) /\ bind s' = bind s.
Proof.
  intros s'. unfold s', exec. rewrite stop_fadeTo.
  split; [apply fadeTo_wiring|].
  unfold fadeTo, bindM, get, when.
  destruct (String.eqb (computed (elements (world s) (img (bind s))) display) "none");
    destruct (valid_duration (duration (settings (bind s)))); reflexivity.
Qed.

(** What [start] leaves and what it changes, with a duration
    [element.animate] takes. *)
Lemma start_obs (p : Point) (s : State) :
  fades_run s ->
  let s' := exec (start (Some p)) s in
  threw (start (Some p)) s = false
  /\ same_wiring (world s') (world s)
  /\ same_closure (bind s') (bind s)
  /\ zoom (bind s') = Some (init_vars (world s) (bind s))
  /\ animations (world s')
     = animations (world s)
       ++ [fade_animation (img (bind s)) (duration (settings (bind s)))
             (Fin (ofZ 1)) (Some zoomIn_cb)].
Proof.
  intros Hv s'.
  set (s1 := exec (move (Some p)) (exec init s)).
  assert (Hs : s' = exec (fadeTo (img (bind s)) (duration (settings (bind s)))
                            (Fin (ofZ 1)) (Some zoomIn_cb)) s1).
  { unfold s', exec at 1. rewrite start_fadeTo. reflexivity. }
  destruct (@fadeTo_obs s1 (img (bind s)) (duration (settings (bind s)))
              (Fin (ofZ 1)) (Some zoomIn_cb) Hv) as (_ & A & _).
  rewrite <- Hs in A.
  destruct (start_frame p s) as (W & C & Z). fold s' in W, C, Z.
  split; [rewrite start_threw, Hv; reflexivity|].
  split; [exact W|]. split; [exact C|]. split; [exact Z|].
  rewrite A. f_equal.
Qed.

(** What [stop] leaves and what it changes, with such a duration. *)
Lemma stop_obs (s : State) :
  fades_run s ->
  let s' := exec stop s in
  threw stop s = false
  /\ same_wiring (world s') (world s)
  /\ bind s' = bind s
  /\ animations (world s')
     = animations (world s)
       ++ [fade_animation (img (bind s)) (duration (settings (bind s)))
             (Fin zero) (Some zoomOut_cb)].
Proof.
  intros Hv s'.
  destruct (@fadeTo_obs s (img (bind s)) (duration (settings (bind s)))
              (Fin zero) (Some zoomOut_cb) Hv) as (_ & A & _).
  destruct (stop_frame s) as (W & B). fold s' in W, B.
  split; [rewrite stop_threw, Hv; reflexivity|].
  split; [exact W|]. split; [exact B | exact A].
Qed.

(** With a duration [element.animate] refuses, [start] and [stop] throw
    and start no animation. *)
Lemma start_refused (p : Point) (s : State) :
  valid_duration (duration (settings (bind s))) = false ->
  start (Some p) s = (exec (start (Some p)) s, Throw animate_error)
  /\ animations (world (exec (start (Some p)) s)) = animations (world s).
Proof.
  intros Hv.
  set (s1 := exec (move (Some p)) (exec init s)).
  assert (Ha : animations (world s1) = animations (world s)).
  { unfold s1, exec at 1.
    destruct (move_cases (Some p) (exec init s)) as [E | [E | [E | (vl & vt & E)]]];
      rewrite E; reflexivity. }
  unfold exec at 1 2. rewrite start_fadeTo. fold s1.
  rewrite (@fadeTo_invalid s1 _ _ (Fin (ofZ 1)) (Some zoomIn_cb) Hv).
  cbn [fst]. split; [reflexivity|].
  rewrite <- Ha. destruct (hidden s1 (img (bind s))); reflexivity.
Qed.

Lemma stop_refused (s : State) :
  valid_duration (duration (settings (bind s))) = false ->
  stop s = (exec stop s, Throw animate_error)
  /\ animations (world (exec stop s)) = animations (world s).
Proof.
  intros Hv. unfold exec at 1 2. rewrite stop_fadeTo.
  rewrite (@fadeTo_invalid s _ _ (Fin zero) (Some zoomOut_cb) Hv).
  cbn [fst]. split; [reflexivity|].
  destruct (hidden s (img (bind s))); reflexivity.
Qed.

(** A listener body that is [start] or [stop]: what it leaves, whatever
    the duration. *)
Lemma settle_start (p : Point) (s : State) :
  let s' := settle (start (Some p)) s in
  listeners (world s') = listeners (world s)
  /\ next_listener (world s') = next_listener (world s)
  /\ same_closure (bind s') (bind s)
  /\ zoom (bind s') = Some (init_vars (world s) (bind s))
  /\ defaultPrevented (world s') = defaultPrevented (world s)
  /\ propagationStopped (world s') = propagationStopped (world s)
  /\ (fades_run s ->
      s' = exec (start (Some p)) s
      /\ fades s' = fades s ++ [Fin (ofZ 1)]
      /\ reported (world s') = reported (world s))
  /\ (valid_duration (duration (settings (bind s))) = false ->
      s' = report animate_error (exec (start (Some p)) s)
      /\ fades s' = fades s
      /\ reported (world s') = reported (world s) ++ [animate_error]).
Proof.
  intros s'.
  destruct (start_frame p s) as ((WL & WN & _ & _ & WR & WD & WP) & C & Z).
  assert (Hcases : s' = exec (start (Some p)) s
                   \/ s' = report animate_error (exec (start (Some p)) s)).
  { unfold s', settle.
    destruct (valid_duration (duration (settings (bind s)))) eqn:Hv.
    - left. rewrite (@start_run p s Hv). reflexivity.
    - right. destruct (@start_refused p s Hv) as (E & _). rewrite E. reflexivity. }
  assert (Hframe : listeners (world s') = listeners (world s)
                   /\ next_listener (world s') = next_listener (world s)
                   /\ bind s' = bind (exec (start (Some p)) s)
                   /\ defaultPrevented (world s') = defaultPrevented (world s)
                   /\ propagationStopped (world s') = propagationStopped (world s)).
  { destruct Hcases as [-> | ->]; cbn [report on_world world bind listeners
      next_listener defaultPrevented propagationStopped set_reported];
      (split; [exact WL|]); (split; [exact WN|]); (split; [reflexivity|]);
      (split; [exact WD | exact WP]). }
  destruct Hframe as (F1 & F2 & F3 & F4 & F5).
  split; [exact F1|]. split; [exact F2|].
  split; [rewrite F3; exact C|]. split; [rewrite F3; exact Z|].
  split; [exact F4|]. split; [exact F5|].
  split.
  - intros Hv. destruct (@start_obs p s Hv) as (_ & _ & _ & _ & A).
    assert (E : s' = exec (start (Some p)) s).
    { unfold s', settle. rewrite (@start_run p s Hv). reflexivity. }
    rewrite E. split; [reflexivity|].
    split; [unfold fades; rewrite A, map_app; reflexivity | exact WR].
  - intros Hv. destruct (@start_refused p s Hv) as (E & A).
    assert (E' : s' = report animate_error (exec (start (Some p)) s)).
    { unfold s', settle. rewrite E. reflexivity. }
    rewrite E'. split; [reflexivity|].
    split.
    + unfold fades, report. cbn [on_world world animations set_reported].
      rewrite A. reflexivity.
    + unfold report. cbn [on_world world reported set_reported].
      rewrite WR. reflexivity.
Qed.

Lemma settle_stop (s : State) :
  let s' := settle stop s in
  listeners (world s') = listeners (world s)
  /\ next_listener (world s') = next_listener (world s)
  /\ bind s' = bind s
  /\ defaultPrevented (world s') = defaultPrevented (world s)
  /\ propagationStopped (world s') = propagationStopped (world s)
  /\ (fades_run s ->
      s' = exec stop s
      /\ fades s' = fades s ++ [Fin zero]
      /\ reported (world s') = reported (world s))
  /\ (valid_duration (duration (settings (bind s))) = false ->
      s' = report animate_error (exec stop s)
      /\ fades s' = fades s
      /\ reported (world s') = reported (world s) ++ [animate_error]).
Proof.
  intros s'.
  destruct (stop_frame s) as ((WL & WN & _ & _ & WR & WD & WP) & B).
  assert (Hcases : s' = exec stop s \/ s' = report animate_error (exec stop s)).
  { unfold s', settle.
    destruct (valid_duration (duration (settings (bind s)))) eqn:Hv.
    - left. rewrite (@stop_run s Hv). reflexivity.
    - right. destruct (@stop_refused s Hv) as (E & _). rewrite E. reflexivity. }
  assert (Hframe : listeners (world s') = listeners (world s)
                   /\ next_listener (world s') = next_listener (world s)
                   /\ bind s' = bind s
                   /\ defaultPrevented (world s') = defaultPrevented (world s)
                   /\ propagationStopped (world s') = propagationStopped (world s)).
  { destruct Hcases as [-> | ->]; cbn [report on_world world bind listeners
      next_listener defaultPrevented propagationStopped set_reported];
      (split; [exact WL|]); (split; [exact WN|]); (split; [exact B|]);
      (split; [exact WD | exact WP]). }
  destruct Hframe as (F1 & F2 & F3 & F4 & F5).
  split; [exact F1|]. split; [exact F2|]. split; [exact F3|].
  split; [exact F4|]. split; [exact F5|].
  split.
  - intros Hv. destruct (@stop_obs s Hv) as (_ & _ & _ & A).
    assert (E : s' = exec stop s).
    { unfold s', settle. rewrite (@stop_run s Hv). reflexivity. }
    rewrite E. split; [reflexivity|].
    split; [unfold fades; rewrite A, map_app; reflexivity | exact WR].
  - intros Hv. destruct (@stop_refused s Hv) as (E & A).
    assert (E' : s' = report animate_error (exec stop s)).
    { unfold s', settle. rewrite E. reflexivity. }
    rewrite E'. split; [reflexivity|].
    split.
    + unfold fades, report. cbn [on_world world animations set_reported].
      rewrite A. reflexivity.
    + unfold report. cbn [on_world world reported set_reported].
      rewrite WR. reflexivity.
Qed.

End StartStop.

(** ** Registering and dispatching *)

Section Registry.

Lemma seq_run (c k : M unit) (s : State) :
  threw c s = false -> (c ;; k) s = k (exec c s).
Proof. intros H. unfold bindM. rewrite (@run_unit c s H). reflexivity. Qed.

Lemma node_eqb_refl (n : node) : node_eqb n n = true.
Proof. destruct n; cbn; [apply Nat.eqb_refl | reflexivity]. Qed.

Lemma same_registration_listens (n n' : node) (t t' : evtype) (h : handler)
  (l : Listener) :
  same_registration n' t' h l = true -> listens n t l = true ->
  node_eqb n' n = true /\ t' = t.
Proof.
  unfold same_registration, listens. intros H1 H2.
  apply andb_true_iff in H1. destruct H1 as [H1 _].
  apply andb_true_iff in H1. destruct H1 as [Hn Ht].
  apply andb_true_iff in H2. destruct H2 as [Hn' Ht'].
  destruct (evtype_eq_dec (l_type l) t') as [E1|]; [|discriminate].
  destruct (evtype_eq_dec (l_type l) t) as [E2|]; [|discriminate].
  split; [|congruence].
  destruct (l_node l), n, n'; cbn in *; try discriminate; try reflexivity.
  apply Nat.eqb_eq in Hn, Hn'. apply Nat.eqb_eq. congruence.
Qed.

(** Registering for another node or another type leaves the listeners of
    [n] for [t] as they are. *)
Lemma listeners_for_add (n n' : node) (t t' : evtype) (h : handler) (o : bool)
  (s : State) :
  node_eqb n' n && (if evtype_eq_dec t' t then true else false) = false ->
  listeners_for n t (exec (addEventListener n' t' h o) s) = listeners_for n t s.
Proof.
  intros H. unfold listeners_for, exec, addEventListener, modify, on_world.
  cbn [fst world].
  destruct (by_name h && existsb (same_registration n' t' h) (listeners (world s)));
    [reflexivity|].
  cbn [listeners set_listeners]. rewrite filter_app. cbn [filter].
  unfold listens at 2. cbn [l_node l_type].
  destruct (node_eqb n' n) eqn:Hn; cbn [andb] in *.
  - destruct (evtype_eq_dec t' t); [discriminate H|]. apply app_nil_r.
  - apply app_nil_r.
Qed.

Lemma listeners_for_remove (n n' : node) (t t' : evtype) (h : handler)
  (s : State) :
  node_eqb n' n && (if evtype_eq_dec t' t then true else false) = false ->
  listeners_for n t (exec (removeEventListener n' t' h) s) = listeners_for n t s.
Proof.
  intros H. unfold listeners_for, exec, removeEventListener, modify, on_world.
  cbn [fst world listeners set_listeners].
  induction (listeners (world s)) as [|l ls IH]; [reflexivity|].
  cbn [filter]. destruct (same_registration n' t' h l) eqn:Hs; cbn [negb].
  - rewrite IH. destruct (listens n t l) eqn:Hl; [|reflexivity].
    destruct (@same_registration_listens n n' t t' h l Hs Hl) as [Hn Ht].
    rewrite Hn in H. subst t'. destruct (evtype_eq_dec t t); [discriminate H|contradiction].
  - cbn [filter]. rewrite IH. reflexivity.
Qed.

Lemma registered_after_remove (n : node) (t : evtype) (h : handler) (s : State) :
  registered n t h (exec (removeEventListener n t h) s) = false.
Proof.
  unfold registered, exec, removeEventListener, modify, on_world.
  cbn [fst world listeners set_listeners].
  induction (listeners (world s)) as [|l ls IH]; [reflexivity|].
  cbn [filter]. destruct (same_registration n t h l) eqn:Hs; cbn [negb].
  - exact IH.
  - cbn [existsb]. rewrite Hs, IH. reflexivity.
Qed.

Lemma has_id_listener (s : State) (n : node) (t : evtype) (l : Listener) :
  In l (listeners_for n t s) -> has_id (l_id l) s = true.
Proof.
  unfold listeners_for, has_id. intros H. apply filter_In in H.
  apply existsb_exists. exists l. split; [apply H | apply Nat.eqb_refl].
Qed.

End Registry.

Section Dispatching.

Lemma dispatch_at_none (n : node) (e : Event) (s : State) :
  listeners_for n (ev_type e) s = [] -> dispatch_at n e s = s.
Proof. unfold dispatch_at, listeners_for. intros ->. reflexivity. Qed.

(** A node with one listener for the event, not a once-listener. *)
Lemma dispatch_at_single (n : node) (e : Event) (s : State) (l : Listener) :
  listeners_for n (ev_type e) s = [l] -> l_once l = false ->
  dispatch_at n e s
  = match run_handler (l_handler l) e s with
    | (s2, Ok _) => s2
    | (s2, Throw x) => report x s2
    end.
Proof.
  intros Hl Ho. unfold dispatch_at. fold (listeners_for n (ev_type e) s).
  rewrite Hl. cbn [fold_left]. unfold invoke.
  rewrite (@has_id_listener s n (ev_type e) l) by (rewrite Hl; left; reflexivity).
  rewrite Ho. reflexivity.
Qed.

Lemma toggle_click_off (p : Point) (s : State) :
  fades_run s ->
  clicked (bind s) = false ->
  run_handler toggle_click (mouse click p) s
  = (on_bind (fun b => set_clicked (negb (clicked b)) b)
       (exec (addEventListener Document mousemove h_move false)
          (exec (start (Some p)) s)), Ok tt).
Proof.
  intros Hv Hc. cbn [run_handler]. unfold bindM at 1, get. rewrite Hc.
  cbn [ev_point mouse].
  unfold bindM. rewrite (@start_run p s Hv). reflexivity.
Qed.

Lemma toggle_click_on (p : Point) (s : State) :
  fades_run s ->
  clicked (bind s) = true ->
  run_handler toggle_click (mouse click p) s
  = (on_bind (fun b => set_clicked (negb (clicked b)) b)
       (exec (removeEventListener Document mousemove h_move)
          (exec stop s)), Ok tt).
Proof.
  intros Hv Hc. cbn [run_handler]. unfold bindM at 1, get. rewrite Hc.
  unfold bindM. rewrite (@stop_run s Hv). reflexivity.
Qed.

End Dispatching.

Section ToggleMode.

Lemma add_frame (n : node) (t : evtype) (h : handler) (o : bool) (s : State) :
  let s1 := exec (addEventListener n t h o) s in
  bind s1 = bind s
  /\ animations (world s1) = animations (world s)
  /\ reported (world s1) = reported (world s)
  /\ propagationStopped (world s1) = propagationStopped (world s)
  /\ defaultPrevented (world s1) = defaultPrevented (world s)
  /\ elements (world s1) = elements (world s)
  /\ calls (world s1) = calls (world s)
  /\ doc (world s1) = doc (world s).
Proof.
  unfold exec, addEventListener, modify, on_world. cbn [fst world bind].
  destruct (by_name h && existsb (same_registration n t h) (listeners (world s)));
    repeat split.
Qed.

Lemma remove_frame (n : node) (t : evtype) (h : handler) (s : State) :
  let s1 := exec (removeEventListener n t h) s in
  bind s1 = bind s
  /\ animations (world s1) = animations (world s)
  /\ reported (world s1) = reported (world s)
  /\ propagationStopped (world s1) = propagationStopped (world s)
  /\ defaultPrevented (world s1) = defaultPrevented (world s)
  /\ elements (world s1) = elements (world s)
  /\ calls (world s1) = calls (world s)
  /\ doc (world s1) = doc (world s).
Proof. repeat split. Qed.

Lemma listeners_for_wiring (n : node) (t : evtype) (s1 s2 : State) :
  same_wiring (world s1) (world s2) ->
  listeners_for n t s1 = listeners_for n t s2.
Proof. intros (H & _). unfold listeners_for. rewrite H. reflexivity. Qed.

Lemma registered_wiring (n : node) (t : evtype) (h : handler) (s1 s2 : State) :
  same_wiring (world s1) (world s2) ->
  registered n t h s1 = registered n t h s2.
Proof. intros (H & _). unfold registered. rewrite H. reflexivity. Qed.

(** One click on the source in toggle mode. *)
Lemma toggle_click_step (s : State) (p : Point) :
  toggle_wired s -> fades_run s ->
  let s' := dispatch (El (source (bind s))) (mouse click p) s in
  toggle_wired s'
  /\ clicked (bind s') = negb (clicked (bind s))
  /\ source (bind s') = source (bind s)
  /\ img (bind s') = img (bind s)
  /\ settings (bind s') = settings (bind s)
  /\ touched (bind s') = touched (bind s)
  /\ reported (world s') = reported (world s)
  /\ (clicked (bind s) = false ->
      s' = on_bind (fun b => set_clicked (negb (clicked b)) b)
             (exec (addEventListener Document mousemove h_move false)
                (exec (start (Some p)) (on_world (set_flags false false) s))))
  /\ (clicked (bind s) = true ->
      s' = on_bind (fun b => set_clicked (negb (clicked b)) b)
             (exec (removeEventListener Document mousemove h_move)
                (exec stop (on_world (set_flags false false) s)))).
Proof.
  intros (Hon & (i & Hsrc) & Hdoc & Hreg) Hv s'.
  set (s0 := on_world (set_flags false false) s).
  assert (Hv0 : fades_run s0) by exact Hv.
  set (L := mkListener i (El (source (bind s))) click toggle_click false) in *.
  assert (H0 : listeners_for (El (source (bind s0))) (ev_type (mouse click p)) s0 = [L])
    by exact Hsrc.
  pose proof (@dispatch_at_single (El (source (bind s0))) (mouse click p) s0 L H0 eq_refl)
    as Hd.
  cbn [l_handler L] in Hd.
  destruct (clicked (bind s)) eqn:Hc.
  - (* active: the click stops *)
    rewrite (@toggle_click_on p s0 Hv0 Hc) in Hd.
    set (sA := exec stop s0) in *.
    set (sB := exec (removeEventListener Document mousemove h_move) sA) in *.
    set (s1 := on_bind (fun b => set_clicked (negb (clicked b)) b) sB) in *.
    destruct (@stop_obs s0 Hv0) as (_ & WA & BA & AA). fold sA in WA, BA, AA.
    assert (Hdoc1 : listeners_for Document (ev_type (mouse click p)) s1 = []).
    { change (listeners_for Document click sB = []). unfold sB.
      rewrite listeners_for_remove by reflexivity.
      rewrite (@listeners_for_wiring Document click sA s0 WA). exact Hdoc. }
    assert (Hs' : s' = s1).
    { unfold s', dispatch. fold s0. change (source (bind s)) with (source (bind s0)).
      rewrite Hd. cbn [bubbles ev_type mouse andb].
      assert (Hp : propagationStopped (world s1) = false).
      { change (propagationStopped (world sA) = false).
        destruct WA as (_ & _ & _ & _ & _ & _ & Hp). rewrite Hp. reflexivity. }
      rewrite Hp. cbn [negb]. apply dispatch_at_none. exact Hdoc1. }
    rewrite Hs'.
    assert (Hb : bind s1 = set_clicked false (bind s)).
    { unfold s1. cbn [bind on_bind]. change (bind sB) with (bind sA).
      rewrite BA. change (bind s0) with (bind s). rewrite Hc. reflexivity. }
    split.
    { unfold toggle_wired. rewrite Hb. cbn [settings source clicked set_clicked].
      split; [exact Hon|]. split.
      - exists i. change (listeners_for (El (source (bind s))) click sB = [L]).
        unfold sB. rewrite listeners_for_remove by reflexivity.
        rewrite (@listeners_for_wiring _ click sA s0 WA). exact Hsrc.
      - split; [exact Hdoc1|].
        change (registered Document mousemove h_move sB = false).
        apply registered_after_remove. }
    rewrite Hb. cbn [settings source clicked set_clicked img touched].
    repeat split.
    + change (reported (world sA) = reported (world s)).
      destruct WA as (_ & _ & _ & _ & Hr & _). rewrite Hr. reflexivity.
    + intros D. discriminate D.
  - (* idle: the click starts *)
    rewrite (@toggle_click_off p s0 Hv0 Hc) in Hd.
    set (sA := exec (start (Some p)) s0) in *.
    set (sB := exec (addEventListener Document mousemove h_move false) sA) in *.
    set (s1 := on_bind (fun b => set_clicked (negb (clicked b)) b) sB) in *.
    destruct (@start_obs p s0 Hv0) as (_ & WA & BA & ZA & AA). fold sA in WA, BA, ZA, AA.
    destruct (add_frame Document mousemove h_move false sA)
      as (BB & _ & RB & PB & _). fold sB in BB, RB, PB.
    assert (Hdoc1 : listeners_for Document (ev_type (mouse click p)) s1 = []).
    { change (listeners_for Document click sB = []). unfold sB.
      rewrite listeners_for_add by reflexivity.
      rewrite (@listeners_for_wiring Document click sA s0 WA). exact Hdoc. }
    assert (Hs' : s' = s1).
    { unfold s', dispatch. fold s0. change (source (bind s)) with (source (bind s0)).
      rewrite Hd. cbn [bubbles ev_type mouse andb].
      assert (Hp : propagationStopped (world s1) = false).
      { change (propagationStopped (world sB) = false). rewrite PB.
        destruct WA as (_ & _ & _ & _ & _ & _ & Hp). rewrite Hp. reflexivity. }
      rewrite Hp. cbn [negb]. apply dispatch_at_none. exact Hdoc1. }
    rewrite Hs'.
    destruct BA as (B1 & B2 & B3 & B4 & B5 & B6).
    change (bind s0) with (bind s) in B1, B2, B3, B4, B5, B6.
    assert (Hcl : clicked (bind s1) = true).
    { unfold s1. cbn [bind on_bind clicked set_clicked]. rewrite BB, B5, Hc.
      reflexivity. }
    assert (Hso : source (bind s1) = source (bind s)).
    { unfold s1. cbn [bind on_bind source set_clicked]. rewrite BB. exact B2. }
    split.
    { unfold toggle_wired. rewrite Hcl, Hso.
      split.
      { unfold s1. cbn [bind on_bind settings set_clicked]. rewrite BB, B1.
        exact Hon. }
      split.
      - exists i. change (listeners_for (El (source (bind s))) click sB = [L]).
        unfold sB. rewrite listeners_for_add by reflexivity.
        rewrite (@listeners_for_wiring _ click sA s0 WA). exact Hsrc.
      - split; [exact Hdoc1|].
        change (registered Document mousemove h_move sB = true).
        apply registered_after_add. }
    split; [exact Hcl|]. split; [exact Hso|].
    unfold s1. cbn [bind on_bind img settings touched set_clicked]. rewrite BB.
    split; [exact B4|]. split; [exact B1|]. split; [exact B6|].
    split.
    + change (reported (world sB) = reported (world s)). rewrite RB.
      destruct WA as (_ & _ & _ & _ & Hr & _). rewrite Hr. reflexivity.
    + split; [reflexivity|]. intros D. discriminate D.
Qed.

End ToggleMode.

Section Loading.

(** The set-up of [createZoom] never throws and leaves the listeners, the
    log and the flags alone. *)
Lemma createZoom_obs (s : State) :
  let s1 := exec createZoom s in
  createZoom s = (s1, Ok tt)
  /\ listeners (world s1) = listeners (world s)
  /\ next_listener (world s1) = next_listener (world s)
  /\ calls (world s1) = calls (world s)
  /\ reported (world s1) = reported (world s)
  /\ animations (world s1) = animations (world s)
  /\ propagationStopped (world s1) = propagationStopped (world s)
  /\ defaultPrevented (world s1) = defaultPrevented (world s)
  /\ bind s1 = set_zoom (Some undefined_vars) (bind s)
  /\ doc (world s1) = append (target (bind s)) (img (bind s)) (doc (world s)).
Proof. repeat split. Qed.

Lemma zoomImage_with_url (src_el : elem) (o : Options) (w : World) (u : string) :
  o_url o = Some u -> u <> "" ->
  let im := fst (overlay_image w src_el) in
  let w1 := snd (overlay_image w src_el) in
  let s := fst (zoomImage src_el o w) in
  bind s = mkBinding (assign_options o) src_el
             (or_default (o_target o) src_el) im false false None false
  /\ listeners (world s)
     = listeners w ++ [mkListener (next_listener w) (El im) load on_load false]
  /\ next_listener (world s) = S (next_listener w)
  /\ reported (world s) = reported w
  /\ animations (world s) = animations w
  /\ calls (world s) = calls w
  /\ doc (world s) = doc w.
Proof.
  intros Hu Hne im w1 s. unfold s, im, zoomImage.
  assert (Hn : next_listener (snd (overlay_image w src_el)) = next_listener w
               /\ reported (snd (overlay_image w src_el)) = reported w).
  { unfold overlay_image.
    destruct (querySelector w src_el ZOOM_IMAGE_CLASS); split; reflexivity. }
  destruct (overlay_image_frame w src_el) as (Fl & Fd & Fa & Fc & _).
  destruct (overlay_image w src_el) as [im' w1']. cbn [fst snd] in *.
  change (url (assign_options o)) with (o_url o).
  rewrite Hu, (truthy_some Hne). cbn [negb andb fst].
  cbn. rewrite Fl, Fd, Fa, Fc. destruct Hn as [-> ->]. repeat split.
Qed.

End Loading.

(** ** The load listener *)

Section Registers.

Lemma registers_nil (s : State) :
  world s = set_listeners (listeners (world s)) (next_listener (world s)) (world s) ->
  registers [] s s.
Proof.
  intros H. unfold registers. rewrite app_nil_r, Nat.add_0_r, <- H.
  destruct s; reflexivity.
Qed.

Lemma world_eta (w : World) :
  w = set_listeners (listeners w) (next_listener w) w.
Proof. destruct w; reflexivity. Qed.

Lemma registers_refl (s : State) : registers [] s s.
Proof. apply registers_nil, world_eta. Qed.

Lemma registers_trans (a b : list Listener) (s1 s2 s3 : State) :
  registers a s1 s2 -> registers b s2 s3 -> registers (a ++ b) s1 s3.
Proof.
  unfold registers. intros -> ->. cbn [world bind listeners next_listener set_listeners].
  rewrite <- app_assoc, length_app, Nat.add_assoc. reflexivity.
Qed.

(** A registration that is not a repetition. *)
Lemma registers_add (n : node) (t : evtype) (h : handler) (o : bool) (s : State) :
  by_name h = false \/ registered n t h s = false ->
  registers [mkListener (next_listener (world s)) n t h o] s
    (exec (addEventListener n t h o) s).
Proof.
  intros H. unfold registers, exec, addEventListener, modify, on_world.
  cbn [fst List.length].
  assert (E : by_name h && existsb (same_registration n t h) (listeners (world s))
              = false).
  { destruct H as [-> | H]; [reflexivity|].
    unfold registered in H. rewrite H. apply andb_false_r. }
  rewrite E. rewrite Nat.add_1_r. reflexivity.
Qed.

Lemma registered_registers (added : list Listener) (s s' : State)
  (n : node) (t : evtype) (h : handler) :
  registers added s s' ->
  registered n t h s'
  = registered n t h s || existsb (same_registration n t h) added.
Proof.
  unfold registers, registered. intros ->.
  cbn [world listeners set_listeners]. apply existsb_app.
Qed.

Lemma seq_modify (f : State -> State) (k : M unit) (s : State) :
  exec (modify f ;; k) s = exec k (f s).
Proof. reflexivity. Qed.

End Registers.

Section LoadListener.

Lemma sr_type (n n' : node) (t t' : evtype) (h h' : handler) (i : nat) (o : bool) :
  t' <> t -> same_registration n t h (mkListener i n' t' h' o) = false.
Proof.
  intros H. unfold same_registration. cbn [l_type].
  destruct (evtype_eq_dec t' t); [contradiction|].
  rewrite andb_false_r. reflexivity.
Qed.

Lemma not_registered_by_name (n : node) (t : evtype) (h : handler) (s : State) :
  by_name h = true ->
  existsb (fun l => by_name (l_handler l)) (listeners (world s)) = false ->
  registered n t h s = false.
Proof.
  intros Hh. unfold registered.
  induction (listeners (world s)) as [|l ls IH]; [reflexivity|].
  cbn [existsb]. intros H. apply orb_false_iff in H. destruct H as [H1 H2].
  rewrite (IH H2), orb_false_r. unfold same_registration.
  destruct (handler_eq_dec (l_handler l) h) as [<-|]; [|apply andb_false_r].
  rewrite H1 in Hh. discriminate Hh.
Qed.

Lemma seq_add (n : node) (t : evtype) (h : handler) (o : bool) (k : M unit)
  (s : State) :
  exec (addEventListener n t h o ;; k) s
  = exec k (exec (addEventListener n t h o) s).
Proof. reflexivity. Qed.

(** The touch fallback registers its three listeners when [touch] is set. *)
Lemma touch_fallback_obs (b : Binding) (s : State) :
  touch_fallback b s = (exec (touch_fallback b) s, Ok tt)
  /\ registers (if touch (settings b)
                then touch_listeners (source b) (next_listener (world s))
                else []) s (exec (touch_fallback b) s).
Proof.
  unfold touch_fallback, when. destruct (touch (settings b)).
  - split; [reflexivity|].
    rewrite !seq_add.
    set (s1 := exec (addEventListener (El (source b)) touchstart touch_start false) s).
    set (s2 := exec (addEventListener (El (source b)) touchmove touch_move false) s1).
    pose proof (@registers_add (El (source b)) touchstart touch_start false s
                  (or_introl eq_refl)) as R1. fold s1 in R1.
    pose proof (@registers_add (El (source b)) touchmove touch_move false s1
                  (or_introl eq_refl)) as R2. fold s2 in R2.
    pose proof (@registers_add (El (source b)) touchend touch_end false s2
                  (or_introl eq_refl)) as R3.
    pose proof (registers_trans (registers_trans R1 R2) R3) as R.
    assert (N1 : next_listener (world s1) = S (next_listener (world s))).
    { rewrite R1. cbn [world next_listener set_listeners List.length]. lia. }
    assert (N2 : next_listener (world s2) = S (S (next_listener (world s)))).
    { rewrite R2. cbn [world next_listener set_listeners List.length]. rewrite N1. lia. }
    rewrite N1, N2 in R. exact R.
  - split; [reflexivity|]. apply registers_refl.
Qed.

(** The mouse listeners of a mode other than 'toggle-drag', on a page where
    none of [start], [stop], [zoom.move] is registered yet. *)
Lemma mouse_events_obs (b : Binding) (s : State) :
  String.eqb (on (settings b)) "toggle-drag" = false ->
  existsb (fun l => by_name (l_handler l)) (listeners (world s)) = false ->
  mouse_events b s = (exec (mouse_events b) s, Ok tt)
  /\ registers (mode_listeners (on (settings b)) (source b) (next_listener (world s)))
       s (exec (mouse_events b) s).
Proof.
  intros Hd Hf. unfold mouse_events, mode_listeners. rewrite Hd.
  destruct (String.eqb (on (settings b)) "grab");
    [split; [reflexivity | apply registers_add; left; reflexivity]|].
  destruct (String.eqb (on (settings b)) "click");
    [split; [reflexivity | apply registers_add; left; reflexivity]|].
  destruct (String.eqb (on (settings b)) "toggle");
    [split; [reflexivity | apply registers_add; left; reflexivity]|].
  destruct (String.eqb (on (settings b)) "mouseover");
    [|split; [reflexivity | apply registers_refl]].
  split; [reflexivity|].
  rewrite !seq_add.
  set (s1 := exec (addEventListener (El (source b)) mouseover h_start false) s).
  set (s2 := exec (addEventListener (El (source b)) mouseleave h_stop false) s1).
  assert (R1 : registers [mkListener (next_listener (world s)) (El (source b))
                            mouseover h_start false] s s1).
  { apply registers_add. right. apply not_registered_by_name; [reflexivity|exact Hf]. }
  assert (R2 : registers [mkListener (next_listener (world s1)) (El (source b))
                            mouseleave h_stop false] s1 s2).
  { apply registers_add. right.
    rewrite (registered_registers _ _ _ R1).
    rewrite (@not_registered_by_name (El (source b)) mouseleave h_stop s eq_refl Hf).
    cbn [existsb orb]. rewrite sr_type by discriminate. reflexivity. }
  assert (R3 : registers [mkListener (next_listener (world s2)) (El (source b))
                            mousemove h_move false] s2
                 (exec (addEventListener (El (source b)) mousemove h_move false) s2)).
  { apply registers_add. right.
    rewrite (registered_registers _ _ _ R2), (registered_registers _ _ _ R1).
    rewrite (@not_registered_by_name (El (source b)) mousemove h_move s eq_refl Hf).
    cbn [existsb orb]. rewrite !sr_type by discriminate. reflexivity. }
  pose proof (registers_trans (registers_trans R1 R2) R3) as R.
  assert (N1 : next_listener (world s1) = S (next_listener (world s))).
  { rewrite R1. cbn [world next_listener set_listeners List.length]. lia. }
  assert (N2 : next_listener (world s2) = S (S (next_listener (world s)))).
  { rewrite R2. cbn [world next_listener set_listeners List.length]. rewrite N1. lia. }
  rewrite N1, N2 in R. exact R.
Qed.

End LoadListener.

Section LoadListenerRun.

Variable s : State.

Let b := set_zoom (Some undefined_vars) (bind s).
Let n := next_listener (world s).

(** The load listener in every mode but 'toggle-drag': after the set-up
    of [createZoom] it registers the listeners of the mode, then those of
    the touch fallback when [touch] is set, then calls [callback] when it
    is a function; it does not throw. *)
Lemma load_listener_obs :
  String.eqb (on (settings (bind s))) "toggle-drag" = false ->
  existsb (fun l => by_name (l_handler l)) (listeners (world s)) = false ->
  exists s3,
    registers
      (mode_listeners (on (settings (bind s))) (source (bind s)) n
       ++ (if touch (settings (bind s))
           then touch_listeners (source (bind s))
                  (n + List.length (mode_listeners (on (settings (bind s)))
                                      (source (bind s)) n))
           else []))
      (exec createZoom s) s3
    /\ load_listener s
       = ((if callback (settings (bind s))
           then on_world (fun w => set_calls (calls w ++ [Callback (img (bind s))]) w) s3
           else s3), Ok tt).
Proof.
  intros Hd Hf.
  destruct (createZoom_obs s) as (Hc & L1 & N1 & _ & _ & _ & _ & _ & B1 & _).
  set (s1 := exec createZoom s) in *. clearbody s1.
  assert (Hf1 : existsb (fun l => by_name (l_handler l)) (listeners (world s1)) = false)
    by (rewrite L1; exact Hf).
  destruct (@mouse_events_obs b s1 Hd Hf1) as [M1 M2].
  set (s2 := exec (mouse_events b) s1) in *. clearbody s2.
  destruct (touch_fallback_obs b s2) as [T1 T2].
  set (s3 := exec (touch_fallback b) s2) in *. clearbody s3.
  exists s3. split.
  - pose proof (registers_trans M2 T2) as R.
    assert (N2 : next_listener (world s2)
                 = (n + List.length (mode_listeners (on (settings b)) (source b) n))%nat).
    { rewrite M2. cbn [world next_listener set_listeners]. rewrite N1.
      reflexivity. }
    rewrite N2, N1 in R. exact R.
  - unfold load_listener.
    rewrite (@bindM_ok _ _ createZoom _ s s1 tt Hc).
    unfold bindM at 1, get. rewrite B1. fold b.
    rewrite (@bindM_ok _ _ (mouse_events b) _ s1 s2 tt M1).
    rewrite (@bindM_ok _ _ (touch_fallback b) _ s2 s3 tt T1).
    unfold when. change (settings b) with (settings (bind s)).
    destruct (callback (settings (bind s))); reflexivity.
Qed.

(** In the mode 'toggle-drag' on a page without jQuery the load listener
    throws where it names [$]: the overlay is set up, and no listener is
    registered, not even those of the touch fallback, and [callback] is not
    called. *)
Lemma load_listener_toggle_drag :
  on (settings (bind s)) = "toggle-drag" -> jquery (world s) = false ->
  load_listener s
  = (on_bind (set_dragging false) (exec createZoom s),
     Throw (ReferenceError "$ is not defined")).
Proof.
  intros Hm Hj. unfold load_listener.
  destruct (createZoom_obs s) as (Hc & _ & _ & _ & _ & _ & _ & _ & B1 & _).
  assert (J1 : jquery (world (exec createZoom s)) = jquery (world s)) by reflexivity.
  rewrite (@bindM_ok _ _ createZoom _ s _ tt Hc).
  set (s1 := exec createZoom s) in *. clearbody s1.
  unfold bindM at 1, get. rewrite B1. unfold mouse_events.
  cbn [settings set_zoom]. rewrite Hm.
  cbn [String.eqb Ascii.eqb Bool.eqb].
  unfold bindM, get, modify. cbn [world on_bind]. rewrite J1, Hj.
  reflexivity.
Qed.

(** On a page with jQuery the branch binds its click handler to the
    source, and the load listener goes on as in the other modes. *)
Lemma load_listener_toggle_drag_jquery :
  on (settings (bind s)) = "toggle-drag" -> jquery (world s) = true ->
  exists s3,
    registers
      (mkListener n (El (source (bind s))) click toggle_drag_click false
       :: (if touch (settings (bind s))
           then touch_listeners (source (bind s)) (S n)
           else []))
      (on_bind (set_dragging false) (exec createZoom s)) s3
    /\ load_listener s
       = ((if callback (settings (bind s))
           then on_world (fun w => set_calls (calls w ++ [Callback (img (bind s))]) w) s3
           else s3), Ok tt).
Proof.
  intros Hm Hj.
  destruct (createZoom_obs s) as (Hc & L1 & N1 & _ & _ & _ & _ & _ & B1 & _).
  assert (J1 : jquery (world (exec createZoom s)) = jquery (world s)) by reflexivity.
  set (s1 := exec createZoom s) in *. clearbody s1.
  set (sd := on_bind (set_dragging false) s1).
  set (s2 := exec (addEventListener (El (source b)) click toggle_drag_click false) sd).
  assert (M1 : mouse_events b s1 = (s2, Ok tt)).
  { unfold mouse_events. change (settings b) with (settings (bind s)). rewrite Hm.
    cbn [String.eqb Ascii.eqb Bool.eqb].
    unfold bindM, get, modify. cbn [world on_bind]. rewrite J1, Hj.
    reflexivity. }
  pose proof (@registers_add (El (source b)) click toggle_drag_click false sd
                (or_introl eq_refl)) as M2. fold s2 in M2.
  destruct (touch_fallback_obs b s2) as [T1 T2].
  set (s3 := exec (touch_fallback b) s2) in *. clearbody s3.
  exists s3. split.
  - pose proof (registers_trans M2 T2) as R.
    assert (N2 : next_listener (world s2) = S n).
    { rewrite M2. cbn [world next_listener set_listeners List.length on_bind sd].
      rewrite N1. unfold n. lia. }
    rewrite N2 in R.
    change (next_listener (world sd)) with (next_listener (world s1)) in R.
    rewrite N1 in R. exact R.
  - unfold load_listener.
    rewrite (@bindM_ok _ _ createZoom _ s s1 tt Hc).
    unfold bindM at 1, get. rewrite B1. fold b.
    rewrite (@bindM_ok _ _ (mouse_events b) _ s1 s2 tt M1).
    rewrite (@bindM_ok _ _ (touch_fallback b) _ s2 s3 tt T1).
    unfold when. change (settings b) with (settings (bind s)).
    destruct (callback (settings (bind s))); reflexivity.
Qed.

End LoadListenerRun.

Section BoundAndLoaded.

Variables (src_el : elem) (o : Options) (w : World) (u : string).

Hypothesis no_listeners : listeners w = [].
Hypothesis url_given : o_url o = Some u.
Hypothesis url_not_empty : u <> "".

Let mode := on (assign_options o).
Let im := fst (overlay_image w src_el).
Let n := next_listener w.

(** The page once the source is bound and the overlay image has loaded, in
    every mode but 'toggle-drag'. *)
Lemma bound_and_loaded_obs :
  String.eqb mode "toggle-drag" = false ->
  let s := bound_and_loaded src_el o w in
  listeners (world s)
  = mkListener n (El im) load on_load false
    :: mode_listeners mode src_el (S n)
    ++ (if touch (assign_options o)
        then touch_listeners src_el (S n + List.length (mode_listeners mode src_el (S n)))
        else [])
  /\ bind s = mkBinding (assign_options o) src_el (or_default (o_target o) src_el)
                im false false (Some undefined_vars) false
  /\ reported (world s) = reported w
  /\ animations (world s) = animations w
  /\ calls (world s)
     = calls w ++ (if callback (assign_options o) then [Callback im] else [])
  /\ doc (world s) = append (or_default (o_target o) src_el) im (doc w)
  /\ (S n + List.length (mode_listeners mode src_el (S n))
      <= next_listener (world s))%nat.
Proof.
  intros Hd. unfold bound_and_loaded.
  destruct (@zoomImage_with_url src_el o w u url_given url_not_empty)
    as (B0 & L0 & N0 & R0 & A0 & C0 & D0).
  fold im in B0, L0. rewrite no_listeners in L0. cbn [app] in L0. fold n in L0, N0.
  generalize dependent (fst (zoomImage src_el o w)). intros s0 B0 L0 N0 R0 A0 C0 D0.
  cbv zeta.
  set (sF := on_world (set_flags false false) s0).
  assert (HF : listeners_for (El (img (bind s0)))
                 (ev_type (mkEvent load (mkPoint zero zero) 0 [] [])) sF
               = [mkListener n (El im) load on_load false]).
  { unfold listeners_for. change (listeners (world sF)) with (listeners (world s0)).
    rewrite L0, B0. cbn [img filter]. unfold listens.
    cbn [l_node l_type ev_type]. rewrite node_eqb_refl.
    destruct (evtype_eq_dec load load); [reflexivity | contradiction]. }
  assert (Hs : image_loaded s0
               = dispatch_at (El (img (bind s0)))
                   (mkEvent load (mkPoint zero zero) 0 [] []) sF).
  { reflexivity. }
  rewrite Hs.
  rewrite (@dispatch_at_single _ _ sF _ HF eq_refl).
  cbn [l_handler run_handler].
  assert (Hm : on (settings (bind sF)) = mode).
  { change (bind sF) with (bind s0). rewrite B0. reflexivity. }
  assert (Hfr : existsb (fun l => by_name (l_handler l)) (listeners (world sF)) = false).
  { change (listeners (world sF)) with (listeners (world s0)). rewrite L0.
    reflexivity. }
  assert (Hd' : String.eqb (on (settings (bind sF))) "toggle-drag" = false)
    by (rewrite Hm; exact Hd).
  destruct (@load_listener_obs sF Hd' Hfr) as (s3 & R & Hrun).
  rewrite Hrun.
  destruct (createZoom_obs sF) as (_ & L1 & N1 & C1 & R1 & A1 & _ & _ & B1 & D1).
  set (s1 := exec createZoom sF) in *. clearbody s1.
  unfold registers in R.
  change (listeners (world sF)) with (listeners (world s0)) in L1.
  change (next_listener (world sF)) with (next_listener (world s0)) in N1, R.
  change (bind sF) with (bind s0) in B1, D1, R |- *.
  change (reported (world sF)) with (reported (world s0)) in R1.
  change (animations (world sF)) with (animations (world s0)) in A1.
  change (calls (world sF)) with (calls (world s0)) in C1.
  change (doc (world sF)) with (doc (world s0)) in D1.
  rewrite B0 in B1, D1, R |- *. cbn [settings source img target set_zoom] in B1, D1, R |- *.
  rewrite N0 in R. fold mode in R.
  assert (Hobs : listeners (world s3)
                 = mkListener n (El im) load on_load false
                   :: mode_listeners mode src_el (S n)
                   ++ (if touch (assign_options o)
                       then touch_listeners src_el
                              (S n + List.length (mode_listeners mode src_el (S n)))
                       else [])
                 /\ bind s3 = mkBinding (assign_options o) src_el
                                (or_default (o_target o) src_el) im false false
                                (Some undefined_vars) false
                 /\ reported (world s3) = reported w
                 /\ animations (world s3) = animations w
                 /\ calls (world s3) = calls w
                 /\ doc (world s3) = append (or_default (o_target o) src_el) im (doc w)
                 /\ (S n + List.length (mode_listeners mode src_el (S n))
                     <= next_listener (world s3))%nat).
  { rewrite R.
    cbn [world bind listeners reported animations calls doc set_listeners
         next_listener].
    rewrite L1, L0, B1, R1, A1, C1, D1, N1, N0. cbn [app].
    repeat split; try congruence. rewrite length_app. lia. }
  destruct Hobs as (H1 & H2 & H3 & H4 & H5 & H6 & H7).
  destruct (callback (assign_options o));
    cbn [fst world bind on_world listeners reported animations calls doc set_calls
         next_listener];
    rewrite ?H5, ?app_nil_r; repeat split; assumption.
Qed.

End BoundAndLoaded.

Section ToggleClicks.

Lemma toggle_click_fades (s : State) (p : Point) :
  toggle_wired s -> fades_run s ->
  fades (dispatch (El (source (bind s))) (mouse click p) s)
  = fades s ++ [if clicked (bind s) then Fin zero else Fin (ofZ 1)].
Proof.
  intros H Hv.
  destruct (@toggle_click_step s p H Hv) as (_ & _ & _ & _ & _ & _ & _ & Hoff & Hon).
  set (s0 := on_world (set_flags false false) s) in *.
  assert (Hv0 : fades_run s0) by exact Hv.
  unfold fades. destruct (clicked (bind s)).
  - rewrite (Hon eq_refl). cbn [world on_bind].
    change (animations (world (exec (removeEventListener Document mousemove h_move)
                                 (exec stop s0))))
      with (animations (world (exec stop s0))).
    destruct (@stop_obs s0 Hv0) as (_ & _ & _ & A). rewrite A, map_app. reflexivity.
  - rewrite (Hoff eq_refl). cbn [world on_bind].
    destruct (add_frame Document mousemove h_move false (exec (start (Some p)) s0))
      as (_ & A' & _). rewrite A'.
    destruct (@start_obs p s0 Hv0) as (_ & _ & _ & _ & A). rewrite A, map_app.
    reflexivity.
Qed.

Lemma toggle_clicks (ps : list Point) :
  forall s, toggle_wired s -> fades_run s ->
  let s' := clicks_on_source ps s in
  toggle_wired s'
  /\ clicked (bind s') = xorb (clicked (bind s)) (Nat.odd (List.length ps))
  /\ fades s' = fades s ++ toggle_fades (clicked (bind s)) (List.length ps)
  /\ reported (world s') = reported (world s).
Proof.
  induction ps as [|p ps IH]; intros s H Hv.
  - cbn. rewrite xorb_false_r, app_nil_r. split; [exact H|]. repeat split.
  - cbn [clicks_on_source fold_left List.length].
    destruct (@toggle_click_step s p H Hv) as (H1 & C1 & _ & _ & S1 & _ & R1 & _).
    pose proof (@toggle_click_fades s p H Hv) as F1.
    set (s1 := dispatch (El (source (bind s))) (mouse click p) s) in *.
    assert (Hv1 : fades_run s1) by (unfold fades_run; rewrite S1; exact Hv).
    destruct (IH s1 H1 Hv1) as (H2 & C2 & F2 & R2).
    change (fold_left _ ps s1) with (clicks_on_source ps s1).
    split; [exact H2|]. split.
    + rewrite C2, C1, Nat.odd_succ, <- Nat.negb_odd.
      destruct (clicked (bind s)), (Nat.odd (List.length ps)); reflexivity.
    + split.
      * rewrite F2, F1, C1, <- app_assoc. reflexivity.
      * rewrite R2. exact R1.
Qed.

End ToggleClicks.

Lemma listens_type (n n' : node) (t t' : evtype) (h : handler) (i : nat) (o : bool) :
  t' <> t -> listens n t (mkListener i n' t' h o) = false.
Proof.
  intros H. unfold listens. cbn [l_type].
  destruct (evtype_eq_dec t' t); [contradiction | apply andb_false_r].
Qed.

Lemma listens_same (n : node) (t : evtype) (h : handler) (i : nat) (o : bool) :
  listens n t (mkListener i n t h o) = true.
Proof.
  unfold listens. cbn [l_node l_type]. rewrite node_eqb_refl.
  destruct (evtype_eq_dec t t); [reflexivity | contradiction].
Qed.

Lemma toggle_wired_loaded (src_el : elem) (o : Options) (w : World) (u : string) :
  listeners w = [] -> o_url o = Some u -> u <> "" ->
  on (assign_options o) = "toggle" ->
  toggle_wired (bound_and_loaded src_el o w)
  /\ clicked (bind (bound_and_loaded src_el o w)) = false
  /\ reported (world (bound_and_loaded src_el o w)) = reported w
  /\ animations (world (bound_and_loaded src_el o w)) = animations w.
Proof.
  intros Hl Hu Hne Hon.
  assert (Hd : String.eqb (on (assign_options o)) "toggle-drag" = false)
    by (rewrite Hon; reflexivity).
  destruct (@bound_and_loaded_obs src_el o w u Hl Hu Hne Hd)
    as (L & B & R & A & _ & _ & _).
  set (s := bound_and_loaded src_el o w) in *. clearbody s.
  rewrite Hon in L. cbn [mode_listeners String.eqb Ascii.eqb Bool.eqb app List.length]
    in L.
  split; [|split; [rewrite B; reflexivity | split; assumption]].
  unfold toggle_wired, listeners_for, registered. rewrite B, L.
  cbn [settings source clicked].
  split; [exact Hon|]. split; [|split].
  - exists (S (next_listener w)). cbn [filter].
    rewrite listens_type by discriminate. rewrite listens_same.
    destruct (touch (assign_options o)); [|reflexivity].
    cbn [touch_listeners filter]. rewrite !listens_type by discriminate.
    reflexivity.
  - destruct (touch (assign_options o)); reflexivity.
  - destruct (touch (assign_options o)); reflexivity.
Qed.

Lemma loaded_settings (src_el : elem) (o : Options) (w : World) (u : string) :
  listeners w = [] -> o_url o = Some u -> u <> "" ->
  String.eqb (on (assign_options o)) "toggle-drag" = false ->
  settings (bind (bound_and_loaded src_el o w)) = assign_options o.
Proof.
  intros Hl Hu Hne Hd.
  destruct (@bound_and_loaded_obs src_el o w u Hl Hu Hne Hd) as (_ & B & _).
  rewrite B. reflexivity.
Qed.

(** C5, for a duration [element.animate] takes (a number that is neither
    negative nor NaN).  In toggle mode a click on the source with [clicked]
    false runs [start] at the pointer, registers the document-wide move
    tracker and sets [clicked]; a click with [clicked] true runs [stop],
    removes the tracker and clears [clicked].  On a page bound in toggle
    mode, after any number of clicks, [clicked] is the parity of the number
    of clicks, the tracker is registered exactly when [clicked] holds, the
    fades started go to 1, 0, 1, ... in turn, and no click has thrown. *)
Theorem toggle_clicks_alternate
  (src_el : elem) (o : Options) (w : World) (u : string) (ps : list Point) :
  listeners w = [] -> o_url o = Some u -> u <> "" ->
  on (assign_options o) = "toggle" ->
  valid_duration (duration (assign_options o)) = true ->
  let s0 := bound_and_loaded src_el o w in
  let s' := clicks_on_source ps s0 in
  clicked (bind s0) = false
  /\ registered Document mousemove h_move s0 = false
  /\ (forall s p, toggle_wired s -> fades_run s ->
        let s1 := dispatch (El (source (bind s))) (mouse click p) s in
        toggle_wired s1
        /\ clicked (bind s1) = negb (clicked (bind s))
        /\ registered Document mousemove h_move s1 = negb (clicked (bind s))
        /\ (clicked (bind s) = false ->
            s1 = on_bind (fun b => set_clicked (negb (clicked b)) b)
                   (exec (addEventListener Document mousemove h_move false)
                      (exec (start (Some p)) (on_world (set_flags false false) s)))
            /\ fades s1 = fades s ++ [Fin (ofZ 1)])
        /\ (clicked (bind s) = true ->
            s1 = on_bind (fun b => set_clicked (negb (clicked b)) b)
                   (exec (removeEventListener Document mousemove h_move)
                      (exec stop (on_world (set_flags false false) s)))
            /\ fades s1 = fades s ++ [Fin zero]))
  /\ toggle_wired s'
  /\ clicked (bind s') = Nat.odd (List.length ps)
  /\ registered Document mousemove h_move s' = Nat.odd (List.length ps)
  /\ fades s' = fades s0 ++ toggle_fades false (List.length ps)
  /\ reported (world s') = reported w.
Proof.
  intros Hl Hu Hne Hon Hv s0 s'.
  destruct (@toggle_wired_loaded src_el o w u Hl Hu Hne Hon) as (W0 & C0 & R0 & _).
  assert (Hd : String.eqb (on (assign_options o)) "toggle-drag" = false)
    by (rewrite Hon; reflexivity).
  pose proof (@loaded_settings src_el o w u Hl Hu Hne Hd) as S0.
  fold s0 in W0, C0, R0, S0.
  assert (Hv0 : fades_run s0) by (unfold fades_run; rewrite S0; exact Hv).
  destruct (@toggle_clicks ps s0 W0 Hv0) as (W' & C' & F' & R').
  fold s' in W', C', F', R'.
  rewrite C0 in C', F'. cbn [xorb] in C'.
  split; [exact C0|].
  split; [destruct W0 as (_ & _ & _ & Hr); rewrite Hr; exact C0|].
  split.
  { intros s p Hw Hvs s1.
    destruct (@toggle_click_step s p Hw Hvs)
      as (W1 & C1 & _ & _ & _ & _ & _ & Hoff & Hon').
    pose proof (@toggle_click_fades s p Hw Hvs) as F1.
    fold s1 in W1, C1, Hoff, Hon', F1.
    split; [exact W1|]. split; [exact C1|].
    split; [destruct W1 as (_ & _ & _ & Hr); rewrite Hr; exact C1|].
    split.
    - intros Hc. split; [exact (Hoff Hc)|]. rewrite F1, Hc. reflexivity.
    - intros Hc. split; [exact (Hon' Hc)|]. rewrite F1, Hc. reflexivity. }
  split; [exact W'|]. split; [exact C'|].
  split; [destruct W' as (_ & _ & _ & Hr); rewrite Hr; exact C'|].
  split; [exact F'|]. rewrite R'. exact R0.
Qed.
Lemma toggle_clicks_alternate_witness :
  let o := with_on "toggle" (with_url "large.jpg" no_options) in
  (listeners sample_page = [] /\ o_url o = Some "large.jpg"
   /\ "large.jpg" <> "" /\ on (assign_options o) = "toggle"
   /\ valid_duration (duration (assign_options o)) = true)
  /\ clicked (bind (clicks_on_source [at_60_60; at_60_60; at_60_60]
                      (bound_and_loaded 1%nat o sample_page)))
     = Nat.odd 3.
Proof.
  intros o.
  assert (H : "large.jpg" <> "") by discriminate.
  assert (Hv : valid_duration (duration (assign_options o)) = true)
    by (vm_compute; reflexivity).
  split; [repeat split; first [exact H | exact Hv]|].
  destruct (@toggle_clicks_alternate 1%nat o sample_page "large.jpg"
              [at_60_60; at_60_60; at_60_60] eq_refl eq_refl H eq_refl Hv)
    as (_ & _ & _ & _ & Hc & _).
  exact Hc.
Defined.

(** C5 as the claim words it, for every duration.  The sample page bound
    in toggle mode with the duration -1: [element.animate] refuses the
    duration, so the first click throws in [start].  After that one click
    [clicked] is still false, the tracker is not registered, no fade was
    started, and the TypeError is all the click leaves. *)
Lemma toggle_click_at_negative_duration_does_not_flip :
  let o := mkOptions (Some "large.jpg") None (Some (Fin (ofZ (-1)))) (Some "toggle")
             None None false false false in
  let s0 := bound_and_loaded 1%nat o sample_page in
  let s1 := clicks_on_source [at_60_60] s0 in
  on (settings (bind s0)) = "toggle"
  /\ clicked (bind s0) = false
  /\ clicked (bind s1) = false
  /\ Nat.odd (List.length [at_60_60]) = true
  /\ registered Document mousemove h_move s1 = false
  /\ fades s1 = []
  /\ reported (world s1) = [animate_error].
Proof. cbv zeta. repeat apply conj; vm_compute; reflexivity. Qed.

(** ** The click mode *)

Section ClickMode.

Lemma dispatch_at_single_once (n : node) (e : Event) (s : State) (l : Listener) :
  listeners_for n (ev_type e) s = [l] -> l_once l = true ->
  dispatch_at n e s
  = match run_handler (l_handler l) e (unregister (l_id l) s) with
    | (s2, Ok _) => s2
    | (s2, Throw x) => report x s2
    end.
Proof.
  intros Hl Ho. unfold dispatch_at. fold (listeners_for n (ev_type e) s).
  rewrite Hl. cbn [fold_left]. unfold invoke.
  rewrite (@has_id_listener s n (ev_type e) l) by (rewrite Hl; left; reflexivity).
  rewrite Ho. reflexivity.
Qed.

Lemma filter_comm (A : Type) (f g : A -> bool) (l : list A) :
  filter f (filter g l) = filter g (filter f l).
Proof.
  induction l as [|x l IH]; [reflexivity|].
  cbn [filter]. destruct (f x) eqn:F, (g x) eqn:G; cbn [filter];
    rewrite ?F, ?G, IH; reflexivity.
Qed.

Lemma listeners_for_unregister (n : node) (t : evtype) (j : nat) (s : State) :
  listeners_for n t (unregister j s)
  = filter (fun l => negb (Nat.eqb (l_id l) j)) (listeners_for n t s).
Proof. unfold listeners_for, unregister. cbn. apply filter_comm. Qed.

Lemma next_listener_add (n : node) (t : evtype) (h : handler) (o : bool) (s : State) :
  (next_listener (world s)
   <= next_listener (world (exec (addEventListener n t h o) s)))%nat.
Proof.
  unfold exec, addEventListener, modify, on_world. cbn [fst world].
  destruct (by_name h && existsb (same_registration n t h) (listeners (world s)));
    cbn; lia.
Qed.

Lemma run_add (n : node) (t : evtype) (h : handler) (o : bool) (s : State) :
  addEventListener n t h o s = (exec (addEventListener n t h o) s, Ok tt).
Proof. reflexivity. Qed.

Lemma run_remove (n : node) (t : evtype) (h : handler) (s : State) :
  removeEventListener n t h s = (exec (removeEventListener n t h) s, Ok tt).
Proof. reflexivity. Qed.

Lemma run_preventDefault (s : State) :
  preventDefault s = (exec preventDefault s, Ok tt).
Proof. reflexivity. Qed.

Lemma run_stopPropagation (s : State) :
  stopPropagation s = (exec stopPropagation s, Ok tt).
Proof. reflexivity. Qed.

Lemma run_modify (f : State -> State) (s : State) : modify f s = (f s, Ok tt).
Proof. reflexivity. Qed.

Lemma run_start (p : Point) (s : State) :
  fades_run s ->
  start (Some p) s = (exec (start (Some p)) s, Ok tt).
Proof. intros Hv. apply run_unit. rewrite start_threw, Hv. reflexivity. Qed.

Lemma run_stop (s : State) :
  fades_run s -> stop s = (exec stop s, Ok tt).
Proof. intros Hv. apply run_unit. rewrite stop_threw, Hv. reflexivity. Qed.

(** The source's click listener while idle: it arms. *)
Lemma click_source_idle (p : Point) (s : State) :
  fades_run s ->
  clicked (bind s) = false ->
  run_handler click_source (mouse click p) s
  = (exec stopPropagation
       (exec preventDefault
          (exec (addEventListener Document click click_document true)
             (exec (addEventListener Document mousemove h_move false)
                (exec (start (Some p)) (on_bind (set_clicked true) s))))), Ok tt).
Proof.
  intros Hv Hc. cbn [run_handler]. unfold bindM at 1, get. rewrite Hc.
  cbn [ev_point mouse].
  rewrite (@bindM_ok _ _ _ _ _ _ tt (run_modify _ s)).
  rewrite (@bindM_ok _ _ _ _ _ _ tt
             (@run_start p (on_bind (set_clicked true) s) Hv)).
  rewrite (@bindM_ok _ _ _ _ _ _ tt (run_add _ _ _ _ _)).
  rewrite (@bindM_ok _ _ _ _ _ _ tt (run_add _ _ _ _ _)).
  rewrite (@bindM_ok _ _ _ _ _ _ tt (run_preventDefault _)).
  apply run_stopPropagation.
Qed.

(** The source's click listener while armed: it returns at once. *)
Lemma click_source_armed (p : Point) (s : State) :
  clicked (bind s) = true ->
  run_handler click_source (mouse click p) s = (s, Ok tt).
Proof.
  intros Hc. cbn [run_handler]. unfold bindM at 1, get. rewrite Hc. reflexivity.
Qed.

(** The document's one-shot click listener. *)
Lemma click_document_run (e : Event) (s : State) :
  fades_run s ->
  run_handler click_document e s
  = (exec (removeEventListener Document mousemove h_move)
       (on_bind (set_clicked false) (exec stop s)), Ok tt).
Proof.
  intros Hv. cbn [run_handler].
  rewrite (@bindM_ok _ _ _ _ _ _ tt (@run_stop s Hv)).
  rewrite (@bindM_ok _ _ _ _ _ _ tt (run_modify _ _)).
  apply run_remove.
Qed.

End ClickMode.

Section ClickSteps.

Lemma listeners_for_registers (added : list Listener) (s s' : State)
  (n : node) (t : evtype) :
  registers added s s' ->
  listeners_for n t s' = listeners_for n t s ++ filter (listens n t) added.
Proof.
  unfold registers, listeners_for. intros ->.
  cbn [world listeners set_listeners]. apply filter_app.
Qed.

Lemma click_wired_flags (a b : bool) (s : State) :
  click_wired s -> click_wired (on_world (set_flags a b) s).
Proof. intros H. exact H. Qed.

Lemma fades_snoc (s s' : State) (a : Animation) :
  animations (world s') = animations (world s) ++ [a] ->
  fades s' = fades s ++ [a_opacity a].
Proof. intros H. unfold fades. rewrite H, map_app. reflexivity. Qed.

(** The document's one-shot listener runs: it stops, clears [clicked] and
    removes the tracker, and is itself gone. *)
Lemma document_click_disarms (s : State) (p : Point) :
  click_wired s -> fades_run s -> clicked (bind s) = true ->
  let s1 := dispatch_at Document (mouse click p) s in
  (exists j, s1 = exec (removeEventListener Document mousemove h_move)
                    (on_bind (set_clicked false) (exec stop (unregister j s))))
  /\ click_wired s1
  /\ clicked (bind s1) = false
  /\ fades s1 = fades s ++ [Fin zero]
  /\ registered Document mousemove h_move s1 = false
  /\ listeners_for Document click s1 = []
  /\ reported (world s1) = reported (world s)
  /\ propagationStopped (world s1) = propagationStopped (world s).
Proof.
  intros (Hon & (i & Hsrc & Hlt & _ & Harmed) & Hreg) Hv Hc s1.
  destruct (Harmed Hc) as (j & Hji & Hdoc).
  set (Lj := mkListener j Document click click_document true) in *.
  assert (Hs1 : s1 = exec (removeEventListener Document mousemove h_move)
                       (on_bind (set_clicked false) (exec stop (unregister j s)))).
  { unfold s1.
    rewrite (@dispatch_at_single_once Document (mouse click p) s Lj Hdoc eq_refl).
    cbn [l_handler l_id Lj].
    rewrite (@click_document_run (mouse click p) (unregister j s) Hv).
    reflexivity. }
  set (sU := unregister j s) in *.
  assert (HvU : fades_run sU) by exact Hv.
  destruct (@stop_obs sU HvU) as (_ & WA & BA & AA).
  set (sA := exec stop sU) in *.
  set (sB := on_bind (set_clicked false) sA) in *.
  assert (HdocU : listeners_for Document click sU = []).
  { unfold sU. rewrite listeners_for_unregister, Hdoc. cbn [filter Lj l_id].
    rewrite Nat.eqb_refl. reflexivity. }
  assert (HsrcU : listeners_for (El (source (bind s))) click sU
                  = [mkListener i (El (source (bind s))) click click_source false]).
  { unfold sU. rewrite listeners_for_unregister, Hsrc. cbn [filter l_id].
    assert (E : Nat.eqb i j = false) by (apply Nat.eqb_neq; congruence).
    rewrite E. reflexivity. }
  assert (Hb : bind s1 = set_clicked false (bind s)).
  { rewrite Hs1. change (bind sA = bind s) in BA.
    change (set_clicked false (bind sA) = set_clicked false (bind s)).
    rewrite BA. reflexivity. }
  assert (Hdoc1 : listeners_for Document click s1 = []).
  { rewrite Hs1. rewrite listeners_for_remove by reflexivity.
    change (listeners_for Document click sA = []).
    rewrite (@listeners_for_wiring Document click sA sU WA). exact HdocU. }
  split; [exists j; exact Hs1|].
  split.
  { unfold click_wired. rewrite Hb. cbn [settings source clicked set_clicked].
    split; [exact Hon|]. split.
    - exists i. split; [|split; [|split]].
      + rewrite Hs1. rewrite listeners_for_remove by reflexivity.
        change (listeners_for (El (source (bind s))) click sA
                = [mkListener i (El (source (bind s))) click click_source false]).
        rewrite (@listeners_for_wiring _ click sA sU WA). exact HsrcU.
      + rewrite Hs1. change (i < next_listener (world sA))%nat.
        destruct WA as (_ & Hn & _). rewrite Hn. exact Hlt.
      + intros _. exact Hdoc1.
      + intros D. discriminate D.
    - rewrite Hs1. apply registered_after_remove. }
  split; [rewrite Hb; reflexivity|].
  split.
  { rewrite Hs1. change (fades sA = fades s ++ [Fin zero]).
    apply (@fades_snoc sU sA _ AA). }
  split; [rewrite Hs1; apply registered_after_remove|].
  split; [exact Hdoc1|].
  rewrite Hs1. split.
  - change (reported (world sA) = reported (world s)).
    destruct WA as (_ & _ & _ & _ & Hr & _). rewrite Hr. reflexivity.
  - change (propagationStopped (world sA) = propagationStopped (world s)).
    destruct WA as (_ & _ & _ & _ & _ & _ & Hp). rewrite Hp. reflexivity.
Qed.

End ClickSteps.

Lemma listens_same' (n : node) (t : evtype) (h : handler) (i : nat) (o : bool) :
  filter (listens n t) [mkListener i n t h o] = [mkListener i n t h o].
Proof. cbn [filter]. rewrite listens_same. reflexivity. Qed.

Section ClickArms.

(** A click on the idle source: it arms and its propagation is stopped. *)
Lemma click_arms (s : State) (p : Point) :
  click_wired s -> fades_run s -> clicked (bind s) = false ->
  let s0 := on_world (set_flags false false) s in
  let s1 := dispatch (El (source (bind s))) (mouse click p) s in
  s1 = exec stopPropagation
         (exec preventDefault
            (exec (addEventListener Document click click_document true)
               (exec (addEventListener Document mousemove h_move false)
                  (exec (start (Some p)) (on_bind (set_clicked true) s0)))))
  /\ click_wired s1
  /\ clicked (bind s1) = true
  /\ fades s1 = fades s ++ [Fin (ofZ 1)]
  /\ registered Document mousemove h_move s1 = true
  /\ (exists j, listeners_for Document click s1
                = [mkListener j Document click click_document true])
  /\ reported (world s1) = reported (world s)
  /\ propagationStopped (world s1) = true
  /\ defaultPrevented (world s1) = true.
Proof.
  intros (Hon & (i & Hsrc & Hlt & Hidle & _) & Hreg) Hv Hc s0 s1.
  assert (Hv0 : fades_run s0) by exact Hv.
  set (Li := mkListener i (El (source (bind s))) click click_source false) in *.
  set (sa := on_bind (set_clicked true) s0).
  set (sb := exec (start (Some p)) sa).
  set (sc := exec (addEventListener Document mousemove h_move false) sb).
  set (sd := exec (addEventListener Document click click_document true) sc).
  set (sf := exec stopPropagation (exec preventDefault sd)).
  assert (Hd : dispatch_at (El (source (bind s0))) (mouse click p) s0 = sf).
  { rewrite (@dispatch_at_single (El (source (bind s0))) (mouse click p) s0 Li
               Hsrc eq_refl).
    cbn [l_handler Li]. rewrite (@click_source_idle p s0 Hv0 Hc). reflexivity. }
  assert (Hs1 : s1 = sf).
  { unfold s1, dispatch. fold s0. change (source (bind s)) with (source (bind s0)).
    rewrite Hd. reflexivity. }
  assert (Hva : fades_run sa) by exact Hv.
  destruct (@start_obs p sa Hva) as (_ & WB & BB & _ & AB). fold sb in WB, BB, AB.
  destruct BB as (B1 & B2 & B3 & B4 & B5 & B6).
  change (bind sa) with (set_clicked true (bind s)) in B1, B2, B3, B4, B5, B6.
  cbn [settings source target img clicked touched set_clicked] in B1, B2, B3, B4, B5, B6.
  destruct (add_frame Document mousemove h_move false sb) as (BC & AC & RC & _).
  fold sc in BC, AC, RC.
  destruct (add_frame Document click click_document true sc) as (BD & AD & RD & _).
  fold sd in BD, AD, RD.
  pose proof (@registers_add Document click click_document true sc (or_introl eq_refl))
    as RegD. fold sd in RegD.
  set (j := next_listener (world sc)) in *.
  assert (Hsb : forall n t, listeners_for n t sb = listeners_for n t s).
  { intros n t. apply (@listeners_for_wiring n t sb sa WB). }
  assert (Hnb : next_listener (world sb) = next_listener (world s)).
  { destruct WB as (_ & Hn & _). exact Hn. }
  assert (Hnc : (next_listener (world s) <= j)%nat).
  { unfold j, sc. rewrite <- Hnb. apply next_listener_add. }
  assert (HsrcD : listeners_for (El (source (bind s))) click sd = [Li]).
  { rewrite (listeners_for_registers _ _ RegD). cbn [filter listens l_node node_eqb andb].
    rewrite app_nil_r. unfold sc. rewrite listeners_for_add by reflexivity.
    rewrite Hsb. exact Hsrc. }
  assert (HdocD : listeners_for Document click sd
                  = [mkListener j Document click click_document true]).
  { rewrite (listeners_for_registers _ _ RegD). rewrite listens_same'.
    unfold sc. rewrite listeners_for_add by reflexivity.
    rewrite Hsb, (Hidle Hc). reflexivity. }
  assert (HregD : registered Document mousemove h_move sd = true).
  { rewrite (registered_registers _ _ _ RegD). unfold sc.
    rewrite registered_after_add. reflexivity. }
  assert (Hbf : bind sf = bind sb).
  { change (bind sd = bind sb). rewrite BD, BC. reflexivity. }
  rewrite Hs1.
  split; [reflexivity|].
  split.
  { unfold click_wired. rewrite Hbf, B1, B2, B5.
    split; [exact Hon|]. split.
    - exists i. split; [exact HsrcD|]. split.
      + change (i < next_listener (world sd))%nat. rewrite RegD.
        cbn [world next_listener set_listeners List.length]. fold j. lia.
      + split; [intros D; discriminate D|].
        intros _. exists j. split; [lia | exact HdocD].
    - exact HregD. }
  split; [rewrite Hbf; exact B5|].
  split.
  { change (fades sd = fades s ++ [Fin (ofZ 1)]). unfold fades.
    rewrite AD, AC, AB, map_app. reflexivity. }
  split; [exact HregD|].
  split; [exists j; exact HdocD|].
  split; [|split; reflexivity].
  change (reported (world sd) = reported (world s)). rewrite RD, RC.
  destruct WB as (_ & _ & _ & _ & Hr & _). rewrite Hr. reflexivity.
Qed.

End ClickArms.

Lemma click_wired_loaded (src_el : elem) (o : Options) (w : World) (u : string) :
  listeners w = [] -> o_url o = Some u -> u <> "" ->
  on (assign_options o) = "click" ->
  click_wired (bound_and_loaded src_el o w)
  /\ clicked (bind (bound_and_loaded src_el o w)) = false.
Proof.
  intros Hl Hu Hne Hon.
  assert (Hd : String.eqb (on (assign_options o)) "toggle-drag" = false)
    by (rewrite Hon; reflexivity).
  destruct (@bound_and_loaded_obs src_el o w u Hl Hu Hne Hd)
    as (L & B & R & A & _ & _ & N).
  set (s := bound_and_loaded src_el o w) in *. clearbody s.
  rewrite Hon in L, N.
  cbn [mode_listeners String.eqb Ascii.eqb Bool.eqb app List.length] in L, N.
  split; [|rewrite B; reflexivity].
  unfold click_wired, listeners_for, registered. rewrite B, L.
  cbn [settings source clicked].
  split; [exact Hon|]. split.
  - exists (S (next_listener w)). cbn [filter].
    rewrite listens_type by discriminate. rewrite listens_same.
    split; [|split; [lia|split]].
    + destruct (touch (assign_options o)); [|reflexivity].
      cbn [touch_listeners filter]. rewrite !listens_type by discriminate.
      reflexivity.
    + intros _. destruct (touch (assign_options o)); reflexivity.
    + intros D. discriminate D.
  - destruct (touch (assign_options o)); reflexivity.
Qed.

(** C6, for a duration [element.animate] takes (a number that is neither
    negative nor NaN).  On a page bound in click mode, nothing is armed at
    first, and the settings are the options over the defaults.  A click
    on the source while [clicked] is false sets [clicked], runs [start] at
    the pointer, registers the document-wide move tracker and a one-shot
    click listener on the document, and stops the propagation of the click:
    the one-shot listener is still registered after the click and no fade
    to 0 was started.  A click on the source while [clicked] is true is
    left alone by the source's listener, which changes nothing and does not
    run [stop]; the click reaches the document, whose one-shot listener runs
    [stop], clears [clicked], removes the tracker, and is gone.  A click
    elsewhere in the document while [clicked] is true does the same. *)
Theorem click_mode_arms_and_disarms
  (src_el : elem) (o : Options) (w : World) (u : string) :
  listeners w = [] -> o_url o = Some u -> u <> "" ->
  on (assign_options o) = "click" ->
  let s0 := bound_and_loaded src_el o w in
  click_wired s0
  /\ clicked (bind s0) = false
  /\ settings (bind s0) = assign_options o
  /\ (forall s p, click_wired s -> fades_run s -> clicked (bind s) = false ->
        let s1 := dispatch (El (source (bind s))) (mouse click p) s in
        s1 = exec stopPropagation
               (exec preventDefault
                  (exec (addEventListener Document click click_document true)
                     (exec (addEventListener Document mousemove h_move false)
                        (exec (start (Some p))
                           (on_bind (set_clicked true)
                              (on_world (set_flags false false) s))))))
        /\ click_wired s1
        /\ clicked (bind s1) = true
        /\ fades s1 = fades s ++ [Fin (ofZ 1)]
        /\ registered Document mousemove h_move s1 = true
        /\ (exists j, listeners_for Document click s1
                      = [mkListener j Document click click_document true])
        /\ propagationStopped (world s1) = true)
  /\ (forall s p, click_wired s -> fades_run s -> clicked (bind s) = true ->
        let sF := on_world (set_flags false false) s in
        let s1 := dispatch (El (source (bind s))) (mouse click p) s in
        let s2 := dispatch Document (mouse click p) s in
        dispatch_at (El (source (bind s))) (mouse click p) sF = sF
        /\ s1 = s2
        /\ (exists j, s1 = exec (removeEventListener Document mousemove h_move)
                             (on_bind (set_clicked false)
                                (exec stop (unregister j sF))))
        /\ click_wired s1
        /\ clicked (bind s1) = false
        /\ fades s1 = fades s ++ [Fin zero]
        /\ registered Document mousemove h_move s1 = false
        /\ listeners_for Document click s1 = []).
Proof.
  intros Hl Hu Hne Hon s0.
  destruct (@click_wired_loaded src_el o w u Hl Hu Hne Hon) as (W0 & C0).
  split; [exact W0|]. split; [exact C0|].
  split.
  { apply (@loaded_settings src_el o w u Hl Hu Hne).
    rewrite Hon. reflexivity. }
  split.
  - intros s p Hw Hv Hc s1.
    destruct (@click_arms s p Hw Hv Hc) as (E & W1 & C1 & F1 & R1 & D1 & _ & P1 & _).
    split; [exact E|]. split; [exact W1|]. split; [exact C1|].
    split; [exact F1|]. split; [exact R1|]. split; [exact D1 | exact P1].
  - intros s p Hw Hv Hc sF s1 s2.
    assert (HwF : click_wired sF) by exact Hw.
    assert (HvF : fades_run sF) by exact Hv.
    destruct Hw as (_ & (i & Hsrc & _) & _).
    assert (Hsrc_run : dispatch_at (El (source (bind s))) (mouse click p) sF = sF).
    { rewrite (@dispatch_at_single (El (source (bind s))) (mouse click p) sF _
                 Hsrc eq_refl).
      cbn [l_handler]. rewrite (@click_source_armed p sF Hc). reflexivity. }
    assert (H1 : s1 = dispatch_at Document (mouse click p) sF).
    { unfold s1, dispatch. fold sF. rewrite Hsrc_run. reflexivity. }
    assert (H2 : s2 = dispatch_at Document (mouse click p) sF) by reflexivity.
    destruct (@document_click_disarms sF p HwF HvF Hc)
      as (E & W1 & C1 & F1 & R1 & D1 & _).
    rewrite <- H1 in E, W1, C1, F1, R1, D1.
    split; [exact Hsrc_run|]. split; [rewrite H1, H2; reflexivity|].
    split; [exact E|]. split; [exact W1|]. split; [exact C1|].
    split; [exact F1|]. split; [exact R1 | exact D1].
Qed.
Lemma click_mode_arms_and_disarms_witness :
  let o := with_on "click" (with_url "large.jpg" no_options) in
  let s0 := bound_and_loaded 1%nat o sample_page in
  (listeners sample_page = [] /\ o_url o = Some "large.jpg"
   /\ "large.jpg" <> "" /\ on (assign_options o) = "click"
   /\ valid_duration (duration (assign_options o)) = true)
  /\ clicked (bind (dispatch (El (source (bind s0))) (mouse click at_60_60) s0))
     = true.
Proof.
  intros o s0.
  assert (H : "large.jpg" <> "") by discriminate.
  assert (Hv : valid_duration (duration (assign_options o)) = true)
    by (vm_compute; reflexivity).
  split; [repeat split; first [exact H | exact Hv]|].
  pose proof (@click_mode_arms_and_disarms 1%nat o sample_page "large.jpg"
                eq_refl eq_refl H eq_refl) as T.
  cbv zeta in T. destruct T as (W0 & C0 & S0 & Harm & _).
  subst s0. revert W0 C0 S0. generalize (bound_and_loaded 1%nat o sample_page).
  intros s0 W0 C0 S0.
  assert (Hv0 : fades_run s0) by (unfold fades_run; rewrite S0; exact Hv).
  destruct (Harm s0 at_60_60 W0 Hv0 C0) as (_ & _ & Hc & _).
  exact Hc.
Defined.

(** C6 as the claim words it, for every duration.  The sample page bound
    in click mode with the duration -1: the first click on the source sets
    [clicked] and throws in [start], so it attaches neither the tracker nor
    the one-shot click listener and does not stop its propagation.  A
    second click finds [clicked] set and no listener on the document:
    nothing runs [stop] or clears [clicked]. *)
Lemma click_at_negative_duration_arms_nothing :
  let o := mkOptions (Some "large.jpg") None (Some (Fin (ofZ (-1)))) (Some "click")
             None None false false false in
  let s0 := bound_and_loaded 1%nat o sample_page in
  let s1 := dispatch (El 1%nat) (mouse click at_60_60) s0 in
  let s2 := dispatch (El 1%nat) (mouse click at_60_60) s1 in
  on (settings (bind s0)) = "click"
  /\ clicked (bind s0) = false
  /\ clicked (bind s1) = true
  /\ registered Document mousemove h_move s1 = false
  /\ listeners_for Document click s1 = []
  /\ propagationStopped (world s1) = false
  /\ fades s1 = []
  /\ reported (world s1) = [animate_error]
  /\ clicked (bind s2) = true
  /\ fades s2 = []
  /\ listeners (world s2) = listeners (world s1).
Proof. cbv zeta. repeat apply conj; vm_compute; reflexivity. Qed.

(** ** The touch fallback *)

Section TouchHandlers.

Variables (s : State) (p : Point).

Lemma touch_start_suppressed (e : Event) :
  touch_suppressed s = true -> run_handler touch_start e s = (s, Ok tt).
Proof.
  intros H. cbn [run_handler]. unfold bindM at 1, get.
  unfold touch_suppressed in H. rewrite H. reflexivity.
Qed.

Lemma touch_start_idle (t : evtype) :
  touch_suppressed s = false -> touched (bind s) = false ->
  run_handler touch_start (touch_at t p) s
  = start (Some p) (on_bind (set_touched true) (exec preventDefault s)).
Proof.
  intros H Ht. cbn [run_handler]. unfold bindM at 1, get.
  unfold touch_suppressed in H. rewrite H, Ht.
  rewrite (@bindM_ok _ _ _ _ _ _ tt (run_preventDefault s)).
  rewrite (@bindM_ok _ _ _ _ _ _ tt (run_modify _ _)).
  reflexivity.
Qed.

Lemma touch_start_active (e : Event) :
  touch_suppressed s = false -> touched (bind s) = true ->
  run_handler touch_start e s
  = stop (on_bind (set_touched false) (exec preventDefault s)).
Proof.
  intros H Ht. cbn [run_handler]. unfold bindM at 1, get.
  unfold touch_suppressed in H. rewrite H, Ht.
  rewrite (@bindM_ok _ _ _ _ _ _ tt (run_preventDefault s)).
  rewrite (@bindM_ok _ _ _ _ _ _ tt (run_modify _ _)).
  reflexivity.
Qed.

Lemma touch_move_ignored (e : Event) :
  touched (bind s) = false -> clicked (bind s) = false ->
  run_handler touch_move e s = (s, Ok tt).
Proof.
  intros Ht Hc. cbn [run_handler]. unfold bindM at 1, get.
  rewrite Ht, Hc. reflexivity.
Qed.

Lemma touch_move_tracks (t : evtype) :
  touched (bind s) = true \/ clicked (bind s) = true ->
  run_handler touch_move (touch_at t p) s
  = move (Some p) (exec preventDefault s).
Proof.
  intros H. cbn [run_handler]. unfold bindM at 1, get.
  assert (E : negb (touched (bind s)) && negb (clicked (bind s)) = false).
  { destruct H as [-> | ->]; [reflexivity | apply andb_false_r]. }
  rewrite E.
  rewrite (@bindM_ok _ _ _ _ _ _ tt (run_preventDefault s)). reflexivity.
Qed.

Lemma touch_end_active (e : Event) :
  touched (bind s) = true ->
  run_handler touch_end e s
  = stop (on_bind (set_touched false) (exec preventDefault s)).
Proof.
  intros Ht. cbn [run_handler].
  rewrite (@bindM_ok _ _ _ _ _ _ tt (run_preventDefault s)).
  unfold bindM at 1, get.
  change (touched (bind (exec preventDefault s))) with (touched (bind s)).
  rewrite Ht. unfold when.
  rewrite (@bindM_ok _ _ _ _ _ _ tt (run_modify _ _)).
  reflexivity.
Qed.

Lemma touch_end_idle (e : Event) :
  touched (bind s) = false ->
  run_handler touch_end e s = (exec preventDefault s, Ok tt).
Proof.
  intros Ht. cbn [run_handler].
  rewrite (@bindM_ok _ _ _ _ _ _ tt (run_preventDefault s)).
  unfold bindM at 1, get.
  change (touched (bind (exec preventDefault s))) with (touched (bind s)).
  rewrite Ht. reflexivity.
Qed.

End TouchHandlers.

Section TouchDispatch.

Lemma listeners_for_same (n : node) (t : evtype) (s1 s2 : State) :
  listeners (world s1) = listeners (world s2) ->
  listeners_for n t s1 = listeners_for n t s2.
Proof. intros H. unfold listeners_for. rewrite H. reflexivity. Qed.

(** An event at the source with one listener there and none on the
    document: the dispatch is the run of that listener. *)
Lemma dispatch_source_only (s s1 : State) (e : Event) (l : Listener) :
  listeners_for (El (source (bind s))) (ev_type e) s = [l] ->
  l_once l = false ->
  run_handler (l_handler l) e (on_world (set_flags false false) s) = (s1, Ok tt) ->
  listeners_for Document (ev_type e) s1 = [] ->
  dispatch (El (source (bind s))) e s = s1.
Proof.
  intros Hl Ho Hr Hd. unfold dispatch.
  set (sF := on_world (set_flags false false) s) in *.
  rewrite (@dispatch_at_single (El (source (bind s))) e sF l Hl Ho), Hr.
  destruct (bubbles (ev_type e) && negb (propagationStopped (world s1)));
    [apply dispatch_at_none; exact Hd | reflexivity].
Qed.

(** The same when the listener's body may throw: what it throws is
    reported. *)
Lemma dispatch_source_settle (s sa : State) (e : Event) (l : Listener) (c : M unit) :
  listeners_for (El (source (bind s))) (ev_type e) s = [l] ->
  l_once l = false ->
  run_handler (l_handler l) e (on_world (set_flags false false) s) = c sa ->
  listeners_for Document (ev_type e) (settle c sa) = [] ->
  dispatch (El (source (bind s))) e s = settle c sa.
Proof.
  intros Hl Ho Hr Hd. unfold dispatch.
  set (sF := on_world (set_flags false false) s) in *.
  rewrite (@dispatch_at_single (El (source (bind s))) e sF l Hl Ho), Hr.
  change (match c sa with
          | (s2, Ok _) => s2
          | (s2, Throw x) => report x s2
          end) with (settle c sa).
  destruct (bubbles (ev_type e) && negb (propagationStopped (world (settle c sa))));
    [apply dispatch_at_none; exact Hd | reflexivity].
Qed.

Lemma touch_wired_same (s s1 : State) :
  listeners (world s1) = listeners (world s) ->
  source (bind s1) = source (bind s) ->
  touch_wired s -> touch_wired s1.
Proof.
  intros Hl Hs (H1 & H2 & H3 & H4 & H5 & H6).
  unfold touch_wired. rewrite Hs.
  rewrite !(@listeners_for_same _ _ s1 s Hl).
  repeat split; assumption.
Qed.

Variables (s : State) (p : Point).
Hypothesis wired : touch_wired s.

Let sF := on_world (set_flags false false) s.
Let src_el := source (bind s).

(** Touch-start in click or toggle mode: nothing runs. *)
Lemma touchstart_suppressed :
  touch_suppressed s = true ->
  dispatch (El src_el) (touch_at touchstart p) s = sF.
Proof.
  intros H. destruct wired as ((i & H1) & _ & _ & H4 & _).
  apply (@dispatch_source_only s sF (touch_at touchstart p) _ H1 eq_refl).
  - cbn [l_handler]. apply touch_start_suppressed. exact H.
  - exact H4.
Qed.

(** Touch-start elsewhere, not yet touched: [touched] is set and [start]
    runs at the touch point; what [start] throws is reported. *)
Lemma touchstart_starts :
  touch_suppressed s = false -> touched (bind s) = false ->
  let sa := on_bind (set_touched true) (exec preventDefault sF) in
  let s1 := dispatch (El src_el) (touch_at touchstart p) s in
  s1 = settle (start (Some p)) sa
  /\ touch_wired s1
  /\ touched (bind s1) = true
  /\ clicked (bind s1) = clicked (bind s)
  /\ settings (bind s1) = settings (bind s)
  /\ zoom (bind s1) = Some (init_vars (world s) (set_touched true (bind s)))
  /\ defaultPrevented (world s1) = true
  /\ (fades_run s ->
      s1 = exec (start (Some p)) sa
      /\ fades s1 = fades s ++ [Fin (ofZ 1)]
      /\ reported (world s1) = reported (world s))
  /\ (valid_duration (duration (settings (bind s))) = false ->
      fades s1 = fades s
      /\ reported (world s1) = reported (world s) ++ [animate_error]).
Proof.
  intros H Ht sa s1.
  destruct (settle_start p sa) as (WL & _ & B & Z & WD & _ & Hok & Hbad).
  set (sb := settle (start (Some p)) sa) in *.
  destruct B as (B1 & B2 & B3 & B4 & B5 & B6).
  assert (Hs1 : s1 = sb).
  { unfold s1. destruct wired as ((i & H1) & _ & _ & H4 & _).
    apply (@dispatch_source_settle s sa (touch_at touchstart p) _ (start (Some p))
             H1 eq_refl).
    - cbn [l_handler]. apply (@touch_start_idle sF p touchstart H Ht).
    - cbn [ev_type touch_at]. fold sb.
      rewrite (@listeners_for_same Document touchstart sb s WL). exact H4. }
  rewrite Hs1.
  split; [reflexivity|].
  split; [apply (@touch_wired_same s sb WL B2 wired)|].
  split; [rewrite B6; reflexivity|].
  split; [rewrite B5; reflexivity|].
  split; [rewrite B1; reflexivity|].
  split; [exact Z|].
  split; [rewrite WD; reflexivity|].
  split.
  - intros Hv. destruct (Hok Hv) as (E & F & R).
    split; [exact E|]. split; [exact F | exact R].
  - intros Hv. destruct (Hbad Hv) as (_ & F & R).
    split; [exact F | exact R].
Qed.

Section Stopping.

Variable t : evtype.
Hypothesis listened : listeners_for Document t s = [].

Let sa := on_bind (set_touched false) (exec preventDefault sF).

(** What a touch listener that clears [touched] and runs [stop] leaves. *)
Lemma touch_stops (l : Listener) :
  listeners_for (El src_el) t s = [l] -> l_once l = false ->
  run_handler (l_handler l) (touch_at t p) sF = stop sa ->
  let s1 := dispatch (El src_el) (touch_at t p) s in
  s1 = settle stop sa
  /\ touch_wired s1
  /\ touched (bind s1) = false
  /\ (fades_run s ->
      s1 = exec stop sa
      /\ fades s1 = fades s ++ [Fin zero]
      /\ reported (world s1) = reported (world s))
  /\ (valid_duration (duration (settings (bind s))) = false ->
      fades s1 = fades s
      /\ reported (world s1) = reported (world s) ++ [animate_error]).
Proof.
  intros H1 Ho Hr s1.
  destruct (settle_stop sa) as (WL & _ & B & _ & _ & Hok & Hbad).
  set (sb := settle stop sa) in *.
  assert (Hs1 : s1 = sb).
  { unfold s1.
    apply (@dispatch_source_settle s sa (touch_at t p) l stop H1 Ho Hr).
    cbn [ev_type touch_at]. fold sb.
    rewrite (@listeners_for_same Document t sb s WL). exact listened. }
  rewrite Hs1.
  split; [reflexivity|].
  split; [apply (@touch_wired_same s sb WL); [rewrite B; reflexivity | exact wired]|].
  split; [rewrite B; reflexivity|].
  split.
  - intros Hv. destruct (Hok Hv) as (E & F & R).
    split; [exact E|]. split; [exact F | exact R].
  - intros Hv. destruct (Hbad Hv) as (_ & F & R).
    split; [exact F | exact R].
Qed.

End Stopping.

(** Touch-start while touched: [touched] is cleared and [stop] runs. *)
Lemma touchstart_stops :
  touch_suppressed s = false -> touched (bind s) = true ->
  let sa := on_bind (set_touched false) (exec preventDefault sF) in
  let s1 := dispatch (El src_el) (touch_at touchstart p) s in
  s1 = settle stop sa
  /\ touch_wired s1
  /\ touched (bind s1) = false
  /\ (fades_run s ->
      s1 = exec stop sa
      /\ fades s1 = fades s ++ [Fin zero]
      /\ reported (world s1) = reported (world s))
  /\ (valid_duration (duration (settings (bind s))) = false ->
      fades s1 = fades s
      /\ reported (world s1) = reported (world s) ++ [animate_error]).
Proof.
  intros H Ht. destruct wired as ((i & H1) & _ & _ & H4 & _).
  apply (@touch_stops touchstart H4 _ H1 eq_refl).
  cbn [l_handler]. apply (@touch_start_active sF (touch_at touchstart p) H Ht).
Qed.

(** Touch-end while touched: [touched] is cleared and [stop] runs. *)
Lemma touchend_stops :
  touched (bind s) = true ->
  let sa := on_bind (set_touched false) (exec preventDefault sF) in
  let s1 := dispatch (El src_el) (touch_at touchend p) s in
  s1 = settle stop sa
  /\ touch_wired s1
  /\ touched (bind s1) = false
  /\ (fades_run s ->
      s1 = exec stop sa
      /\ fades s1 = fades s ++ [Fin zero]
      /\ reported (world s1) = reported (world s))
  /\ (valid_duration (duration (settings (bind s))) = false ->
      fades s1 = fades s
      /\ reported (world s1) = reported (world s) ++ [animate_error]).
Proof.
  intros Ht. destruct wired as (_ & _ & (i & H3) & _ & _ & H6).
  apply (@touch_stops touchend H6 _ H3 eq_refl).
  cbn [l_handler]. apply (@touch_end_active sF (touch_at touchend p) Ht).
Qed.

(** Touch-end while not touched: only the default is prevented. *)
Lemma touchend_idle :
  touched (bind s) = false ->
  dispatch (El src_el) (touch_at touchend p) s = exec preventDefault sF.
Proof.
  intros Ht. destruct wired as (_ & _ & (i & H3) & _ & _ & H6).
  apply (@dispatch_source_only s _ (touch_at touchend p) _ H3 eq_refl).
  - cbn [l_handler]. apply (@touch_end_idle sF (touch_at touchend p) Ht).
  - exact H6.
Qed.

(** Touch-move while neither touched nor clicked: nothing runs. *)
Lemma touchmove_ignored :
  touched (bind s) = false -> clicked (bind s) = false ->
  dispatch (El src_el) (touch_at touchmove p) s = sF.
Proof.
  intros Ht Hc. destruct wired as (_ & (i & H2) & _ & _ & H5 & _).
  apply (@dispatch_source_only s sF (touch_at touchmove p) _ H2 eq_refl).
  - cbn [l_handler]. apply (@touch_move_ignored sF (touch_at touchmove p) Ht Hc).
  - exact H5.
Qed.

(** Touch-move while touched, on a snapshot made by [init]: the overlay
    follows the touch point. *)
Lemma touchmove_tracks (w0 : World) (b0 : Binding) :
  touched (bind s) = true ->
  zoom (bind s) = Some (init_vars w0 b0) ->
  let s1 := dispatch (El src_el) (touch_at touchmove p) s in
  s1 = exec (move (Some p)) (exec preventDefault sF)
  /\ touch_wired s1
  /\ bind s1 = bind s
  /\ fades s1 = fades s
  /\ style_of s1 (img (bind s)) left
     = Px (mul (neg (Fin (clamp (pageX p - page_left w0 (source b0)) zero
                                (ofN (source_width w0 b0)))))
               (to_num (xRatio (init_vars w0 b0))))
  /\ style_of s1 (img (bind s)) top
     = Px (mul (neg (Fin (clamp (pageY p - page_top w0 (source b0)) zero
                                (ofN (source_height w0 b0)))))
               (to_num (yRatio (init_vars w0 b0))))
  /\ reported (world s1) = reported (world s).
Proof.
  intros Ht Hz s1.
  set (sa := exec preventDefault sF).
  assert (Hza : zoom (bind sa) = Some (init_vars w0 b0)) by exact Hz.
  destruct (@move_writes w0 b0 sa p Hza) as (T & L & Tp).
  set (sb := exec (move (Some p)) sa) in *.
  pose proof (move_wiring (Some p) sa) as (WL & _ & _ & _ & WR & _). fold sb in WL, WR.
  pose proof (move_bind (Some p) sa) as B. fold sb in B.
  assert (Hs1 : s1 = sb).
  { unfold s1. destruct wired as (_ & (i & H2) & _ & _ & H5 & _).
    apply (@dispatch_source_only s sb (touch_at touchmove p) _ H2 eq_refl).
    - change (run_handler touch_move (touch_at touchmove p) sF = (sb, Ok tt)).
      rewrite (@touch_move_tracks sF p touchmove (or_introl Ht)).
      apply run_unit. exact T.
    - cbn [ev_type touch_at]. rewrite (@listeners_for_same Document touchmove sb s WL). exact H5. }
  rewrite Hs1.
  split; [reflexivity|].
  split; [apply (@touch_wired_same s sb WL); [rewrite B; reflexivity | exact wired]|].
  split; [exact B|].
  split.
  { unfold fades, sb, exec.
    rewrite (@move_on_snapshot w0 b0 sa p Hza). reflexivity. }
  split; [exact L|]. split; [exact Tp|].
  rewrite WR. reflexivity.
Qed.

End TouchDispatch.

Section TouchWiring.

Lemma mode_listeners_no_touch (n : node) (t : evtype) (mode : string)
  (src_el : elem) (k : nat) :
  t = touchstart \/ t = touchmove \/ t = touchend ->
  filter (listens n t) (mode_listeners mode src_el k) = [].
Proof.
  intros Ht. unfold mode_listeners.
  destruct (String.eqb mode "grab");
    [|destruct (String.eqb mode "click");
      [|destruct (String.eqb mode "toggle");
        [|destruct (String.eqb mode "toggle-drag");
          [|destruct (String.eqb mode "mouseover")]]]];
    cbn [filter]; try reflexivity;
    destruct Ht as [-> | [-> | ->]];
    rewrite ?listens_type by discriminate; reflexivity.
Qed.

Lemma mode_listeners_on_source (mode : string) (src_el : elem) (k : nat) (t : evtype) :
  filter (listens Document t) (mode_listeners mode src_el k) = [].
Proof.
  unfold mode_listeners.
  destruct (String.eqb mode "grab");
    [|destruct (String.eqb mode "click");
      [|destruct (String.eqb mode "toggle");
        [|destruct (String.eqb mode "toggle-drag");
          [|destruct (String.eqb mode "mouseover")]]]];
    reflexivity.
Qed.

Lemma touch_wired_loaded (src_el : elem) (o : Options) (w : World) (u : string) :
  listeners w = [] -> o_url o = Some u -> u <> "" ->
  String.eqb (on (assign_options o)) "toggle-drag" = false ->
  touch (assign_options o) = true ->
  touch_wired (bound_and_loaded src_el o w).
Proof.
  intros Hl Hu Hne Hd Ht.
  destruct (@bound_and_loaded_obs src_el o w u Hl Hu Hne Hd)
    as (L & B & _).
  set (s := bound_and_loaded src_el o w) in *. clearbody s.
  rewrite Ht in L.
  unfold touch_wired, listeners_for. rewrite B, L. cbn [source].
  cbn [filter]. rewrite !filter_app.
  rewrite !mode_listeners_no_touch by tauto.
  rewrite ?mode_listeners_on_source.
  rewrite !listens_type by discriminate.
  cbn [app touch_listeners filter].
  rewrite !listens_same. rewrite !listens_type by discriminate.
  split; [eexists; reflexivity|]. split; [eexists; reflexivity|].
  split; [eexists; reflexivity|]. repeat split.
Qed.

End TouchWiring.

(** C7. With [touch] set, the three touch listeners are registered on the
    source after the listeners of the mouse mode, whatever the mode
    ('toggle-drag', which needs jQuery to load, apart); with [touch] unset
    none is.  In click and toggle mode a touch-start runs
    nothing: neither [start] nor [stop], and [touched] stays as it is.  In
    the other modes a touch-start with [touched] false sets it and runs
    [start] at the touch point, which takes the snapshot a touch-move then
    positions by, and one with [touched] true clears it and
    runs [stop]; a touch-move while [touched] holds moves the overlay to the
    touch point, and does nothing while neither [touched] nor [clicked]
    holds; a touch-end with [touched] true clears it and runs [stop], and
    one with [touched] false only prevents the default.  [touched] is
    flipped before [start] or [stop] is called, so it toggles whatever the
    duration: with a duration [element.animate] takes the call starts the
    fade; with another one the call throws, the exception is reported and
    no fade is started. *)
Theorem touch_fallback_is_additive_and_toggles
  (src_el : elem) (o : Options) (w : World) (u : string) :
  listeners w = [] -> o_url o = Some u -> u <> "" ->
  String.eqb (on (assign_options o)) "toggle-drag" = false ->
  let s0 := bound_and_loaded src_el o w in
  let n := next_listener w in
  let mode := on (assign_options o) in
  listeners (world s0)
  = mkListener n (El (img (bind s0))) load on_load false
    :: mode_listeners mode src_el (S n)
    ++ (if touch (assign_options o)
        then touch_listeners src_el
               (S n + List.length (mode_listeners mode src_el (S n)))
        else [])
  /\ touched (bind s0) = false
  /\ (touch (assign_options o) = true -> touch_wired s0)
  /\ (forall s p, touch_wired s ->
        let sF := on_world (set_flags false false) s in
        let src := source (bind s) in
        (touch_suppressed s = true <->
         on (settings (bind s)) = "click" \/ on (settings (bind s)) = "toggle")
        /\ (touch_suppressed s = true ->
            dispatch (El src) (touch_at touchstart p) s = sF)
        /\ (touch_suppressed s = false -> touched (bind s) = false ->
            let s1 := dispatch (El src) (touch_at touchstart p) s in
            s1 = settle (start (Some p))
                   (on_bind (set_touched true) (exec preventDefault sF))
            /\ touch_wired s1
            /\ touched (bind s1) = true
            /\ zoom (bind s1) = Some (init_vars (world s) (set_touched true (bind s)))
            /\ (fades_run s ->
                s1 = exec (start (Some p))
                       (on_bind (set_touched true) (exec preventDefault sF))
                /\ fades s1 = fades s ++ [Fin (ofZ 1)]
                /\ reported (world s1) = reported (world s))
            /\ (valid_duration (duration (settings (bind s))) = false ->
                fades s1 = fades s
                /\ reported (world s1) = reported (world s) ++ [animate_error]))
        /\ (touch_suppressed s = false -> touched (bind s) = true ->
            let s1 := dispatch (El src) (touch_at touchstart p) s in
            s1 = settle stop (on_bind (set_touched false) (exec preventDefault sF))
            /\ touch_wired s1
            /\ touched (bind s1) = false
            /\ (fades_run s ->
                s1 = exec stop (on_bind (set_touched false) (exec preventDefault sF))
                /\ fades s1 = fades s ++ [Fin zero]
                /\ reported (world s1) = reported (world s))
            /\ (valid_duration (duration (settings (bind s))) = false ->
                fades s1 = fades s
                /\ reported (world s1) = reported (world s) ++ [animate_error]))
        /\ (touched (bind s) = true ->
            forall w0 b0, zoom (bind s) = Some (init_vars w0 b0) ->
            let s1 := dispatch (El src) (touch_at touchmove p) s in
            s1 = exec (move (Some p)) (exec preventDefault sF)
            /\ touch_wired s1
            /\ bind s1 = bind s
            /\ fades s1 = fades s
            /\ style_of s1 (img (bind s)) left
               = Px (mul (neg (Fin (clamp (pageX p - page_left w0 (source b0)) zero
                                          (ofN (source_width w0 b0)))))
                         (to_num (xRatio (init_vars w0 b0))))
            /\ style_of s1 (img (bind s)) top
               = Px (mul (neg (Fin (clamp (pageY p - page_top w0 (source b0)) zero
                                          (ofN (source_height w0 b0)))))
                         (to_num (yRatio (init_vars w0 b0)))))
        /\ (touched (bind s) = false -> clicked (bind s) = false ->
            dispatch (El src) (touch_at touchmove p) s = sF)
        /\ (touched (bind s) = true ->
            let s1 := dispatch (El src) (touch_at touchend p) s in
            s1 = settle stop (on_bind (set_touched false) (exec preventDefault sF))
            /\ touch_wired s1
            /\ touched (bind s1) = false
            /\ (fades_run s ->
                s1 = exec stop (on_bind (set_touched false) (exec preventDefault sF))
                /\ fades s1 = fades s ++ [Fin zero]
                /\ reported (world s1) = reported (world s))
            /\ (valid_duration (duration (settings (bind s))) = false ->
                fades s1 = fades s
                /\ reported (world s1) = reported (world s) ++ [animate_error]))
        /\ (touched (bind s) = false ->
            dispatch (El src) (touch_at touchend p) s = exec preventDefault sF)).
Proof.
  intros Hl Hu Hne Hd s0 n mode.
  destruct (@bound_and_loaded_obs src_el o w u Hl Hu Hne Hd) as (L & B & _).
  fold s0 n mode in L, B.
  split; [rewrite B; exact L|].
  split; [rewrite B; reflexivity|].
  split; [intros Ht; apply (@touch_wired_loaded src_el o w u Hl Hu Hne Hd Ht)|].
  intros s p Hw sF src.
  split.
  { unfold touch_suppressed. rewrite orb_true_iff, !String.eqb_eq. tauto. }
  split; [intros H; apply (@touchstart_suppressed s p Hw H)|].
  split.
  { intros H Ht s1.
    destruct (@touchstart_starts s p Hw H Ht) as (E & W1 & T1 & _ & _ & Z & _ & F1 & F2).
    split; [exact E|]. split; [exact W1|]. split; [exact T1|]. split; [exact Z|].
    split; [exact F1 | exact F2]. }
  split.
  { intros H Ht s1.
    exact (@touchstart_stops s p Hw H Ht). }
  split.
  { intros Ht w0 b0 Hz s1.
    destruct (@touchmove_tracks s p Hw w0 b0 Ht Hz) as (E & W1 & B1 & F1 & L1 & T1 & _).
    split; [exact E|]. split; [exact W1|]. split; [exact B1|].
    split; [exact F1|]. split; [exact L1 | exact T1]. }
  split; [intros Ht Hc; apply (@touchmove_ignored s p Hw Ht Hc)|].
  split.
  { intros Ht s1.
    exact (@touchend_stops s p Hw Ht). }
  intros Ht. apply (@touchend_idle s p Hw Ht).
Qed.

Lemma touch_fallback_is_additive_and_toggles_witness :
  let o := with_url "large.jpg" no_options in
  let s0 := bound_and_loaded 1%nat o sample_page in
  (listeners sample_page = [] /\ o_url o = Some "large.jpg" /\ "large.jpg" <> ""
   /\ String.eqb (on (assign_options o)) "toggle-drag" = false
   /\ touch (assign_options o) = true)
  /\ touched (bind (dispatch (El (source (bind s0))) (touch_at touchstart at_60_60) s0))
     = true.
Proof.
  intros o s0.
  assert (H : "large.jpg" <> "") by discriminate.
  split; [repeat split; exact H|].
  destruct (@touch_fallback_is_additive_and_toggles 1%nat o sample_page "large.jpg"
              eq_refl eq_refl H eq_refl) as (_ & T0 & W0 & Hstep).
  fold s0 in T0, W0, Hstep.
  assert (Hs : touch_suppressed s0 = false) by (vm_compute; reflexivity).
  specialize (W0 eq_refl). clearbody s0.
  destruct (Hstep s0 at_60_60 W0) as (_ & _ & Hstart & _).
  destruct (Hstart Hs T0) as (_ & _ & Ht & _). exact Ht.
Defined.

(** ** Teardown *)

Section Destroy.

Variables (g : Globals) (s : State).

(** Without a [$source] on the page [destroy] throws before it writes
    anything. *)
Lemma destroy_without_dollar_source :
  dollar_source g = false ->
  exec (destroy g) s = s /\ threw (destroy g) s = true.
Proof.
  intros H. unfold exec, threw, destroy, bindM, get.
  destruct (window_event g); [rewrite H|]; split; reflexivity.
Qed.

(** With a [$source] on the page and an event whose target is the target
    container, [destroy] writes back the position and overflow the container
    has at that moment, and leaves the listeners registered. *)
Lemma destroy_with_dollar_source :
  dollar_source g = true ->
  window_event g = Some (target (bind s)) ->
  let s' := exec (destroy g) s in
  threw (destroy g) s = false
  /\ style_of s' (target (bind s)) position = style_of s (target (bind s)) position
  /\ style_of s' (target (bind s)) overflow = style_of s (target (bind s)) overflow
  /\ listeners (world s') = listeners (world s)
  /\ onload (elements (world s') (img (bind s))) = false
  /\ doc (world s') = remove_node (img (bind s)) (doc (world s)).
Proof.
  intros Hd He s'.
  set (s1 := exec (set_style (target (bind s)) position
                     (style_of s (target (bind s)) position)) s).
  set (s2 := exec (set_style (target (bind s)) overflow
                     (style_of s (target (bind s)) overflow)) s1).
  assert (Hrun : destroy g s
    = (on_world (fun w => set_doc (remove_node (img (bind s)) (doc w)) w)
         (on_world (fun w =>
            set_elements (upd (img (bind s)) (with_onload false) (elements w)) w)
            s2), Ok tt)).
  { unfold destroy, bindM at 1, get. rewrite He, Hd. reflexivity. }
  assert (P2 : style_of s2 (target (bind s)) position
               = style_of s (target (bind s)) position).
  { unfold s2. rewrite exec_set_style_other by (right; discriminate).
    unfold s1. apply exec_set_style_same. }
  assert (O2 : style_of s2 (target (bind s)) overflow
               = style_of s (target (bind s)) overflow).
  { unfold s2. apply exec_set_style_same. }
  unfold s', exec, threw. rewrite Hrun. cbn [fst snd].
  split; [reflexivity|].
  split.
  { rewrite <- P2. unfold style_of, on_world, set_elements, set_doc, upd.
    cbn [world elements].
    destruct (Nat.eqb (target (bind s)) (img (bind s))); reflexivity. }
  split.
  { rewrite <- O2. unfold style_of, on_world, set_elements, set_doc, upd.
    cbn [world elements].
    destruct (Nat.eqb (target (bind s)) (img (bind s))); reflexivity. }
  split; [reflexivity|].
  split; [|reflexivity].
  unfold on_world, set_elements, set_doc, upd. cbn [world elements].
  rewrite Nat.eqb_refl. reflexivity.
Qed.

End Destroy.

(** C8 on the sample page.  The source (1) is bound with the defaults, so it
    is its own target, and before the binding its inline position and
    overflow are empty.  Once the overlay has loaded they are 'relative' and
    'hidden'.  [destroy] at an event on the source throws on [$source] and
    leaves them so, with the seven listeners registered and the overlay in
    the document; on a page that has a [$source] it does not throw, and
    still leaves them so and the listeners registered. *)
Theorem destroy_does_not_restore :
  let s := loaded no_options in
  let b := bound no_options in
  let tgt := target (bind s) in
  source (bind s) = tgt
  /\ style_of b tgt position = Str "" /\ style_of b tgt overflow = Str ""
  /\ style_of s tgt position = Str "relative"
  /\ style_of s tgt overflow = Str "hidden"
  /\ List.length (listeners (world s)) = 7%nat
  /\ attached (img (bind s)) (doc (world s)) = true
  /\ (let g := mkGlobals (Some tgt) false in
      threw (destroy g) s = true
      /\ style_of (exec (destroy g) s) tgt position = Str "relative"
      /\ style_of (exec (destroy g) s) tgt overflow = Str "hidden"
      /\ List.length (listeners (world (exec (destroy g) s))) = 7%nat
      /\ attached (img (bind s)) (doc (world (exec (destroy g) s))) = true)
  /\ (let g := mkGlobals (Some tgt) true in
      threw (destroy g) s = false
      /\ style_of (exec (destroy g) s) tgt position = Str "relative"
      /\ style_of (exec (destroy g) s) tgt overflow = Str "hidden"
      /\ List.length (listeners (world (exec (destroy g) s))) = 7%nat
      /\ attached (img (bind s)) (doc (world (exec (destroy g) s))) = false)
  /\ threw (destroy (mkGlobals None false)) s = true.
Proof. cbv zeta. repeat split; vm_compute; reflexivity. Qed.

(** ** The set-up of [createZoom] *)

Section SetUp.

Variable s : State.

Let b := bind s.
Let pos := computed (elements (world s) (target b)) position.
Let sa := exec (set_style (target b) position
                  (Str (if existsb (String.eqb pos) ["absolute"; "fixed"]
                        then pos else "relative"))) s.
Let sb := exec (set_style (target b) overflow (Str "hidden")) sa.
Let sc := exec (set_style (img b) width (Str "")) sb.
Let sd := exec (set_style (img b) height (Str "")) sc.
Let se := on_world (fun w => set_elements
    (upd (img b) (fun e =>
       if existsb (String.eqb ZOOM_IMAGE_CLASS) (classList e) then e
       else with_classList (classList e ++ [ZOOM_IMAGE_CLASS]) e) (elements w)) w) sd.
Let sf := on_world (fun w => set_elements
    (upd (img b) (with_style (style_assign
       [ (position, Str "absolute");
         (top, Num (Fin zero));
         (left, Num (Fin zero));
         (opacity, Num (Fin zero));
         (width, Num (mul (Fin (ofN (img_width (layout (elements (world se) (img b))))))
                        (magnify (settings b))));
         (height, Num (mul (Fin (ofN (img_height (layout (elements (world se) (img b))))))
                         (magnify (settings b))));
         (border, Str "none");
         (maxWidth, Str "none");
         (maxHeight, Str "none");
         (transform, Str "translate3d(0,0,0)") ])) (elements w)) w) se.






End SetUp.



(** X3. Between the set-up and the first [init] the zoom object has no
    snapshot: [move] throws a TypeError on the undefined offset and writes
    nothing.  After [init] it does not throw. *)
Theorem move_before_init_throws (s : State) (p : Point) :
  let s1 := exec createZoom s in
  move (Some p) s1
  = (s1, Throw (TypeError "Cannot read properties of undefined (reading 'left')"))
  /\ threw (move (Some p)) (exec init s1) = false.
Proof.
  intros s1.
  assert (Hz : zoom (bind s1) = Some undefined_vars) by reflexivity.
  clearbody s1.
  split; [|apply move_after_init_ok].
  unfold move, bindM, get. rewrite Hz. reflexivity.
Qed.

(** X4. [start] never positions the overlay by an earlier snapshot:
    whatever the zoom object held before, the call does the same and
    leaves the snapshot of the layout at the time of the call.  It throws
    exactly when the duration is one [element.animate] refuses, a negative
    one or NaN, and the snapshot is taken before that. *)
Theorem start_reads_the_layout_anew (s : State) (p : Point) (z : option ZoomVars) :
  threw (start (Some p)) s = negb (valid_duration (duration (settings (bind s))))
  /\ start (Some p) (on_bind (set_zoom z) s) = start (Some p) s
  /\ zoom (bind (exec (start (Some p)) s)) = Some (init_vars (world s) (bind s)).
Proof.
  destruct (start_frame p s) as (_ & _ & Hz).
  split; [apply start_threw|]. split; [|exact Hz].
  rewrite !start_fadeTo. reflexivity.
Qed.

Lemma relayout_style (e : elem) (l : Layout) (s : State) (x : elem) (p : prop) :
  style_of (relayout e l s) x p = style_of s x p.
Proof.
  unfold style_of, relayout, on_world, set_elements, upd. cbn [world elements].
  destruct (Nat.eqb x e); reflexivity.
Qed.

(** X5. [move] positions by the snapshot, not by the layout: a change of
    layout since the last [init] changes neither whether it throws nor any
    style it leaves. *)
Theorem move_keeps_the_snapshot (s : State) (t : option Point) (e : elem) (l : Layout) :
  threw (move t) (relayout e l s) = threw (move t) s
  /\ forall x p, style_of (exec (move t) (relayout e l s)) x p
                 = style_of (exec (move t) s) x p.
Proof.
  unfold threw, exec, move, bindM, get, throw.
  change (bind (relayout e l s)) with (bind s).
  destruct t as [t|];
    [destruct (zoom (bind s)) as [z|]; [destruct (offset z) as [off|]|]|];
    cbn [fst snd]; (split; [reflexivity|]); intros x p;
    try apply relayout_style.
  unfold style_of, relayout, set_style, modify, on_world, set_elements, upd.
  cbn [fst world elements].
  destruct (Nat.eqb x (img (bind s))), (Nat.eqb x e); reflexivity.
Qed.

(** The styles [fadeTo] leaves, whatever the duration. *)
Lemma fadeTo_style (s : State) (e : elem) (d op : num) (c : option cb) (x : elem)
  (p : prop) :
  style_of (exec (fadeTo e d op c) s) x p
  = if Nat.eqb x e && is_display p && hidden s e then Str "" else style_of s x p.
Proof.
  destruct (valid_duration d) eqn:Hv.
  - apply (@fadeTo_obs s e d op c Hv).
  - unfold exec. rewrite (@fadeTo_invalid s e d op c Hv). cbn [fst].
    destruct (hidden s e).
    + rewrite style_of_set_style. unfold is_display. rewrite andb_true_r. reflexivity.
    + rewrite andb_false_r. reflexivity.
Qed.

Lemma fadeTo_fades (s : State) (e : elem) (d op : num) (c : option cb) :
  fades (exec (fadeTo e d op c) s)
  = fades s ++ (if valid_duration d then [op] else []).
Proof.
  unfold fades.
  destruct (valid_duration d) eqn:Hv.
  - destruct (@fadeTo_obs s e d op c Hv) as (_ & A & _). rewrite A, map_app. reflexivity.
  - unfold exec. rewrite (@fadeTo_invalid s e d op c Hv). cbn [fst].
    rewrite app_nil_r. destruct (hidden s e); reflexivity.
Qed.

(** X6. [stop] needs no snapshot: before the first [init] as after it,
    it throws exactly when the duration is one [element.animate] refuses, a
    negative one or NaN; it starts the fade to 0 exactly when it does not
    throw; and either way it leaves the variables of the binding and every
    style property but the display as they are. *)
Theorem stop_needs_no_snapshot (s : State) :
  threw stop s = negb (valid_duration (duration (settings (bind s))))
  /\ bind (exec stop s) = bind s
  /\ fades (exec stop s)
     = fades s ++ (if valid_duration (duration (settings (bind s)))
                   then [Fin zero] else [])
  /\ (forall x p, p <> display -> style_of (exec stop s) x p = style_of s x p).
Proof.
  destruct (stop_frame s) as (_ & Hb).
  split; [apply stop_threw|]. split; [exact Hb|].
  split; [apply fadeTo_fades|].
  intros x p Hp.
  change (exec stop s)
    with (exec (fadeTo (img (bind s)) (duration (settings (bind s))) (Fin zero)
                  (Some zoomOut_cb)) s).
  rewrite fadeTo_style. unfold is_display.
  destruct (prop_eq_dec p display) as [D|_]; [contradiction|].
  rewrite andb_false_r. reflexivity.
Qed.

(** X7. [getOffset] gives page coordinates: scrolling the page does not
    change the offset of an element that scrolls with it, and so does not
    change the snapshot [init] takes of a source that scrolls with the
    page. *)
Theorem getOffset_is_scroll_invariant
  (fixed : elem -> bool) (dx dy : Qc) (w : World) (b : Binding) :
  fixed (source b) = false -> fixed (target b) = false -> fixed (img b) = false ->
  getOffset (scroll_by fixed dx dy w) (source b) = getOffset w (source b)
  /\ init_vars (scroll_by fixed dx dy w) b = init_vars w b.
Proof.
  intros Hs Ht Hi.
  assert (Ho : getOffset (scroll_by fixed dx dy w) (source b) = getOffset w (source b)).
  { unfold getOffset, scroll_by. cbn [elements scrollX scrollY clientTop clientLeft].
    rewrite Hs. cbn [layout with_layout shift_box box_top box_left add sub neg].
    f_equal; f_equal; ring. }
  split; [exact Ho|].
  unfold init_vars. rewrite Ho.
  unfold scroll_by. cbn [elements]. rewrite Hs, Ht, Hi. reflexivity.
Qed.

Lemma getOffset_is_scroll_invariant_witness :
  let b := bind (loaded no_options) in
  let w := world (loaded no_options) in
  getOffset (scroll_by (fun _ => false) (ofZ 5) (ofZ 30) w) (source b)
  = getOffset w (source b).
Proof.
  intros b w. clearbody b w.
  destruct (@getOffset_is_scroll_invariant (fun _ => false) (ofZ 5) (ofZ 30) w b
              eq_refl eq_refl eq_refl) as (H & _).
  exact H.
Defined.

(** ** The mouseover mode *)

Section MouseoverMode.

(** A listener that throws: what it threw is reported. *)
Lemma dispatch_source_only_throw (s s1 : State) (e : Event) (l : Listener) (x : exn) :
  listeners_for (El (source (bind s))) (ev_type e) s = [l] ->
  l_once l = false ->
  run_handler (l_handler l) e (on_world (set_flags false false) s) = (s1, Throw x) ->
  listeners_for Document (ev_type e) s1 = [] ->
  dispatch (El (source (bind s))) e s = report x s1.
Proof.
  intros Hl Ho Hr Hd. unfold dispatch.
  set (sF := on_world (set_flags false false) s) in *.
  rewrite (@dispatch_at_single (El (source (bind s))) e sF l Hl Ho), Hr.
  destruct (bubbles (ev_type e) && negb (propagationStopped (world (report x s1))));
    [apply dispatch_at_none; exact Hd | reflexivity].
Qed.

(** An event that does not bubble, with one listener on the source. *)
Lemma dispatch_no_bubble_settle (s sa : State) (e : Event) (l : Listener) (c : M unit) :
  bubbles (ev_type e) = false ->
  listeners_for (El (source (bind s))) (ev_type e) s = [l] ->
  l_once l = false ->
  run_handler (l_handler l) e (on_world (set_flags false false) s) = c sa ->
  dispatch (El (source (bind s))) e s = settle c sa.
Proof.
  intros Hb Hl Ho Hr. unfold dispatch.
  set (sF := on_world (set_flags false false) s) in *.
  rewrite (@dispatch_at_single (El (source (bind s))) e sF l Hl Ho), Hr, Hb.
  reflexivity.
Qed.

Lemma mouseover_wired_same (s s1 : State) :
  listeners (world s1) = listeners (world s) ->
  source (bind s1) = source (bind s) ->
  mouseover_wired s -> mouseover_wired s1.
Proof.
  intros Hl Hs (H1 & H2 & H3 & H4 & H5).
  unfold mouseover_wired. cbv zeta. rewrite Hs.
  rewrite !(@listeners_for_same _ _ s1 s Hl).
  repeat split; assumption.
Qed.

Lemma touch_listeners_no_mouse (n : node) (t : evtype) (src_el : elem) (k : nat) :
  t = mouseover \/ t = mouseleave \/ t = mousemove \/ t = mousedown \/ t = mouseup ->
  filter (listens n t) (touch_listeners src_el k) = [].
Proof.
  intros Ht. unfold touch_listeners. cbn [filter].
  destruct Ht as [-> | [-> | [-> | [-> | ->]]]];
    rewrite !listens_type by discriminate; reflexivity.
Qed.

Lemma mouseover_wired_loaded (src_el : elem) (o : Options) (w : World) (u : string) :
  listeners w = [] -> o_url o = Some u -> u <> "" ->
  on (assign_options o) = "mouseover" ->
  mouseover_wired (bound_and_loaded src_el o w).
Proof.
  intros Hl Hu Hne Hm.
  assert (Hd : String.eqb (on (assign_options o)) "toggle-drag" = false)
    by (rewrite Hm; reflexivity).
  destruct (@bound_and_loaded_obs src_el o w u Hl Hu Hne Hd) as (L & B & _).
  set (s := bound_and_loaded src_el o w) in *. clearbody s.
  rewrite Hm in L.
  unfold mouseover_wired, listeners_for. cbv zeta. rewrite B, L. cbn [source].
  cbn [filter]. rewrite !filter_app.
  assert (Ht : forall n t,
    t = mouseover \/ t = mouseleave \/ t = mousemove ->
    filter (listens n t)
      (if touch (assign_options o)
       then touch_listeners src_el
              (S (next_listener w)
               + List.length (mode_listeners "mouseover" src_el (S (next_listener w))))
       else []) = []).
  { intros n t Ht. destruct (touch (assign_options o)); [|reflexivity].
    apply touch_listeners_no_mouse. tauto. }
  rewrite !Ht by tauto.
  rewrite !listens_type by discriminate.
  cbn [mode_listeners String.eqb Ascii.eqb Bool.eqb filter app].
  rewrite !listens_same. rewrite !listens_type by discriminate.
  cbn [listens l_node node_eqb andb].
  split; [eexists; reflexivity|]. split; [eexists; reflexivity|].
  split; [eexists; reflexivity|]. split; reflexivity.
Qed.

Variables (s : State) (p : Point).
Hypothesis wired : mouseover_wired s.

Let sF := on_world (set_flags false false) s.
Let src_el := source (bind s).

Lemma mouseover_starts :
  let s1 := dispatch (El src_el) (mouse mouseover p) s in
  s1 = settle (start (Some p)) sF
  /\ mouseover_wired s1
  /\ zoom (bind s1) = Some (init_vars (world s) (bind s))
  /\ (fades_run s ->
      s1 = exec (start (Some p)) sF
      /\ fades s1 = fades s ++ [Fin (ofZ 1)]
      /\ reported (world s1) = reported (world s))
  /\ (valid_duration (duration (settings (bind s))) = false ->
      fades s1 = fades s
      /\ reported (world s1) = reported (world s) ++ [animate_error]).
Proof.
  intros s1.
  destruct (settle_start p sF) as (WL & _ & Bc & Z & _ & _ & Hok & Hbad).
  set (sb := settle (start (Some p)) sF) in *.
  assert (Hs1 : s1 = sb).
  { unfold s1. destruct wired as ((i & H1) & _ & _ & H4 & _).
    apply (@dispatch_source_settle s sF (mouse mouseover p) _ (start (Some p))
             H1 eq_refl).
    - reflexivity.
    - cbn [ev_type mouse]. fold sb.
      rewrite (@listeners_for_same Document mouseover sb s WL). exact H4. }
  rewrite Hs1.
  split; [reflexivity|].
  split.
  { apply (@mouseover_wired_same s sb); [exact WL | apply Bc | exact wired]. }
  split; [exact Z|].
  split.
  - intros Hv. destruct (Hok Hv) as (E & F & R).
    split; [exact E|]. split; [exact F | exact R].
  - intros Hv. destruct (Hbad Hv) as (_ & F & R).
    split; [exact F | exact R].
Qed.

Lemma mouseleave_stops :
  let s1 := dispatch (El src_el) (mouse mouseleave p) s in
  s1 = settle stop sF
  /\ mouseover_wired s1
  /\ bind s1 = bind s
  /\ (fades_run s ->
      s1 = exec stop sF
      /\ fades s1 = fades s ++ [Fin zero]
      /\ reported (world s1) = reported (world s))
  /\ (valid_duration (duration (settings (bind s))) = false ->
      fades s1 = fades s
      /\ reported (world s1) = reported (world s) ++ [animate_error]).
Proof.
  intros s1.
  destruct (settle_stop sF) as (WL & _ & B & _ & _ & Hok & Hbad).
  set (sb := settle stop sF) in *.
  assert (Hs1 : s1 = sb).
  { unfold s1. destruct wired as (_ & (i & H2) & _).
    apply (@dispatch_no_bubble_settle s sF (mouse mouseleave p) _ stop eq_refl H2 eq_refl).
    reflexivity. }
  rewrite Hs1.
  split; [reflexivity|].
  split.
  { apply (@mouseover_wired_same s sb); [exact WL | rewrite B; reflexivity | exact wired]. }
  split; [exact B|].
  split.
  - intros Hv. destruct (Hok Hv) as (E & F & R).
    split; [exact E|]. split; [exact F | exact R].
  - intros Hv. destruct (Hbad Hv) as (_ & F & R).
    split; [exact F | exact R].
Qed.

Lemma mousemove_tracks (w0 : World) (b0 : Binding) :
  zoom (bind s) = Some (init_vars w0 b0) ->
  let s1 := dispatch (El src_el) (mouse mousemove p) s in
  s1 = exec (move (Some p)) sF
  /\ mouseover_wired s1
  /\ bind s1 = bind s
  /\ fades s1 = fades s
  /\ style_of s1 (img (bind s)) left
     = Px (mul (neg (Fin (clamp (pageX p - page_left w0 (source b0)) zero
                                (ofN (source_width w0 b0)))))
               (to_num (xRatio (init_vars w0 b0))))
  /\ style_of s1 (img (bind s)) top
     = Px (mul (neg (Fin (clamp (pageY p - page_top w0 (source b0)) zero
                                (ofN (source_height w0 b0)))))
               (to_num (yRatio (init_vars w0 b0))))
  /\ reported (world s1) = reported (world s).
Proof.
  intros Hz s1.
  assert (Hza : zoom (bind sF) = Some (init_vars w0 b0)) by exact Hz.
  destruct (@move_writes w0 b0 sF p Hza) as (T & L & Tp).
  set (sb := exec (move (Some p)) sF) in *.
  pose proof (move_wiring (Some p) sF) as (WL & _ & _ & _ & WR & _). fold sb in WL, WR.
  pose proof (move_bind (Some p) sF) as B. fold sb in B.
  assert (Hs1 : s1 = sb).
  { unfold s1. destruct wired as (_ & _ & (i & H3) & _ & H5).
    apply (@dispatch_source_only s sb (mouse mousemove p) _ H3 eq_refl).
    - change (move (Some p) sF = (sb, Ok tt)). apply run_unit. exact T.
    - cbn [ev_type mouse]. rewrite (@listeners_for_same Document mousemove sb s WL).
      exact H5. }
  rewrite Hs1.
  split; [reflexivity|].
  split; [apply (@mouseover_wired_same s sb WL); [rewrite B; reflexivity | exact wired]|].
  split; [exact B|].
  split.
  { unfold fades, sb, exec.
    rewrite (@move_on_snapshot w0 b0 sF p Hza). reflexivity. }
  split; [exact L|]. split; [exact Tp|].
  rewrite WR. reflexivity.
Qed.

Lemma mousemove_without_snapshot :
  zoom (bind s) = Some undefined_vars ->
  dispatch (El src_el) (mouse mousemove p) s
  = report (TypeError "Cannot read properties of undefined (reading 'left')") sF.
Proof.
  intros Hz. destruct wired as (_ & _ & (i & H3) & _ & H5).
  apply (@dispatch_source_only_throw s sF (mouse mousemove p) _ _ H3 eq_refl).
  - change (move (Some p) sF = (sF, Throw (TypeError "Cannot read properties of undefined (reading 'left')"))).
    unfold move, bindM, get. change (bind sF) with (bind s). rewrite Hz. reflexivity.
  - exact H5.
Qed.

End MouseoverMode.

(** X8. The mouseover mode.  Once the overlay has loaded the source has one
    listener for each of mouseover, mouseleave and mousemove.  A mouseover
    runs [start] at the pointer, which takes a fresh snapshot of the
    layout; a mouseleave runs [stop]; a mousemove after a snapshot was
    taken moves the overlay to the clamped pointer position scaled by the
    ratios of that snapshot.  None of the three changes the listeners.
    With a duration [element.animate] takes, the mouseover starts the fade
    to 1, the mouseleave the fade to 0, and nothing is reported; with a
    negative or NaN duration each of the two starts no fade and the
    TypeError of [animate] is reported. *)
Theorem mouseover_mode_follows_the_pointer
  (src_el : elem) (o : Options) (w : World) (u : string) :
  listeners w = [] -> o_url o = Some u -> u <> "" ->
  on (assign_options o) = "mouseover" ->
  mouseover_wired (bound_and_loaded src_el o w)
  /\ forall s p, mouseover_wired s ->
       let sF := on_world (set_flags false false) s in
       let src := source (bind s) in
       (let s1 := dispatch (El src) (mouse mouseover p) s in
        s1 = settle (start (Some p)) sF
        /\ mouseover_wired s1
        /\ zoom (bind s1) = Some (init_vars (world s) (bind s))
        /\ (fades_run s ->
            s1 = exec (start (Some p)) sF
            /\ fades s1 = fades s ++ [Fin (ofZ 1)]
            /\ reported (world s1) = reported (world s))
        /\ (valid_duration (duration (settings (bind s))) = false ->
            fades s1 = fades s
            /\ reported (world s1) = reported (world s) ++ [animate_error]))
       /\ (let s1 := dispatch (El src) (mouse mouseleave p) s in
           s1 = settle stop sF
           /\ mouseover_wired s1
           /\ bind s1 = bind s
           /\ (fades_run s ->
               s1 = exec stop sF
               /\ fades s1 = fades s ++ [Fin zero]
               /\ reported (world s1) = reported (world s))
           /\ (valid_duration (duration (settings (bind s))) = false ->
               fades s1 = fades s
               /\ reported (world s1) = reported (world s) ++ [animate_error]))
       /\ (forall w0 b0, zoom (bind s) = Some (init_vars w0 b0) ->
           let s1 := dispatch (El src) (mouse mousemove p) s in
           s1 = exec (move (Some p)) sF
           /\ mouseover_wired s1
           /\ bind s1 = bind s
           /\ fades s1 = fades s
           /\ style_of s1 (img (bind s)) left
              = Px (mul (neg (Fin (clamp (pageX p - page_left w0 (source b0)) zero
                                         (ofN (source_width w0 b0)))))
                        (to_num (xRatio (init_vars w0 b0))))
           /\ style_of s1 (img (bind s)) top
              = Px (mul (neg (Fin (clamp (pageY p - page_top w0 (source b0)) zero
                                         (ofN (source_height w0 b0)))))
                        (to_num (yRatio (init_vars w0 b0))))
           /\ reported (world s1) = reported (world s)).
Proof.
  intros Hl Hu Hne Hm.
  split; [apply (@mouseover_wired_loaded src_el o w u Hl Hu Hne Hm)|].
  intros s p Hw sF src.
  split; [apply (@mouseover_starts s p Hw)|].
  split; [apply (@mouseleave_stops s p Hw)|].
  intros w0 b0 Hz. apply (@mousemove_tracks s p Hw w0 b0 Hz).
Qed.

Lemma mouseover_mode_follows_the_pointer_witness :
  let o := with_url "large.jpg" no_options in
  let s0 := bound_and_loaded 1%nat o sample_page in
  (listeners sample_page = [] /\ o_url o = Some "large.jpg" /\ "large.jpg" <> ""
   /\ on (assign_options o) = "mouseover")
  /\ fades (dispatch (El (source (bind s0))) (mouse mouseover at_60_60) s0)
     = fades s0 ++ [Fin (ofZ 1)].
Proof.
  intros o s0.
  assert (H : "large.jpg" <> "") by discriminate.
  split; [repeat split; exact H|].
  destruct (@mouseover_mode_follows_the_pointer 1%nat o sample_page "large.jpg"
              eq_refl eq_refl H eq_refl) as (W0 & Hstep).
  fold s0 in W0.
  assert (Hv : fades_run s0) by (vm_compute; reflexivity).
  clearbody s0.
  destruct (Hstep s0 at_60_60 W0) as ((_ & _ & _ & Hf & _) & _).
  destruct (Hf Hv) as (_ & F & _). exact F.
Defined.

(** X9. In the mouseover mode nothing calls [init] before the first
    mouseover: a mousemove over the source that comes first (the pointer
    was over the source when the overlay loaded) runs [move] without a
    snapshot, and the TypeError it throws on the undefined offset is all
    the event leaves behind. *)
Theorem mousemove_before_mouseover_is_reported
  (src_el : elem) (o : Options) (w : World) (u : string) (p : Point) :
  listeners w = [] -> o_url o = Some u -> u <> "" ->
  on (assign_options o) = "mouseover" ->
  let s0 := bound_and_loaded src_el o w in
  zoom (bind s0) = Some undefined_vars
  /\ dispatch (El src_el) (mouse mousemove p) s0
     = report (TypeError "Cannot read properties of undefined (reading 'left')")
         (on_world (set_flags false false) s0).
Proof.
  intros Hl Hu Hne Hm s0.
  assert (Hd : String.eqb (on (assign_options o)) "toggle-drag" = false)
    by (rewrite Hm; reflexivity).
  destruct (@bound_and_loaded_obs src_el o w u Hl Hu Hne Hd) as (_ & B & _).
  pose proof (@mouseover_wired_loaded src_el o w u Hl Hu Hne Hm) as W.
  fold s0 in B, W. clearbody s0.
  assert (Hz : zoom (bind s0) = Some undefined_vars) by (rewrite B; reflexivity).
  assert (Hs : source (bind s0) = src_el) by (rewrite B; reflexivity).
  split; [exact Hz|].
  rewrite <- Hs. apply (@mousemove_without_snapshot s0 p W Hz).
Qed.

Lemma mousemove_before_mouseover_is_reported_witness :
  let o := with_url "large.jpg" no_options in
  let s0 := bound_and_loaded 1%nat o sample_page in
  (listeners sample_page = [] /\ o_url o = Some "large.jpg" /\ "large.jpg" <> ""
   /\ on (assign_options o) = "mouseover")
  /\ reported (world (dispatch (El 1%nat) (mouse mousemove at_60_60) s0))
     = [TypeError "Cannot read properties of undefined (reading 'left')"].
Proof.
  intros o s0.
  assert (H : "large.jpg" <> "") by discriminate.
  split; [repeat split; exact H|].
  assert (Hr : reported (world s0) = []) by (vm_compute; reflexivity).
  pose proof (@mousemove_before_mouseover_is_reported 1%nat o sample_page "large.jpg"
                at_60_60 eq_refl eq_refl H eq_refl) as T.
  cbv zeta in T. destruct T as (_ & Hd).
  subst s0. revert Hd Hr. generalize (bound_and_loaded 1%nat o sample_page).
  intros s0 Hd Hr. rewrite Hd.
  unfold report. cbn [world on_world reported set_reported set_flags].
  rewrite Hr. reflexivity.
Defined.

(** ** The grab mode *)

Section GrabMode.

Lemma grab_press_run (p : Point) (s : State) :
  fades_run s ->
  run_handler grab_mousedown (mouse mousedown p) s
  = (exec preventDefault
       (exec (addEventListener Document mousemove h_move false)
          (exec (start (Some p))
             (exec (addEventListener Document mouseup grab_mouseup true) s))),
     Ok tt).
Proof.
  intros Hv.
  cbn [run_handler mouse button ev_point Z.eqb when].
  rewrite (@bindM_ok _ _ _ _ _ _ tt (run_add _ _ _ _ _)).
  rewrite (@bindM_ok _ _ _ _ _ _ tt
             (@run_start p (exec (addEventListener Document mouseup grab_mouseup true) s)
                Hv)).
  rewrite (@bindM_ok _ _ _ _ _ _ tt (run_add _ _ _ _ _)).
  apply run_preventDefault.
Qed.

Lemma grab_other_button (p : Point) (b : Z) (t : evtype) (s : State) :
  b <> 0%Z ->
  run_handler grab_mousedown (mouse_button t p b) s = (s, Ok tt).
Proof.
  intros Hb. cbn [run_handler mouse_button button].
  apply Z.eqb_neq in Hb. rewrite Hb. reflexivity.
Qed.

Lemma grab_release_run (e : Event) (s : State) :
  fades_run s ->
  run_handler grab_mouseup e s
  = (exec (removeEventListener Document mousemove h_move) (exec stop s), Ok tt).
Proof.
  intros Hv.
  cbn [run_handler].
  rewrite (@bindM_ok _ _ _ _ _ _ tt (@run_stop s Hv)).
  apply run_remove.
Qed.

Lemma grab_wired_loaded (src_el : elem) (o : Options) (w : World) (u : string) :
  listeners w = [] -> o_url o = Some u -> u <> "" ->
  on (assign_options o) = "grab" ->
  grab_wired (bound_and_loaded src_el o w)
  /\ grab_released (bound_and_loaded src_el o w).
Proof.
  intros Hl Hu Hne Hm.
  assert (Hd : String.eqb (on (assign_options o)) "toggle-drag" = false)
    by (rewrite Hm; reflexivity).
  destruct (@bound_and_loaded_obs src_el o w u Hl Hu Hne Hd)
    as (L & B & _ & _ & _ & _ & N).
  set (s := bound_and_loaded src_el o w) in *. clearbody s.
  rewrite Hm in L, N.
  assert (Ht : forall n t,
    t = mousedown \/ t = mouseup \/ t = mousemove ->
    filter (listens n t)
      (if touch (assign_options o)
       then touch_listeners src_el
              (S (next_listener w)
               + List.length (mode_listeners "grab" src_el (S (next_listener w))))
       else []) = []).
  { intros n t Ht. destruct (touch (assign_options o)); [|reflexivity].
    apply touch_listeners_no_mouse. tauto. }
  assert (He : forall n t h,
    t = mouseup \/ t = mousemove ->
    existsb (same_registration n t h)
      (if touch (assign_options o)
       then touch_listeners src_el
              (S (next_listener w)
               + List.length (mode_listeners "grab" src_el (S (next_listener w))))
       else []) = false).
  { intros n t h Ht'. destruct (touch (assign_options o)); [|reflexivity].
    unfold touch_listeners. cbn [existsb].
    destruct Ht' as [-> | ->]; rewrite !sr_type by discriminate; reflexivity. }
  split.
  - unfold grab_wired, listeners_for. rewrite B, L. cbn [source].
    cbn [filter]. rewrite !filter_app, !Ht by tauto.
    rewrite !listens_type by discriminate.
    cbn [mode_listeners String.eqb Ascii.eqb Bool.eqb filter app].
    rewrite !listens_same.
    unfold listens. cbn [l_node l_type node_eqb andb].
    rewrite ?Nat.eqb_refl. cbn.
    split; [|split; reflexivity].
    exists (S (next_listener w)). split; [reflexivity|].
    cbn [mode_listeners String.eqb Ascii.eqb Bool.eqb List.length] in N. lia.
  - unfold grab_released, listeners_for, registered. rewrite L.
    cbn [filter existsb]. rewrite !filter_app, existsb_app, !Ht, He by tauto.
    rewrite !listens_type by discriminate.
    rewrite !sr_type by discriminate.
    cbn [mode_listeners String.eqb Ascii.eqb Bool.eqb filter app existsb].
    rewrite !listens_type by discriminate.
    rewrite !sr_type by discriminate.
    split; reflexivity.
Qed.

Variables (s : State) (p : Point).
Hypothesis wired : grab_wired s.

Let sF := on_world (set_flags false false) s.
Let src_el := source (bind s).

(** The primary button goes down on the source. *)
Lemma grab_press :
  grab_released s -> fades_run s ->
  let s1 := dispatch (El src_el) (mouse mousedown p) s in
  s1 = exec preventDefault
         (exec (addEventListener Document mousemove h_move false)
            (exec (start (Some p))
               (exec (addEventListener Document mouseup grab_mouseup true) sF)))
  /\ grab_wired s1
  /\ grab_held s1
  /\ fades s1 = fades s ++ [Fin (ofZ 1)]
  /\ zoom (bind s1) = Some (init_vars (world s) (bind s))
  /\ defaultPrevented (world s1) = true
  /\ reported (world s1) = reported (world s).
Proof.
  intros (Hup & Hreg) Hv s1.
  destruct wired as ((i & Hsrc & Hlt) & Hdoc & Hsup).
  set (Li := mkListener i (El (source (bind s))) mousedown grab_mousedown false) in *.
  set (sa := exec (addEventListener Document mouseup grab_mouseup true) sF).
  set (sb := exec (start (Some p)) sa).
  set (sc := exec (addEventListener Document mousemove h_move false) sb).
  set (sd := exec preventDefault sc).
  pose proof (@registers_add Document mouseup grab_mouseup true sF (or_introl eq_refl))
    as RegA. fold sa in RegA.
  set (j := next_listener (world sF)) in *.
  assert (Hj : j = next_listener (world s)) by reflexivity.
  destruct (add_frame Document mouseup grab_mouseup true sF) as (BA & AA & RA & _).
  fold sa in BA, AA, RA.
  destruct (@start_obs p sa Hv) as (_ & WB & BB & ZB & AB). fold sb in WB, BB, ZB, AB.
  destruct (add_frame Document mousemove h_move false sb) as (BC & AC & RC & _).
  fold sc in BC, AC, RC.
  assert (Hsa : forall n t, listeners_for n t sa
                            = listeners_for n t s
                              ++ filter (listens n t)
                                   [mkListener j Document mouseup grab_mouseup true]).
  { intros n t. apply (listeners_for_registers _ _ RegA). }
  assert (Hsb : forall n t, listeners_for n t sb = listeners_for n t sa).
  { intros n t. apply (@listeners_for_wiring n t sb sa WB). }
  assert (Hdown : forall n, listeners_for n mousedown sd = listeners_for n mousedown s).
  { intros n. change (listeners_for n mousedown sc = listeners_for n mousedown s).
    unfold sc. rewrite listeners_for_add
      by (destruct n; cbn [node_eqb andb]; reflexivity).
    rewrite Hsb, Hsa. cbn [filter]. rewrite listens_type by discriminate.
    apply app_nil_r. }
  assert (Hs1 : s1 = sd).
  { unfold s1.
    apply (@dispatch_source_only s sd (mouse mousedown p) Li Hsrc eq_refl).
    - cbn [l_handler Li]. apply grab_press_run. exact Hv.
    - cbn [ev_type mouse]. rewrite Hdown. exact Hdoc. }
  assert (Hbd : bind sd = bind sb) by (change (bind sc = bind sb); exact BC).
  destruct BB as (B1 & B2 & B3 & B4 & B5 & B6).
  rewrite BA in B1, B2, B3, B4, B5, B6.
  change (bind sF) with (bind s) in B1, B2, B3, B4, B5, B6.
  assert (Hnext : (next_listener (world s) <= next_listener (world sd))%nat).
  { change (next_listener (world s) <= next_listener (world sc))%nat.
    apply Nat.le_trans with (next_listener (world sb)); [|apply next_listener_add].
    destruct WB as (_ & Hn & _). rewrite Hn.
    apply (@next_listener_add Document mouseup grab_mouseup true sF). }
  rewrite Hs1.
  split; [reflexivity|].
  split.
  { unfold grab_wired. rewrite Hbd, B2.
    split; [|split].
    - exists i. split; [rewrite Hdown; exact Hsrc | lia].
    - rewrite Hdown. exact Hdoc.
    - change (listeners_for (El (source (bind s))) mouseup sc = []).
      unfold sc. rewrite listeners_for_add by reflexivity.
      rewrite Hsb, Hsa, Hsup. reflexivity. }
  split.
  { unfold grab_held. rewrite Hbd, B2. split.
    - exists j. split.
      + change (listeners_for Document mouseup sc
                = [mkListener j Document mouseup grab_mouseup true]).
        unfold sc. rewrite listeners_for_add by reflexivity.
        rewrite Hsb, Hsa, Hup. rewrite listens_same'. reflexivity.
      + rewrite Hdown, Hsrc. constructor; [|constructor].
        cbn [l_id Li]. lia.
    - change (registered Document mousemove h_move sc = true).
      apply registered_after_add. }
  split.
  { change (fades sc = fades s ++ [Fin (ofZ 1)]). unfold fades.
    rewrite AC, AB, AA, map_app. reflexivity. }
  split.
  { rewrite Hbd, ZB, BA. reflexivity. }
  split; [reflexivity|].
  change (reported (world sc) = reported (world s)). rewrite RC.
  destruct WB as (_ & _ & _ & _ & Hr & _). rewrite Hr, RA. reflexivity.
Qed.

(** Another button goes down on the source: nothing runs. *)
Lemma grab_ignores_other_buttons (b : Z) :
  b <> 0%Z ->
  dispatch (El src_el) (mouse_button mousedown p b) s = sF.
Proof.
  intros Hb. destruct wired as ((i & Hsrc & _) & Hdoc & _).
  apply (@dispatch_source_only s sF (mouse_button mousedown p b) _ Hsrc eq_refl).
  - cbn [l_handler]. apply grab_other_button. exact Hb.
  - exact Hdoc.
Qed.

(** The button goes up, over the source or anywhere else in the
    document. *)
Lemma grab_release (n : node) :
  grab_held s -> fades_run s -> n = Document \/ n = El src_el ->
  let s2 := dispatch n (mouse mouseup p) s in
  (exists j, s2 = exec (removeEventListener Document mousemove h_move)
                    (exec stop (unregister j sF)))
  /\ grab_wired s2
  /\ grab_released s2
  /\ fades s2 = fades s ++ [Fin zero]
  /\ bind s2 = bind s
  /\ reported (world s2) = reported (world s).
Proof.
  intros ((j & Hup & Hids) & Hreg) Hv Hn s2.
  destruct wired as ((i & Hsrc & Hlt) & Hdoc & Hsup).
  set (Lj := mkListener j Document mouseup grab_mouseup true) in *.
  set (sU := unregister j sF).
  set (sA := exec stop sU).
  set (sB := exec (removeEventListener Document mousemove h_move) sA).
  assert (Hat : dispatch_at Document (mouse mouseup p) sF = sB).
  { rewrite (@dispatch_at_single_once Document (mouse mouseup p) sF Lj Hup eq_refl).
    cbn [l_handler l_id Lj]. rewrite (@grab_release_run _ (unregister j sF) Hv).
    reflexivity. }
  assert (Hs2 : s2 = sB).
  { unfold s2, dispatch. fold sF. destruct Hn as [-> | ->]; [exact Hat|].
    rewrite (@dispatch_at_none (El src_el) (mouse mouseup p) sF Hsup).
    exact Hat. }
  destruct (@stop_obs sU Hv) as (_ & WA & BA & AA). fold sA in WA, BA, AA.
  destruct (remove_frame Document mousemove h_move sA) as (BR & AR & RR & _).
  fold sB in BR, AR, RR.
  assert (HsA : forall m t, listeners_for m t sA
                            = filter (fun l => negb (Nat.eqb (l_id l) j))
                                (listeners_for m t s)).
  { intros m t. rewrite (@listeners_for_wiring m t sA sU WA).
    unfold sU. rewrite listeners_for_unregister. reflexivity. }
  assert (Hb : bind sB = bind s) by (rewrite BR, BA; reflexivity).
  assert (Hij : Nat.eqb i j = false).
  { rewrite Hsrc in Hids. apply Forall_inv in Hids. cbn [l_id] in Hids.
    apply Nat.eqb_neq. exact Hids. }
  assert (HnB : next_listener (world sB) = next_listener (world s)).
  { change (next_listener (world sA) = next_listener (world s)).
    destruct WA as (_ & Hn' & _). rewrite Hn'. reflexivity. }
  rewrite Hs2.
  split; [exists j; reflexivity|].
  split.
  { unfold grab_wired. rewrite Hb.
    split; [|split].
    - exists i. split; [|rewrite HnB; exact Hlt].
      unfold sB. rewrite listeners_for_remove by reflexivity.
      rewrite HsA, Hsrc. cbn [filter l_id]. rewrite Hij. reflexivity.
    - unfold sB. rewrite listeners_for_remove by reflexivity.
      rewrite HsA, Hdoc. reflexivity.
    - unfold sB. rewrite listeners_for_remove by reflexivity.
      rewrite HsA, Hsup. reflexivity. }
  split.
  { unfold grab_released. split.
    - unfold sB. rewrite listeners_for_remove by reflexivity.
      rewrite HsA, Hup. cbn [filter Lj l_id]. rewrite Nat.eqb_refl. reflexivity.
    - apply registered_after_remove. }
  split.
  { change (fades sB = fades s ++ [Fin zero]). unfold fades. rewrite AR.
    fold (fades sA). apply (@fades_snoc sU sA _ AA). }
  split; [exact Hb|].
  rewrite RR. destruct WA as (_ & _ & _ & _ & Hr & _). rewrite Hr. reflexivity.
Qed.

End GrabMode.

(** X10. The grab mode, button down.  Once the overlay has loaded the
    source has its mousedown listener and the document has neither a
    mouseup listener nor the move tracker.  The primary button going down
    on the source registers a one-shot mouseup listener and the move
    tracker on the document, runs [start] at the pointer, and prevents the
    default, for a duration [element.animate] takes; any other button does
    nothing. *)
Theorem grab_mode_press
  (src_el : elem) (o : Options) (w : World) (u : string) :
  listeners w = [] -> o_url o = Some u -> u <> "" ->
  on (assign_options o) = "grab" ->
  let s0 := bound_and_loaded src_el o w in
  grab_wired s0 /\ grab_released s0
  /\ forall s p, grab_wired s ->
       let sF := on_world (set_flags false false) s in
       let src := source (bind s) in
       (grab_released s -> fades_run s ->
        let s1 := dispatch (El src) (mouse mousedown p) s in
        s1 = exec preventDefault
               (exec (addEventListener Document mousemove h_move false)
                  (exec (start (Some p))
                     (exec (addEventListener Document mouseup grab_mouseup true) sF)))
        /\ grab_wired s1
        /\ grab_held s1
        /\ fades s1 = fades s ++ [Fin (ofZ 1)]
        /\ zoom (bind s1) = Some (init_vars (world s) (bind s))
        /\ defaultPrevented (world s1) = true
        /\ reported (world s1) = reported (world s))
       /\ (forall b, b <> 0%Z ->
           dispatch (El src) (mouse_button mousedown p b) s = sF).
Proof.
  intros Hl Hu Hne Hm s0.
  destruct (@grab_wired_loaded src_el o w u Hl Hu Hne Hm) as (W0 & R0).
  split; [exact W0|]. split; [exact R0|].
  intros s p Hw sF src.
  split; [intros Hr Hv; apply (@grab_press s p Hw Hr Hv)|].
  intros b Hb. apply (@grab_ignores_other_buttons s p Hw b Hb).
Qed.

Lemma grab_mode_press_witness :
  let o := with_on "grab" (with_url "large.jpg" no_options) in
  let s0 := bound_and_loaded 1%nat o sample_page in
  (listeners sample_page = [] /\ o_url o = Some "large.jpg" /\ "large.jpg" <> ""
   /\ on (assign_options o) = "grab")
  /\ grab_held (dispatch (El (source (bind s0))) (mouse mousedown at_60_60) s0).
Proof.
  intros o s0.
  assert (H : "large.jpg" <> "") by discriminate.
  split; [repeat split; exact H|].
  destruct (@grab_mode_press 1%nat o sample_page "large.jpg"
              eq_refl eq_refl H eq_refl) as (W0 & R0 & Hstep).
  fold s0 in W0, R0.
  assert (Hv : fades_run s0) by (vm_compute; reflexivity).
  clearbody s0.
  destruct (Hstep s0 at_60_60 W0) as (Hpress & _).
  destruct (Hpress R0 Hv) as (_ & _ & Hh & _).
  exact Hh.
Defined.

(** X11. The grab mode, button up.  While the button is held, a mouseup
    over the source or anywhere else in the document runs the one-shot
    listener: for a duration [element.animate] takes, [stop] starts the
    fade to 0, the move tracker is removed, the listener itself is gone,
    and the mousedown listener of the source stays. *)
Theorem grab_mode_release (s : State) (p : Point) (n : node) :
  grab_wired s -> grab_held s -> fades_run s ->
  n = Document \/ n = El (source (bind s)) ->
  let s2 := dispatch n (mouse mouseup p) s in
  (exists j, s2 = exec (removeEventListener Document mousemove h_move)
                    (exec stop (unregister j (on_world (set_flags false false) s))))
  /\ grab_wired s2
  /\ grab_released s2
  /\ fades s2 = fades s ++ [Fin zero]
  /\ bind s2 = bind s
  /\ reported (world s2) = reported (world s).
Proof.
  intros Hw Hh Hv Hn. apply (@grab_release s p Hw n Hh Hv Hn).
Qed.

Lemma grab_mode_release_witness :
  let o := with_on "grab" (with_url "large.jpg" no_options) in
  let s0 := bound_and_loaded 1%nat o sample_page in
  let s1 := dispatch (El (source (bind s0))) (mouse mousedown at_60_60) s0 in
  (grab_wired s1 /\ grab_held s1 /\ fades_run s1)
  /\ grab_released (dispatch Document (mouse mouseup at_60_60) s1).
Proof.
  intros o s0 s1.
  assert (H : "large.jpg" <> "") by discriminate.
  assert (Hv0 : fades_run s0) by (vm_compute; reflexivity).
  assert (Hv1 : fades_run s1) by (vm_compute; reflexivity).
  destruct (@grab_wired_loaded 1%nat o sample_page "large.jpg"
              eq_refl eq_refl H eq_refl) as (W0 & R0).
  fold s0 in W0, R0. clearbody s0.
  destruct (@grab_press s0 at_60_60 W0 R0 Hv0) as (_ & W1 & H1 & _).
  fold s1 in W1, H1. clearbody s1.
  split; [split; [exact W1 | split; [exact H1 | exact Hv1]]|].
  destruct (@grab_mode_release s1 at_60_60 Document W1 H1 Hv1 (or_introl eq_refl))
    as (_ & _ & Hr & _).
  exact Hr.
Defined.
(** ** The load listener: what is left of it *)

Section LoadOutcomes.

Variables (src_el : elem) (o : Options) (w : World) (u : string).

Hypothesis no_listeners : listeners w = [].
Hypothesis url_given : o_url o = Some u.
Hypothesis url_not_empty : u <> "".

Let im := fst (overlay_image w src_el).
Let n := next_listener w.

Lemma zoomImage_jquery :
  jquery (world (fst (zoomImage src_el o w))) = jquery w.
Proof.
  unfold zoomImage.
  assert (Fj : jquery (snd (overlay_image w src_el)) = jquery w).
  { unfold overlay_image.
    destruct (querySelector w src_el ZOOM_IMAGE_CLASS); reflexivity. }
  destruct (overlay_image w src_el) as [im' w1]. cbn [fst snd] in Fj.
  destruct (negb (truthy (url (assign_options o))) &&
            negb (truthy (url
              (if negb (truthy (url (assign_options o)))
               then match querySelector w1 src_el "img" with
                    | Some se => set_url (Some (image_url (elements w1 se)))
                                   (assign_options o)
                    | None => assign_options o
                    end
               else assign_options o)))); exact Fj.
Qed.

(** The load event on the overlay of a new binding: the run of the load
    listener, what it throws reported. *)
Lemma bound_and_loaded_settle :
  bound_and_loaded src_el o w
  = settle load_listener
      (on_world (set_flags false false) (fst (zoomImage src_el o w))).
Proof.
  unfold bound_and_loaded.
  destruct (@zoomImage_with_url src_el o w u url_given url_not_empty)
    as (B0 & L0 & _).
  fold im in B0, L0. rewrite no_listeners in L0. cbn [app] in L0. fold n in L0.
  generalize dependent (fst (zoomImage src_el o w)). intros s0 B0 L0.
  set (sF := on_world (set_flags false false) s0).
  assert (HF : listeners_for (El (img (bind s0)))
                 (ev_type (mkEvent load (mkPoint zero zero) 0 [] [])) sF
               = [mkListener n (El im) load on_load false]).
  { unfold listeners_for. change (listeners (world sF)) with (listeners (world s0)).
    rewrite L0, B0. cbn [img filter]. unfold listens.
    cbn [l_node l_type ev_type]. rewrite node_eqb_refl.
    destruct (evtype_eq_dec load load); [reflexivity | contradiction]. }
  assert (Hs : image_loaded s0
               = dispatch_at (El (img (bind s0)))
                   (mkEvent load (mkPoint zero zero) 0 [] []) sF).
  { reflexivity. }
  rewrite Hs.
  rewrite (@dispatch_at_single _ _ sF _ HF eq_refl).
  reflexivity.
Qed.

Lemma bound_and_loaded_toggle_drag :
  on (assign_options o) = "toggle-drag" -> jquery w = false ->
  let s := bound_and_loaded src_el o w in
  s = report (ReferenceError "$ is not defined")
        (on_bind (set_dragging false)
           (exec createZoom
              (on_world (set_flags false false) (fst (zoomImage src_el o w)))))
  /\ listeners (world s) = [mkListener n (El im) load on_load false]
  /\ bind s = mkBinding (assign_options o) src_el (or_default (o_target o) src_el)
                im false false (Some undefined_vars) false
  /\ reported (world s) = reported w ++ [ReferenceError "$ is not defined"]
  /\ animations (world s) = animations w
  /\ calls (world s) = calls w
  /\ doc (world s) = append (or_default (o_target o) src_el) im (doc w).
Proof.
  intros Hd Hj. cbv zeta. rewrite bound_and_loaded_settle.
  destruct (@zoomImage_with_url src_el o w u url_given url_not_empty)
    as (B0 & L0 & N0 & R0 & A0 & C0 & D0).
  pose proof zoomImage_jquery as J0.
  fold im in B0, L0. rewrite no_listeners in L0. cbn [app] in L0. fold n in L0, N0.
  generalize dependent (fst (zoomImage src_el o w)). intros s0 B0 L0 N0 R0 A0 C0 D0 J0.
  set (sF := on_world (set_flags false false) s0).
  assert (Hm : on (settings (bind sF)) = "toggle-drag").
  { change (bind sF) with (bind s0). rewrite B0. exact Hd. }
  assert (Hq : jquery (world sF) = false).
  { change (jquery (world sF)) with (jquery (world s0)). rewrite J0. exact Hj. }
  unfold settle. rewrite (@load_listener_toggle_drag sF Hm Hq).
  destruct (createZoom_obs sF) as (_ & L1 & N1 & C1 & R1 & A1 & _ & _ & B1 & D1).
  set (s1 := exec createZoom sF) in *. clearbody s1.
  change (listeners (world sF)) with (listeners (world s0)) in L1.
  change (bind sF) with (bind s0) in B1, D1.
  change (reported (world sF)) with (reported (world s0)) in R1.
  change (animations (world sF)) with (animations (world s0)) in A1.
  change (calls (world sF)) with (calls (world s0)) in C1.
  change (doc (world sF)) with (doc (world s0)) in D1.
  rewrite B0 in B1, D1. cbn [settings source img target set_zoom] in B1, D1.
  split; [reflexivity|].
  unfold report.
  cbn [world bind on_world on_bind listeners reported animations calls doc set_reported].
  rewrite L1, L0, B1, R1, A1, C1, D1, R0, A0, C0, D0.
  repeat split.
Qed.

Lemma bound_and_loaded_toggle_drag_jquery :
  on (assign_options o) = "toggle-drag" -> jquery w = true ->
  let s := bound_and_loaded src_el o w in
  listeners (world s)
  = mkListener n (El im) load on_load false
    :: mkListener (S n) (El src_el) click toggle_drag_click false
    :: (if touch (assign_options o) then touch_listeners src_el (S (S n)) else [])
  /\ reported (world s) = reported w
  /\ calls (world s)
     = calls w ++ (if callback (assign_options o) then [Callback im] else []).
Proof.
  intros Hd Hj. cbv zeta. rewrite bound_and_loaded_settle.
  destruct (@zoomImage_with_url src_el o w u url_given url_not_empty)
    as (B0 & L0 & N0 & R0 & A0 & C0 & D0).
  pose proof zoomImage_jquery as J0.
  fold im in B0, L0. rewrite no_listeners in L0. cbn [app] in L0. fold n in L0, N0.
  generalize dependent (fst (zoomImage src_el o w)). intros s0 B0 L0 N0 R0 A0 C0 D0 J0.
  set (sF := on_world (set_flags false false) s0).
  assert (Hm : on (settings (bind sF)) = "toggle-drag").
  { change (bind sF) with (bind s0). rewrite B0. exact Hd. }
  assert (Hq : jquery (world sF) = true).
  { change (jquery (world sF)) with (jquery (world s0)). rewrite J0. exact Hj. }
  destruct (@load_listener_toggle_drag_jquery sF Hm Hq) as (s3 & R & E).
  unfold settle. rewrite E.
  destruct (createZoom_obs sF) as (_ & L1 & N1 & C1 & R1 & _).
  set (s1 := exec createZoom sF) in *. clearbody s1.
  change (listeners (world sF)) with (listeners (world s0)) in L1.
  change (next_listener (world sF)) with (next_listener (world s0)) in N1, R.
  change (bind sF) with (bind s0) in R.
  change (reported (world sF)) with (reported (world s0)) in R1.
  change (calls (world sF)) with (calls (world s0)) in C1.
  rewrite B0 in R. cbn [settings source img] in R. rewrite N0 in R.
  assert (Hl : listeners (world s3)
               = mkListener n (El im) load on_load false
                 :: mkListener (S n) (El src_el) click toggle_drag_click false
                 :: (if touch (assign_options o)
                     then touch_listeners src_el (S (S n)) else [])).
  { rewrite R. cbn [world listeners set_listeners on_bind]. rewrite L1, L0.
    reflexivity. }
  assert (Hr : reported (world s3) = reported w).
  { rewrite R. cbn [world reported set_listeners on_bind]. rewrite R1. exact R0. }
  assert (Hc : calls (world s3) = calls w).
  { rewrite R. cbn [world calls set_listeners on_bind]. rewrite C1. exact C0. }
  change (bind sF) with (bind s0). rewrite B0. cbn [settings img].
  destruct (callback (assign_options o)).
  - cbn [fst world on_world listeners reported calls set_calls].
    rewrite Hl, Hr, Hc. repeat split.
  - cbn [fst]. rewrite Hl, Hr, Hc, app_nil_r. repeat split.
Qed.

End LoadOutcomes.

(** X12. The trigger mode 'toggle-drag' needs jQuery: its branch of the
    load listener calls [$], which the module neither declares nor
    imports.  On a page without jQuery, where [$] is not defined, the mode
    cannot be set up: the set-up of [createZoom] has run by then, so the
    overlay is in the document; the ReferenceError is reported, and neither
    a listener of the mode, nor the touch fallback, nor the callback
    follows.  On a page with jQuery the click handler of the mode is bound
    to the source, the touch fallback and the callback follow, and nothing
    is reported. *)
Theorem toggle_drag_mode_needs_jquery
  (src_el : elem) (o : Options) (w : World) (u : string) :
  listeners w = [] -> o_url o = Some u -> u <> "" ->
  on (assign_options o) = "toggle-drag" ->
  let s := bound_and_loaded src_el o w in
  let im := fst (overlay_image w src_el) in
  let n := next_listener w in
  (jquery w = false ->
   s = report (ReferenceError "$ is not defined")
         (on_bind (set_dragging false)
            (exec createZoom
               (on_world (set_flags false false) (fst (zoomImage src_el o w)))))
   /\ reported (world s) = reported w ++ [ReferenceError "$ is not defined"]
   /\ listeners (world s) = [mkListener n (El im) load on_load false]
   /\ calls (world s) = calls w
   /\ animations (world s) = animations w
   /\ doc (world s) = append (or_default (o_target o) src_el) im (doc w))
  /\ (jquery w = true ->
      listeners (world s)
      = mkListener n (El im) load on_load false
        :: mkListener (S n) (El src_el) click toggle_drag_click false
        :: (if touch (assign_options o) then touch_listeners src_el (S (S n)) else [])
      /\ reported (world s) = reported w
      /\ calls (world s)
         = calls w ++ (if callback (assign_options o) then [Callback im] else [])).
Proof.
  intros Hl Hu Hne Hm s im n. split.
  - intros Hj.
    destruct (@bound_and_loaded_toggle_drag src_el o w u Hl Hu Hne Hm Hj)
      as (E & L & _ & R & A & C & D).
    fold s in E, L, R, A, C, D.
    split; [exact E|]. split; [exact R|]. split; [exact L|].
    split; [exact C|]. split; [exact A | exact D].
  - intros Hj.
    apply (@bound_and_loaded_toggle_drag_jquery src_el o w u Hl Hu Hne Hm Hj).
Qed.

Lemma toggle_drag_mode_needs_jquery_witness :
  let o := mkOptions (Some "large.jpg") None None (Some "toggle-drag") None None
             true false false in
  let s := bound_and_loaded 1%nat o sample_page in
  (listeners sample_page = [] /\ o_url o = Some "large.jpg" /\ "large.jpg" <> ""
   /\ on (assign_options o) = "toggle-drag" /\ callback (assign_options o) = true
   /\ jquery sample_page = false)
  /\ calls (world s) = []
  /\ reported (world s) = [ReferenceError "$ is not defined"].
Proof.
  intros o s.
  assert (H : "large.jpg" <> "") by discriminate.
  split; [repeat split; exact H|].
  destruct (@toggle_drag_mode_needs_jquery 1%nat o sample_page "large.jpg"
              eq_refl eq_refl H eq_refl) as (T & _).
  destruct (T eq_refl) as (_ & R & _ & C & _).
  fold s in R, C. clearbody s.
  split; [exact C | exact R].
Defined.



(** ** Touch and mouse together *)

(** X14. The touch-move listener tests [clicked] as well as [touched]: in
    a binding armed by a mouse click, with no touch started, a touch-move
    prevents the default and moves the overlay to the touch point by the
    snapshot of the click. *)
Theorem touchmove_tracks_while_clicked
  (s : State) (p : Point) (w0 : World) (b0 : Binding) :
  touch_wired s -> clicked (bind s) = true ->
  zoom (bind s) = Some (init_vars w0 b0) ->
  let sF := on_world (set_flags false false) s in
  let s1 := dispatch (El (source (bind s))) (touch_at touchmove p) s in
  s1 = exec (move (Some p)) (exec preventDefault sF)
  /\ defaultPrevented (world s1) = true
  /\ bind s1 = bind s
  /\ fades s1 = fades s
  /\ style_of s1 (img (bind s)) left
     = Px (mul (neg (Fin (clamp (pageX p - page_left w0 (source b0)) zero
                                (ofN (source_width w0 b0)))))
               (to_num (xRatio (init_vars w0 b0))))
  /\ style_of s1 (img (bind s)) top
     = Px (mul (neg (Fin (clamp (pageY p - page_top w0 (source b0)) zero
                                (ofN (source_height w0 b0)))))
               (to_num (yRatio (init_vars w0 b0))))
  /\ reported (world s1) = reported (world s).
Proof.
  intros wired Hc Hz sF s1.
  set (sa := exec preventDefault sF).
  assert (Hza : zoom (bind sa) = Some (init_vars w0 b0)) by exact Hz.
  destruct (@move_writes w0 b0 sa p Hza) as (T & L & Tp).
  set (sb := exec (move (Some p)) sa) in *.
  pose proof (move_wiring (Some p) sa) as (WL & _ & _ & _ & WR & WD & _).
  fold sb in WL, WR, WD.
  pose proof (move_bind (Some p) sa) as B. fold sb in B.
  assert (Hs1 : s1 = sb).
  { unfold s1. destruct wired as (_ & (i & H2) & _ & _ & H5 & _).
    apply (@dispatch_source_only s sb (touch_at touchmove p) _ H2 eq_refl).
    - change (run_handler touch_move (touch_at touchmove p) sF = (sb, Ok tt)).
      rewrite (@touch_move_tracks sF p touchmove (or_intror Hc)).
      apply run_unit. exact T.
    - cbn [ev_type touch_at]. rewrite (@listeners_for_same Document touchmove sb s WL).
      exact H5. }
  rewrite Hs1.
  split; [reflexivity|].
  split; [rewrite WD; reflexivity|].
  split; [exact B|].
  split.
  { unfold fades, sb, exec.
    rewrite (@move_on_snapshot w0 b0 sa p Hza). reflexivity. }
  split; [exact L|]. split; [exact Tp|].
  rewrite WR. reflexivity.
Qed.

Lemma touchmove_tracks_while_clicked_witness :
  let s0 := loaded (with_on "click" (with_url "large.jpg" no_options)) in
  let s := dispatch (El 1%nat) (mouse click at_60_60) s0 in
  (clicked (bind s) = true /\ touched (bind s) = false)
  /\ defaultPrevented
       (world (dispatch (El (source (bind s))) (touch_at touchmove at_60_60) s))
     = true.
Proof.
  intros s0 s.
  assert (Hc : clicked (bind s) = true) by (vm_compute; reflexivity).
  assert (Ht : touched (bind s) = false) by (vm_compute; reflexivity).
  assert (Hz : zoom (bind s) = Some (init_vars (world s0) (bind s0)))
    by (vm_compute; reflexivity).
  assert (Hw : touch_wired s).
  { unfold touch_wired.
    split; [exists 2%nat; vm_compute; reflexivity|].
    split; [exists 3%nat; vm_compute; reflexivity|].
    split; [exists 4%nat; vm_compute; reflexivity|].
    split; [vm_compute; reflexivity|].
    split; vm_compute; reflexivity. }
  clearbody s. clearbody s0.
  split; [split; assumption|].
  destruct (@touchmove_tracks_while_clicked s at_60_60 (world s0) (bind s0) Hw Hc Hz)
    as (_ & Hd & _).
  exact Hd.
Defined.

(** ** Binding *)

Lemma getAttribute_setAttribute (name value : string) (a : list (string * string)) :
  getAttribute name (setAttribute name value a) = Some value.
Proof.
  induction a as [|[k v] a IH]; cbn [setAttribute getAttribute].
  - rewrite String.eqb_refl. reflexivity.
  - destruct (String.eqb k name) eqn:E; cbn [getAttribute]; rewrite E;
      [reflexivity | exact IH].
Qed.

Lemma zoomImage_elements (src_el : elem) (o : Options) (w : World) (u : string) :
  o_url o = Some u -> u <> "" ->
  elements (world (fst (zoomImage src_el o w)))
  = upd (fst (overlay_image w src_el))
      (fun e => with_src u (with_alt ""
         (with_attributes (setAttribute "role" "presentation" (attributes e)) e)))
      (elements (snd (overlay_image w src_el))).
Proof.
  intros Hu Hne. unfold zoomImage.
  destruct (overlay_image w src_el) as [im' w1']. cbn [fst snd].
  change (url (assign_options o)) with (o_url o).
  rewrite Hu, (truthy_some Hne). cbn [negb andb fst].
  change (url (assign_options o)) with (o_url o). rewrite Hu.
  reflexivity.
Qed.

Lemma find_none_Forall (A : Type) (f : A -> bool) (l : list A) :
  Forall (fun x => f x = false) l -> find f l = None.
Proof.
  induction 1 as [|x l Hx _ IH]; [reflexivity|].
  cbn [find]. rewrite Hx. exact IH.
Qed.

(** On a source without an element named 'zoomimg' the lookup of the
    overlay finds nothing, and a new image is created. *)
Lemma overlay_image_created (w : World) (src_el : elem) :
  Forall (fun e => localName (elements w e) <> "zoomimg")
    (descendants src_el (doc w)) ->
  overlay_image w src_el = createElement "img" w.
Proof.
  intros H.
  assert (Hq : querySelector w src_el ZOOM_IMAGE_CLASS = None).
  { unfold querySelector. apply find_none_Forall.
    revert H. apply Forall_impl. intros e He.
    apply String.eqb_neq. exact He. }
  unfold overlay_image. rewrite Hq. reflexivity.
Qed.

(** X15. Binding shows nothing before the overlay has loaded.  On a
    source without a descendant element named 'zoomimg', which is all the
    lookup by the selector 'zoomImg' can find, and on a page whose next
    new element is in no tree yet, [zoomImage] with a url returns with a
    new overlay prepared (role 'presentation', empty alt, the url as
    source, no inline style) and one load listener on it; the overlay is
    not in the document, the document is the same, no other element is
    touched, no zoom object exists, and nothing is animated or called. *)
Theorem zoomImage_waits_for_load
  (src_el : elem) (o : Options) (w : World) (u : string) :
  o_url o = Some u -> u <> "" ->
  Forall (fun e => localName (elements w e) <> "zoomimg")
    (descendants src_el (doc w)) ->
  attached (next_elem w) (doc w) = false ->
  let s := fst (zoomImage src_el o w) in
  let im := img (bind s) in
  im = next_elem w
  /\ attached im (doc (world s)) = false
  /\ doc (world s) = doc w
  /\ zoom (bind s) = None
  /\ getAttribute "role" (attributes (elements (world s) im)) = Some "presentation"
  /\ alt (elements (world s) im) = ""
  /\ src (elements (world s) im) = u
  /\ style (elements (world s) im) = blank_style
  /\ (forall x, x <> im -> elements (world s) x = elements w x)
  /\ listeners (world s)
     = listeners w ++ [mkListener (next_listener w) (El im) load on_load false]
  /\ animations (world s) = animations w
  /\ calls (world s) = calls w.
Proof.
  intros Hu Hne Hno Hfresh s im.
  destruct (@zoomImage_with_url src_el o w u Hu Hne) as (B & L & _ & _ & A & C & D).
  fold s in B, L, A, C, D.
  pose proof (@overlay_image_created w src_el Hno) as Ho.
  assert (Hf : fst (overlay_image w src_el) = next_elem w) by (rewrite Ho; reflexivity).
  assert (Him : im = next_elem w) by (unfold im; rewrite B; exact Hf).
  pose proof (@zoomImage_elements src_el o w u Hu Hne) as He. fold s in He.
  rewrite Hf in He, L.
  assert (Hb : elements (snd (overlay_image w src_el)) (next_elem w)
               = blank_element "img").
  { rewrite Ho. cbn [snd createElement elements set_next_elem set_elements].
    rewrite Nat.eqb_refl. reflexivity. }
  destruct (overlay_image_frame w src_el) as (_ & _ & _ & _ & Hx & _).
  split; [exact Him|].
  split; [rewrite D, Him; exact Hfresh|].
  split; [exact D|].
  split; [rewrite B; reflexivity|].
  rewrite He, Him. unfold upd at 1 2 3 4. rewrite Nat.eqb_refl.
  cbn [attributes alt src style with_src with_alt with_attributes].
  split; [apply getAttribute_setAttribute|].
  split; [reflexivity|]. split; [reflexivity|].
  split; [rewrite Hb; reflexivity|].
  split.
  { intros x N1. unfold upd. generalize N1. intros N1'.
    apply Nat.eqb_neq in N1. rewrite N1.
    apply Hx. exact N1'. }
  split; [rewrite L; reflexivity|].
  split; [exact A | exact C].
Qed.

Lemma zoomImage_waits_for_load_witness :
  let o := with_url "large.jpg" no_options in
  let s := fst (zoomImage 1%nat o sample_page) in
  (o_url o = Some "large.jpg" /\ "large.jpg" <> ""
   /\ Forall (fun e => localName (elements sample_page e) <> "zoomimg")
        (descendants 1%nat (doc sample_page))
   /\ attached (next_elem sample_page) (doc sample_page) = false)
  /\ attached (img (bind s)) (doc (world s)) = false
  /\ src (elements (world s) (img (bind s))) = "large.jpg".
Proof.
  intros o s.
  assert (H : "large.jpg" <> "") by discriminate.
  assert (Hno : Forall (fun e => localName (elements sample_page e) <> "zoomimg")
                  (descendants 1%nat (doc sample_page))).
  { constructor; [vm_compute; discriminate | constructor]. }
  assert (Hfresh : attached (next_elem sample_page) (doc sample_page) = false)
    by (vm_compute; reflexivity).
  split; [split; [reflexivity | split; [exact H | split; [exact Hno | exact Hfresh]]]|].
  destruct (@zoomImage_waits_for_load 1%nat o sample_page "large.jpg" eq_refl H
              Hno Hfresh)
    as (_ & At & _ & _ & _ & _ & S & _).
  fold s in At, S. clearbody s.
  split; [exact At | exact S].
Defined.

(** X16. An overlay is never found again: [querySelector] is given the
    class name 'zoomImg' as a type selector, so it looks for an element of
    that name, whatever the classes of the descendants are.  On a source
    without such an element every binding creates a new image. *)
Theorem overlay_is_not_found_by_class (w : World) (src_el : elem) :
  Forall (fun e => localName (elements w e) <> "zoomimg")
    (descendants src_el (doc w)) ->
  overlay_image w src_el = createElement "img" w
  /\ fst (overlay_image w src_el) = next_elem w.
Proof.
  intros H. rewrite (@overlay_image_created w src_el H). split; reflexivity.
Qed.

Lemma overlay_is_not_found_by_class_witness :
  let s := loaded (with_url "large.jpg" no_options) in
  (attached (img (bind s)) (doc (world s)) = true
   /\ In (img (bind s)) (descendants 1%nat (doc (world s)))
   /\ classList (elements (world s) (img (bind s))) = ["zoomImg"])
  /\ fst (overlay_image (world s) 1%nat) = next_elem (world s)
  /\ next_elem (world s) <> img (bind s).
Proof.
  intros s.
  assert (H1 : attached (img (bind s)) (doc (world s)) = true) by (vm_compute; reflexivity).
  assert (H2 : In (img (bind s)) (descendants 1%nat (doc (world s))))
    by (vm_compute; right; left; reflexivity).
  assert (H3 : classList (elements (world s) (img (bind s))) = ["zoomImg"])
    by (vm_compute; reflexivity).
  assert (H4 : next_elem (world s) <> img (bind s)) by (vm_compute; discriminate).
  assert (H5 : descendants 1%nat (doc (world s)) = [2%nat; 4%nat])
    by (vm_compute; reflexivity).
  assert (H6 : localName (elements (world s) 2%nat) = "img") by (vm_compute; reflexivity).
  assert (H7 : localName (elements (world s) 4%nat) = "img") by (vm_compute; reflexivity).
  clearbody s.
  split; [split; [exact H1 | split; [exact H2 | exact H3]]|].
  split; [|exact H4].
  apply (overlay_is_not_found_by_class (world s) 1%nat).
  rewrite H5. constructor; [rewrite H6; discriminate|].
  constructor; [rewrite H7; discriminate | constructor].
Defined.

(** ** The exported function *)

Section Zoom.


Variable options : Options.




End Zoom.



(** ** The callbacks of the fades *)

(** X18. [onZoomIn] and [onZoomOut] are called when the fade ends, not when
    it starts.  With a duration [element.animate] takes, [start] and [stop]
    call nothing; when the animation [start] made finishes, [onZoomIn] is
    called once with the overlay if it was given; when the animation [stop]
    made finishes, the overlay gets the inline display 'none' and
    [onZoomOut] is called once with the overlay if it was given.  With a
    negative or NaN duration [start] and [stop] make no animation and call
    nothing, so neither callback is ever called. *)
Theorem zoom_callbacks_follow_the_fades (s : State) (p : Point) :
  (fades_run s ->
   (let s1 := exec (start (Some p)) s in
    let s2 := exec (finish (started s)) s1 in
    calls (world s1) = calls (world s)
    /\ threw (finish (started s)) s1 = false
    /\ calls (world s2)
       = calls (world s)
         ++ (if onZoomIn (settings (bind s)) then [OnZoomIn (img (bind s))] else []))
   /\ (let s1 := exec stop s in
       let s2 := exec (finish (started s)) s1 in
       calls (world s1) = calls (world s)
       /\ threw (finish (started s)) s1 = false
       /\ calls (world s2)
          = calls (world s)
            ++ (if onZoomOut (settings (bind s)) then [OnZoomOut (img (bind s))] else [])
       /\ style_of s2 (img (bind s)) display = Str "none"))
  /\ (valid_duration (duration (settings (bind s))) = false ->
      animations (world (exec (start (Some p)) s)) = animations (world s)
      /\ calls (world (exec (start (Some p)) s)) = calls (world s)
      /\ animations (world (exec stop s)) = animations (world s)
      /\ calls (world (exec stop s)) = calls (world s)).
Proof.
  split; [intros Hv; split|].
  - intros s1 s2.
    set (sm := exec (move (Some p)) (exec init s)).
    assert (Hs1 : s1 = exec (fadeTo (img (bind s)) (duration (settings (bind s)))
                               (Fin (ofZ 1)) (Some zoomIn_cb)) sm).
    { unfold s1, exec at 1. rewrite (@start_run p s Hv). reflexivity. }
    pose proof (move_wiring (Some p) (exec init s)) as (_ & _ & _ & Wc & _).
    fold sm in Wc. change (calls (world (exec init s))) with (calls (world s)) in Wc.
    assert (Ha : started sm = started s).
    { assert (Hm : forall t s0,
                animations (world (exec (move t) s0)) = animations (world s0)).
      { intros t s0.
        destruct (move_cases t s0) as [E | [E | [E | (vl & vt & E)]]];
          unfold exec at 1; rewrite E; reflexivity. }
      unfold started, sm. rewrite Hm. reflexivity. }
    pose proof (move_bind (Some p) (exec init s)) as Hb. fold sm in Hb.
    destruct (@fadeTo_obs sm (img (bind s)) (duration (settings (bind s)))
                (Fin (ofZ 1)) (Some zoomIn_cb) Hv) as (_ & _ & C1 & _).
    destruct (@fade_and_finish sm (img (bind s)) (duration (settings (bind s)))
                (Fin (ofZ 1)) (Some zoomIn_cb) Hv) as (T2 & _ & C2 & _).
    rewrite <- Hs1 in C1, T2, C2. rewrite Ha in T2, C2. fold s2 in C2.
    split; [rewrite C1; exact Wc|].
    split; [exact T2|].
    rewrite C2, Wc, Hb. reflexivity.
  - intros s1 s2.
    assert (Hs1 : s1 = exec (fadeTo (img (bind s)) (duration (settings (bind s)))
                               (Fin zero) (Some zoomOut_cb)) s).
    { unfold s1, exec at 1. rewrite (@stop_run s Hv). reflexivity. }
    destruct (@fadeTo_obs s (img (bind s)) (duration (settings (bind s)))
                (Fin zero) (Some zoomOut_cb) Hv) as (_ & _ & C1 & _).
    destruct (@fade_and_finish s (img (bind s)) (duration (settings (bind s)))
                (Fin zero) (Some zoomOut_cb) Hv) as (T2 & _ & C2 & _ & S2 & _).
    rewrite <- Hs1 in C1, T2, C2, S2. fold s2 in C2, S2.
    split; [exact C1|]. split; [exact T2|]. split; [exact C2|].
    rewrite S2, Nat.eqb_refl. reflexivity.
  - intros Hv.
    destruct (@start_refused p s Hv) as (_ & A1).
    destruct (@stop_refused s Hv) as (_ & A2).
    destruct (start_frame p s) as ((_ & _ & _ & C1 & _) & _).
    destruct (stop_frame s) as ((_ & _ & _ & C2 & _) & _).
    split; [exact A1|]. split; [exact C1|]. split; [exact A2 | exact C2].
Qed.

Lemma zoom_callbacks_follow_the_fades_witness :
  let s := loaded (mkOptions (Some "large.jpg") None None None None None
                     false true true) in
  fades_run s
  /\ calls (world (exec (finish (started s)) (exec (start (Some at_60_60)) s)))
     = calls (world s) ++ [OnZoomIn (img (bind s))].
Proof.
  intros s.
  assert (Hv : fades_run s) by (vm_compute; reflexivity).
  assert (Hz : onZoomIn (settings (bind s)) = true) by (vm_compute; reflexivity).
  clearbody s.
  split; [exact Hv|].
  destruct (zoom_callbacks_follow_the_fades s at_60_60) as (T & _).
  destruct (T Hv) as ((_ & _ & C) & _).
  rewrite Hz in C. exact C.
Defined.
